(** * KijkcijferApp: the viewer-data ingestion and aggregation pipeline

    A shallow embedding of the TypeScript sources

      - [src/app/util/excelProcessor.ts]  (time-slot parser, month aggregation)
      - [src/app/util/dataAggregator.ts]  (multi-period aggregation)
      - [src/app/util/csvProcessor.ts]    (end-time back-fill of schedules)
      - [util/storage]                    (persistence of schedules)

    The JavaScript values the code manipulates are modelled as follows.

      - numbers: exact rationals plus [NaN]; infinities, negative zero and
        binary rounding are outside the model;
      - arrays: lists of optional elements, a hole being [None]; an
        assignment past the end extends the array with holes, as in
        JavaScript;
      - [Map]: an association list in insertion order;
      - built-ins whose result depends on the engine or its locale
        (number/string conversion, [Date], [localeCompare], the order
        [Array.prototype.sort] leaves incomparable elements in) are the
        fields of the class [Host]; every theorem holds for every host. *)

From Stdlib Require Import ZArith QArith Qround String Ascii List Permutation Lia Bool.
From stdpp Require Import base list strings numbers pretty.

Set Default Proof Using "Type".

(** ** Numbers *)

Inductive number : Type :=
| NaN
| Num (q : Q).

Definition num_of_Z (z : Z) : number := Num (inject_Z z).
Definition num_of_nat (n : nat) : number := num_of_Z (Z.of_nat n).

Definition num_add (a b : number) : number :=
  match a, b with
  | Num x, Num y => Num (x + y)
  | _, _ => NaN
  end.

Definition num_sub (a b : number) : number :=
  match a, b with
  | Num x, Num y => Num (x - y)
  | _, _ => NaN
  end.

Definition num_mul (a b : number) : number :=
  match a, b with
  | Num x, Num y => Num (x * y)
  | _, _ => NaN
  end.

(** [a / b].  The code divides by [100] and by an array length it has
    checked to be positive; a zero divisor (an infinity in JavaScript) is
    mapped to [NaN]. *)
Definition num_div (a b : number) : number :=
  match a, b with
  | Num x, Num y => if Qeq_bool y 0 then NaN else Num (x / y)
  | _, _ => NaN
  end.

Definition Qtrunc (q : Q) : Z :=
  if Qle_bool 0 q then Qfloor q else Qceiling q.

(** [a % b]: the remainder has the sign of the dividend. *)
Definition num_rem (a b : number) : number :=
  match a, b with
  | Num x, Num y =>
      if Qeq_bool y 0 then NaN else Num (x - y * inject_Z (Qtrunc (x / y)))
  | _, _ => NaN
  end.

(** [a > b], [a >= b], [a < b]: false as soon as one side is [NaN]. *)
Definition num_gt (a b : number) : bool :=
  match a, b with
  | Num x, Num y => negb (Qle_bool x y)
  | _, _ => false
  end.

Definition num_ge (a b : number) : bool :=
  match a, b with
  | Num x, Num y => Qle_bool y x
  | _, _ => false
  end.

Definition num_lt (a b : number) : bool := num_gt b a.

(** [a === b] on numbers. *)
Definition num_seq (a b : number) : bool :=
  match a, b with
  | Num x, Num y => Qeq_bool x y
  | _, _ => false
  end.

(** Truthiness of a number: [0] and [NaN] are falsy. *)
Definition num_truthy (a : number) : bool :=
  match a with
  | Num x => negb (Qeq_bool x 0)
  | NaN => false
  end.

(** [Math.round]: the nearest integer, ties towards plus infinity. *)
Definition Math_round (a : number) : number :=
  match a with
  | Num x => Num (inject_Z (Qfloor (x + (1 # 2))))
  | NaN => NaN
  end.

Definition Math_floor (a : number) : number :=
  match a with
  | Num x => Num (inject_Z (Qfloor x))
  | NaN => NaN
  end.

(** [Math.max(a, b)]. *)
Definition Math_max (a b : number) : number :=
  match a, b with
  | Num x, Num y => if Qle_bool x y then Num y else Num x
  | _, _ => NaN
  end.

(** [ToNumber] of a value that may be [undefined]. *)
Definition num_of_undef (o : option number) : number := default NaN o.

(** ** Arrays

    [Array A] is a JavaScript array whose defined elements have type [A];
    [None] is a hole. *)

Abbreviation Array A := (list (option A)).

(** [Array(n).fill(v)] *)
Definition Array_fill {A} (n : nat) (v : A) : Array A := replicate n (Some v).

(** [arr[i]]: [None] stands for [undefined]. *)
Definition Array_get {A} (arr : Array A) (i : nat) : option A :=
  mjoin (arr !! i).

(** [arr[i] = v]: in range the slot is overwritten, out of range the array
    grows to length [i + 1] and the slots in between are holes. *)
Definition Array_set {A} (arr : Array A) (i : nat) (v : A) : Array A :=
  if decide (i < length arr)%nat then <[i := Some v]> arr
  else arr ++ replicate (i - length arr) None ++ [Some v].

(** [arr.forEach((x, i) => ...)] as a fold over the state the callback
    mutates; holes are skipped. *)
Fixpoint Array_forEach_from {A St} (f : St -> A -> nat -> St) (i : nat)
    (arr : Array A) (s : St) : St :=
  match arr with
  | [] => s
  | x :: rest =>
      Array_forEach_from f (S i) rest
        (match x with Some v => f s v i | None => s end)
  end.

Definition Array_forEach {A St} (f : St -> A -> nat -> St) (arr : Array A)
    (s : St) : St :=
  Array_forEach_from f 0 arr s.

(** [arr.map((x, i) => ...)]: holes stay holes. *)
Definition Array_map {A B} (f : A -> nat -> B) (arr : Array A) : Array B :=
  imap (fun i x => (fun v => f v i) <$> x) arr.

(** [arr.filter(p)]: holes are skipped, the result is dense. *)
Definition Array_filter {A} (p : A -> bool) (arr : Array A) : list A :=
  List.filter p (omap id arr).

(** [Math.max(...arr)]: a hole spreads to [undefined], hence [NaN].  The
    spread arrays of this program have at least 24 entries; for the empty
    array (minus infinity in JavaScript) the model answers [NaN]. *)
Definition Math_max_spread (arr : Array number) : number :=
  match arr with
  | [] => NaN
  | x :: rest =>
      fold_left (fun m y => Math_max m (num_of_undef y)) rest (num_of_undef x)
  end.

(** ** Maps

    [Map<string, V>] keeps its keys in insertion order; [set] on a key
    that is present replaces the value where it stands. *)

Abbreviation Map V := (list (string * V)).

Fixpoint Map_get {V} (m : Map V) (k : string) : option V :=
  match m with
  | [] => None
  | (k', v) :: rest => if String.eqb k' k then Some v else Map_get rest k
  end.

Definition Map_has {V} (m : Map V) (k : string) : bool :=
  match Map_get m k with Some _ => true | None => false end.

Fixpoint Map_set {V} (m : Map V) (k : string) (v : V) : Map V :=
  match m with
  | [] => [(k, v)]
  | (k', v') :: rest =>
      if String.eqb k' k then (k', v) :: rest else (k', v') :: Map_set rest k v
  end.

Definition Map_values {V} (m : Map V) : list V := m.*2.
Definition Map_keys {V} (m : Map V) : list string := m.*1.

(** ** Strings *)

Definition is_digit (c : ascii) : bool :=
  (48 <=? nat_of_ascii c)%nat && (nat_of_ascii c <=? 57)%nat.

Definition digit_value (c : ascii) : Z := Z.of_nat (nat_of_ascii c) - 48.

(** [parseInt(s, 10)] on a string that starts with decimal digits (the
    regular-expression groups it is applied to are made of digits only):
    the value of the leading digits. *)
Fixpoint parseInt_from (acc : Z) (s : string) : Z :=
  match s with
  | String c rest =>
      if is_digit c then parseInt_from (10 * acc + digit_value c) rest else acc
  | EmptyString => acc
  end.

Definition parseInt (s : string) : Z := parseInt_from 0 s.

(** [s.includes(sub)] *)
Fixpoint String_includes (s sub : string) : bool :=
  String.prefix sub s ||
  match s with
  | String _ rest => String_includes rest sub
  | EmptyString => false
  end.

(** [s.split(sep)] for a one-character separator. *)
Fixpoint String_split_from (sep : ascii) (cur : string) (s : string) : list string :=
  match s with
  | EmptyString => [cur]
  | String c rest =>
      if Ascii.eqb c sep then cur :: String_split_from sep EmptyString rest
      else String_split_from sep (cur +:+ String c EmptyString) rest
  end.

Definition String_split (sep : ascii) (s : string) : list string :=
  String_split_from sep EmptyString s.

Fixpoint String_repeat (c : ascii) (n : nat) : string :=
  match n with
  | O => EmptyString
  | S n' => String c (String_repeat c n')
  end.

(** [s.padStart(n, c)] for a one-character filler. *)
Definition String_padStart (n : nat) (c : ascii) (s : string) : string :=
  String_repeat c (n - String.length s) +:+ s.

(** ** The time-slot parser ([excelProcessor.ts], [extractHourFromTimeSlot]) *)

(** [/^(\d{2}):00-\d{2}:59$/]: the first group of a match. *)
Definition re_standardFormat (timeSlot : string) : option string :=
  match list_ascii_of_string timeSlot with
  | [h1; h2; c1; z1; z2; d; e1; e2; c2; f; n] =>
      if is_digit h1 && is_digit h2 && Ascii.eqb c1 ":" && Ascii.eqb z1 "0"
         && Ascii.eqb z2 "0" && Ascii.eqb d "-" && is_digit e1 && is_digit e2
         && Ascii.eqb c2 ":" && Ascii.eqb f "5" && Ascii.eqb n "9"
      then Some (string_of_list_ascii [h1; h2]) else None
  | _ => None
  end.

(** [/^(\d{2})-(\d{2})$/] *)
Definition re_dashFormat (timeSlot : string) : option string :=
  match list_ascii_of_string timeSlot with
  | [h1; h2; d; e1; e2] =>
      if is_digit h1 && is_digit h2 && Ascii.eqb d "-" && is_digit e1 && is_digit e2
      then Some (string_of_list_ascii [h1; h2]) else None
  | _ => None
  end.

(** [/^(\d{1,2}):00$/] *)
Definition re_simpleHourFormat (timeSlot : string) : option string :=
  match list_ascii_of_string timeSlot with
  | [h1; c; z1; z2] =>
      if is_digit h1 && Ascii.eqb c ":" && Ascii.eqb z1 "0" && Ascii.eqb z2 "0"
      then Some (string_of_list_ascii [h1]) else None
  | [h1; h2; c; z1; z2] =>
      if is_digit h1 && is_digit h2 && Ascii.eqb c ":" && Ascii.eqb z1 "0"
         && Ascii.eqb z2 "0"
      then Some (string_of_list_ascii [h1; h2]) else None
  | _ => None
  end.

(** A match object [m] used as [m && m[1]]: the group must be a non-empty
    string. *)
Definition group_truthy (m : option string) : option string :=
  match m with
  | Some g => if String.eqb g "" then None else Some g
  | None => None
  end.

Definition NOT_FOUND : Z := (-1)%Z.

Definition extractHourFromTimeSlot (timeSlot : string) : Z :=
  if String.eqb timeSlot "" then NOT_FOUND else
  let standardFormat := re_standardFormat timeSlot in
  let dashFormat := re_dashFormat timeSlot in
  let simpleHourFormat := re_simpleHourFormat timeSlot in
  let hour :=
    match group_truthy standardFormat with
    | Some g => parseInt g
    | None =>
        match group_truthy dashFormat with
        | Some g => parseInt g
        | None =>
            match group_truthy simpleHourFormat with
            | Some g => parseInt g
            | None => (-1)%Z
            end
        end
    end in
  if (hour =? -1)%Z then NOT_FOUND else
  let hour :=
    if (24 <=? hour)%Z && (hour <=? 26)%Z then (hour mod 24)%Z else hour in
  hour.

(** ** Results of functions that may throw *)

Inductive exn : Type :=
| Error (message : string)
| TypeError.

Inductive result (A : Type) : Type :=
| Ok (a : A)
| Throw (e : exn).

Arguments Ok {A} a.
Arguments Throw {A} e.

#[global] Instance result_bind : MBind result :=
  fun A B k r => match r with Ok a => k a | Throw e => Throw e end.
#[global] Instance result_ret : MRet result := fun A a => Ok a.

(** ** The data model ([types.ts]) *)

Record AgeGroupData : Type := mkAgeGroupData {
  viewers13Plus : number;
  viewers50Plus : number;
  viewers65Plus : number
}.

Module ProgramData.
Record t : Type := mk {
  id : option string;
  title : string;
  startTime : string;
  endTime : option string;
  duration : option number;
  day : option string;
  dayOfWeek : option string;
  category : option string;
  isRepeat : option bool;
  notes : option string;
  sequence : option number;
  originalTime : option string;
  timePoint : option string;
  week : option number
}.
End ProgramData.

Module DailyData.
Record t : Type := mk {
  date : string;
  dayOfWeek : option string;
  totalViewers : number;
  hourlyViewers : Array number;
  hourlyPercentages : Array number;
  ageGroups : option (Array AgeGroupData);
  programs : option (list ProgramData.t)
}.
End DailyData.

Module ProcessedMonthData.
Record t : Type := mk {
  monthYear : string;
  days : list DailyData.t;
  averageHourlyViewers : Array number;
  maxViewersPerHour : Array number;
  totalViewersPerHour : Array number;
  averageAgeGroups : option (Array AgeGroupData);
  totalAgeGroups : option (Array AgeGroupData);
  peakDay : string;
  peakHour : Z;
  totalViewers : number
}.
End ProcessedMonthData.

Module ScheduleData.
Record t : Type := mk {
  weekNumber : number;
  year : number;
  days : Map (list ProgramData.t);
  programs : option (list ProgramData.t);
  weeks : option (list number)
}.
End ScheduleData.

(** ** Spreadsheet grids

    A cell of the grid the spreadsheet reader hands over: missing
    ([undefined]), [null], a number or a text.  A row may itself be
    missing. *)

Inductive cell : Type :=
| CUndefined
| CNull
| CNumber (n : number)
| CString (s : string).

Abbreviation row := (list cell).
Abbreviation grid := (list (option row)).

(** [row[i]] *)
Definition row_get (r : row) (i : nat) : cell := default CUndefined (r !! i).

Definition cell_truthy (c : cell) : bool :=
  match c with
  | CUndefined | CNull => false
  | CNumber n => num_truthy n
  | CString s => negb (String.eqb s "")
  end.

(** [c === s] for a string literal [s] *)
Definition cell_is (c : cell) (s : string) : bool :=
  match c with
  | CString s' => String.eqb s' s
  | _ => false
  end.

(** [c || 0] *)
Definition cell_or_zero (c : cell) : cell :=
  if cell_truthy c then c else CNumber (Num 0).

(** ** Objects and JSON documents

    A plain object is the list of its own properties in the order
    [Object.entries] enumerates them: the array-index keys in ascending
    numeric order, then the other keys in the order of their creation. *)

Abbreviation Object V := (list (string * V)).

Definition all_digits (s : string) : bool :=
  forallb is_digit (list_ascii_of_string s).

(** The array index a property key stands for, if it is one: the canonical
    decimal of an integer below [2^32 - 1]. *)
Definition arrayIndex (key : string) : option Z :=
  match key with
  | EmptyString => None
  | String c rest =>
      if all_digits key
         && (negb (Ascii.eqb c "0") || String.eqb rest "")
         && (parseInt key <=? 4294967294)%Z
      then Some (parseInt key) else None
  end.

(** The place of an array-index key among the properties. *)
Fixpoint Object_put_index {V} (obj : Object V) (index : Z) (key : string) (v : V)
    : Object V :=
  match obj with
  | [] => [(key, v)]
  | (k', v') :: rest =>
      match arrayIndex k' with
      | Some index' =>
          if (index' =? index)%Z then (k', v) :: rest
          else if (index <? index')%Z then (key, v) :: (k', v') :: rest
          else (k', v') :: Object_put_index rest index key v
      | None => (key, v) :: (k', v') :: rest
      end
  end.

(** Creation or update of the own data property [key]. *)
Definition Object_define {V} (obj : Object V) (key : string) (v : V) : Object V :=
  match arrayIndex key with
  | Some index => Object_put_index obj index key v
  | None => Map_set obj key v
  end.

(** [obj[key] = v] on an object created by [{}], for a value [v] that is
    itself an object: the key ["__proto__"] reaches the setter inherited
    from [Object.prototype], which replaces the prototype and creates no
    own property. *)
Definition Object_set {V} (obj : Object V) (key : string) (v : V) : Object V :=
  if String.eqb key "__proto__" then obj else Object_define obj key v.

(** A JSON text, by the document it spells. *)
#[warnings="-register-all"]
Inductive json : Type :=
| JNull
| JBool (b : bool)
| JNumber (q : Q)
| JString (s : string)
| JArray (items : list json)
| JObject (members : list (string * json)).

(** [JSON.parse]: the members of an object are defined one after the
    other, so that a repeated key keeps its last value and array-index
    keys move to the front. *)
Fixpoint JSON_parse (text : json) : json :=
  match text with
  | JArray items => JArray (List.map JSON_parse items)
  | JObject members =>
      JObject
        (fold_left (fun obj kv => Object_define obj (fst kv) (snd kv))
           (List.map (fun kv => (fst kv, JSON_parse (snd kv))) members) [])
  | _ => text
  end.

(** [value.key] on a parsed value that is not [null] *)
Definition json_get (value : json) (key : string) : option json :=
  match value with
  | JObject members => Map_get members key
  | _ => None
  end.

(** The storage of the browser: the texts kept under their keys. *)
Abbreviation Storage := (list (string * json)).

(** ** Built-ins supplied by the JavaScript engine *)

Class Host : Type := {
  (** [Number(s)] for a string [s] *)
  Number_of_string : string -> number;
  (** [n.toString()], also the text a template literal gives a number *)
  Number_toString : number -> string;
  (** [getDate()], [getMonth()] and [getFullYear()] of [new Date(ms)],
      in local time *)
  Date_getDate : number -> number;
  Date_getMonth : number -> number;
  Date_getFullYear : number -> number;
  (** [new Date(year, month, day).getTime()] *)
  Date_getTime : number -> number -> number -> number;
  (** [a.localeCompare(b)] *)
  String_localeCompare : string -> string -> number;
  (** [arr.sort(cmp)]: which permutation comes out is the engine's
      business when [cmp] is not a consistent order *)
  Array_sort : forall A : Type, (A -> A -> number) -> list A -> list A;
  Array_sort_Permutation :
    forall (A : Type) (cmp : A -> A -> number) (l : list A),
      Permutation (Array_sort A cmp l) l;
  (** whether [localStorage.setItem(key, text)] stores the text, given
      what the storage holds; it throws otherwise (quota) *)
  localStorage_accepts : list (string * json) -> string -> json -> bool
}.

Arguments Array_sort {_ A} cmp l.

Section Pipeline.
Context {host : Host}.

(** [Number(c)] *)
Definition cell_Number (c : cell) : number :=
  match c with
  | CUndefined => NaN
  | CNull => Num 0
  | CNumber n => n
  | CString s => Number_of_string s
  end.

(** [c?.toString() || ''] *)
Definition cell_toString (c : cell) : string :=
  match c with
  | CUndefined | CNull => ""
  | CNumber n => Number_toString n
  | CString s => s
  end.

(** *** [excelProcessor.ts] *)

Definition excelDateToString (serial : number) : string :=
  if negb (num_truthy serial) then "" else
  let utcDays := Math_floor (num_sub serial (num_of_Z 25569)) in
  let utcValue := num_mul utcDays (num_of_Z 86400) in
  let date := num_mul utcValue (num_of_Z 1000) in
  String_padStart 2 "0" (Number_toString (Date_getDate date)) +:+ "-" +:+
  String_padStart 2 "0" (Number_toString (num_add (Date_getMonth date) (num_of_Z 1)))
  +:+ "-" +:+ Number_toString (Date_getFullYear date).

Definition getAgeGroupDistributionForHour (hour : Z) : AgeGroupData :=
  if (6 <=? hour)%Z && (hour <? 12)%Z then
    mkAgeGroupData (Num (40 # 100)) (Num (35 # 100)) (Num (25 # 100))
  else if (12 <=? hour)%Z && (hour <? 18)%Z then
    mkAgeGroupData (Num (55 # 100)) (Num (30 # 100)) (Num (15 # 100))
  else if (18 <=? hour)%Z && (hour <? 22)%Z then
    mkAgeGroupData (Num (45 # 100)) (Num (35 # 100)) (Num (20 # 100))
  else if (22 <=? hour)%Z || (hour <? 2)%Z then
    mkAgeGroupData (Num (65 # 100)) (Num (25 # 100)) (Num (10 # 100))
  else
    mkAgeGroupData (Num (35 # 100)) (Num (40 # 100)) (Num (25 # 100)).

(** [arr.findIndex(p)] *)
Fixpoint findIndex_from {A} (p : A -> bool) (i : Z) (l : list A) : Z :=
  match l with
  | [] => (-1)%Z
  | x :: rest => if p x then i else findIndex_from p (i + 1)%Z rest
  end.

Definition findIndex {A} (p : A -> bool) (l : list A) : Z := findIndex_from p 0%Z l.

Definition isHeaderRow (r : option row) : bool :=
  match r with
  | Some r =>
      (2 <? length r)%nat && cell_is (row_get r 0) "Datum"
      && cell_is (row_get r 1) "Dag" && cell_is (row_get r 2) "Tijdvak"
  | None => false
  end.

(** The three column indices the header scan assigns. *)
Record columns : Type := mkColumns {
  totalViewersColumnIndex : Z;
  kijkcijfersColumnIndex : Z;
  percentageColumnIndex : Z
}.

(** The body of [data[headerRowIndex].forEach((header, index) => ...)] *)
Definition scanHeader (cols : columns) (header : cell) (index : Z) : columns :=
  match header with
  | CString h =>
      if String.eqb h "" then cols else
      let cols :=
        if String_includes h "Dagcijfers" || String_includes h "kijkdichtheid per dag"
           || String_includes h "dagcijfers" || String_includes h "Kijkers per dag"
        then mkColumns index (kijkcijfersColumnIndex cols) (percentageColumnIndex cols)
        else cols in
      let cols :=
        if String_includes h "Kijkcijfers per programma"
           || String_includes h "kijkcijfers per programma"
           || String_includes h "Kijkcijfer per uur"
           || String_includes h "kijkcijfer per uur"
        then mkColumns (totalViewersColumnIndex cols) index (percentageColumnIndex cols)
        else cols in
      let cols :=
        if String.eqb h "TOTAL" || String.eqb h "Total" || String.eqb h "Totaal"
           || String_includes h "percentage"
        then mkColumns (totalViewersColumnIndex cols) (kijkcijfersColumnIndex cols) index
        else cols in
      cols
  | _ => cols
  end.

Fixpoint scanHeaders_from (index : Z) (headers : row) (cols : columns) : columns :=
  match headers with
  | [] => cols
  | h :: rest => scanHeaders_from (index + 1)%Z rest (scanHeader cols h index)
  end.

(** [for (const pos of possibleColumns) if (pos < length) { ...; break }] *)
Definition firstInBounds (possibleColumns : list Z) (len : nat) : Z :=
  match List.find (fun pos => (pos <? Z.of_nat len)%Z) possibleColumns with
  | Some pos => pos
  | None => (-1)%Z
  end.

Definition resolveColumns (headers : row) : columns :=
  let cols := scanHeaders_from 0%Z headers (mkColumns (-1) (-1) (-1)) in
  let total := totalViewersColumnIndex cols in
  let pct := percentageColumnIndex cols in
  let total :=
    if (total =? -1)%Z then firstInBounds [3; 4; 5; 6]%Z (length headers) else total in
  let pct :=
    if (pct =? -1)%Z then firstInBounds [4; 5; 6; 7]%Z (length headers) else pct in
  let total := if (total =? -1)%Z then 4%Z else total in
  let pct := if (pct =? -1)%Z then 6%Z else pct in
  mkColumns total (kijkcijfersColumnIndex cols) pct.

(** [row[i]] for an index held in a number variable *)
Definition row_at (r : row) (i : Z) : cell :=
  if (i <? 0)%Z then CUndefined else row_get r (Z.to_nat i).

Definition zeroAgeGroup : AgeGroupData := mkAgeGroupData (Num 0) (Num 0) (Num 0).

(** The day object created for a date that is not in [daysMap] yet. *)
Definition newDay (dateString dayOfWeek : string) (totalDailyViewers : number)
    : DailyData.t :=
  DailyData.mk dateString (Some dayOfWeek) totalDailyViewers
    (Array_fill 24 (Num 0)) (Array_fill 24 (Num 0)) None None.

(** What one turn of the loop over the data rows reads from its row. *)
Record rowData : Type := mkRowData {
  r_dateString : string;
  r_dayOfWeek : string;
  r_hour : Z;
  r_totalViewerPercent : number;
  r_totalDailyViewers : number;
  r_hourlyViewers : number
}.

(** Lines 247-276 and 291-300: the values a row carries, or [None] when
    one of the [continue] statements skips it.  (The source computes
    [hourlyViewers] after it has looked the day up; it depends on the row
    alone.) *)
Definition readRow (cols : columns) (r : option row) : option rowData :=
  match r with
  | None => None
  | Some row =>
      let totalCol := totalViewersColumnIndex cols in
      let pctCol := percentageColumnIndex cols in
      let kijkCol := kijkcijfersColumnIndex cols in
      if (Z.of_nat (length row) <? Z.max totalCol pctCol + 1)%Z then None else
      let excelDate := row_get row 0 in
      let dayOfWeek := cell_toString (row_get row 1) in
      let timeSlot := cell_toString (row_get row 2) in
      if negb (cell_truthy excelDate) || String.eqb timeSlot "" then None else
      let totalViewerPercent := cell_Number (cell_or_zero (row_at row pctCol)) in
      let totalViewerPercent :=
        if num_gt totalViewerPercent (Num 1)
        then num_div totalViewerPercent (Num 100) else totalViewerPercent in
      let totalDailyViewers := cell_Number (cell_or_zero (row_at row totalCol)) in
      let hour := extractHourFromTimeSlot timeSlot in
      if (hour =? -1)%Z then None else
      let dateString :=
        match excelDate with
        | CNumber serial => excelDateToString serial
        | _ => cell_toString excelDate
        end in
      if String.eqb dateString "" then None else
      let hourlyViewers :=
        if negb (kijkCol =? -1)%Z
           && negb (match row_at row kijkCol with CUndefined => true | _ => false end)
        then cell_Number (row_at row kijkCol) else Num 0 in
      let hourlyViewers :=
        if num_seq hourlyViewers (Num 0) && num_gt totalDailyViewers (Num 0)
           && num_gt totalViewerPercent (Num 0)
        then Math_round (num_mul totalViewerPercent totalDailyViewers)
        else hourlyViewers in
      Some (mkRowData dateString dayOfWeek hour totalViewerPercent totalDailyViewers
              hourlyViewers)
  end.

(** Lines 306-328: the simulated age groups of the hour. *)
Definition writeAgeGroups (ageGroups : option (Array AgeGroupData)) (hour : Z)
    (hourlyViewers : number) : Array AgeGroupData :=
  let ageGroups :=
    match ageGroups with
    | Some groups => groups
    | None => Array_fill 24 zeroAgeGroup
    end in
  let ageGroupDistribution := getAgeGroupDistributionForHour hour in
  match Array_get ageGroups (Z.to_nat hour) with
  | Some _ =>
      if num_gt hourlyViewers (Num 0) then
        Array_set ageGroups (Z.to_nat hour)
          (mkAgeGroupData
             (Math_round (num_mul hourlyViewers (viewers13Plus ageGroupDistribution)))
             (Math_round (num_mul hourlyViewers (viewers50Plus ageGroupDistribution)))
             (Math_round (num_mul hourlyViewers (viewers65Plus ageGroupDistribution))))
      else ageGroups
  | None => ageGroups
  end.

(** Lines 302-304 and 306-328: what the row writes into its day. *)
Definition writeHour (dayData : DailyData.t) (d : rowData) : DailyData.t :=
  DailyData.mk (DailyData.date dayData) (DailyData.dayOfWeek dayData)
    (DailyData.totalViewers dayData)
    (Array_set (DailyData.hourlyViewers dayData) (Z.to_nat (r_hour d)) (r_hourlyViewers d))
    (Array_set (DailyData.hourlyPercentages dayData) (Z.to_nat (r_hour d))
       (r_totalViewerPercent d))
    (Some (writeAgeGroups (DailyData.ageGroups dayData) (r_hour d) (r_hourlyViewers d)))
    (DailyData.programs dayData).

(** Lines 278-328: the day of the row is looked up, or created, and
    written.  The day object is mutated in place by the source; here the
    updated record is put back under its key, which leaves its position in
    the map unchanged. *)
Definition writeRow (daysMap : Map DailyData.t) (d : rowData) : Map DailyData.t :=
  let daysMap :=
    if Map_has daysMap (r_dateString d) then daysMap
    else Map_set daysMap (r_dateString d)
           (newDay (r_dateString d) (r_dayOfWeek d) (r_totalDailyViewers d)) in
  match Map_get daysMap (r_dateString d) with
  | Some dayData => Map_set daysMap (r_dateString d) (writeHour dayData d)
  | None => daysMap
  end.

(** One turn of the loop over the data rows. *)
Definition processRow (cols : columns) (daysMap : Map DailyData.t) (r : option row)
    : Map DailyData.t :=
  match readRow cols r with
  | Some d => writeRow daysMap d
  | None => daysMap
  end.

(** [const [d, m, y] = date.split('-').map(Number)]; a missing part is
    [undefined], which every later use converts to [NaN]. *)
Definition dateParts (date : string) : number * number * number :=
  let parts := Number_of_string <$> String_split "-" date in
  (num_of_undef (parts !! 0%nat), num_of_undef (parts !! 1%nat),
   num_of_undef (parts !! 2%nat)).

(** The comparator handed to [sort], in both aggregations. *)
Definition compareDates (a b : DailyData.t) : number :=
  let '(aDay, aMonth, aYear) := dateParts (DailyData.date a) in
  let '(bDay, bMonth, bYear) := dateParts (DailyData.date b) in
  num_sub (Date_getTime aYear (num_sub aMonth (Num 1)) aDay)
          (Date_getTime bYear (num_sub bMonth (Num 1)) bDay).

(** The three arrays the hourly loops fill. *)
Record hourly : Type := mkHourly {
  h_average : Array number;
  h_max : Array number;
  h_total : Array number
}.

Definition hourly0 : hourly :=
  mkHourly (Array_fill 24 (Num 0)) (Array_fill 24 (Num 0)) (Array_fill 24 (Num 0)).

(** [arr[i] += v]; [undefined + v] is [NaN]. *)
Definition Array_add (arr : Array number) (i : nat) (v : number) : Array number :=
  Array_set arr i (num_add (num_of_undef (Array_get arr i)) v).

(** The body of [day.hourlyViewers.forEach((viewers, hour) => ...)] *)
Definition month_hourStep (st : hourly) (viewers : number) (hour : nat) : hourly :=
  let total := Array_add (h_total st) hour viewers in
  let average := Array_add (h_average st) hour viewers in
  let max :=
    Array_set (h_max st) hour
      (Math_max (num_of_undef (Array_get (h_max st) hour)) viewers) in
  mkHourly average max total.

(** [for (let i = 0; i < 24; i++) avg[i] = Math.round(avg[i] / n)] *)
Definition roundAverages (average : Array number) (n : nat) : Array number :=
  fold_left
    (fun avg i =>
       Array_set avg i
         (Math_round (num_div (num_of_undef (Array_get avg i)) (num_of_nat n))))
    (seq 0 24) average.

Definition month_hourly (days : list DailyData.t) : hourly :=
  let st :=
    fold_left
      (fun st day => Array_forEach month_hourStep (DailyData.hourlyViewers day) st)
      days hourly0 in
  let average :=
    if (0 <? length days)%nat then roundAverages (h_average st) (length days)
    else h_average st in
  mkHourly average (h_max st) (h_total st).

(** [days.reduce((max, day) => day.totalViewers > max.totalViewers ? day : max, ...)];
    of the accumulated object only [totalViewers] and [date] are read. *)
Definition peakDayStep (max : number * string) (day : DailyData.t) : number * string :=
  if num_gt (DailyData.totalViewers day) (fst max)
  then (DailyData.totalViewers day, DailyData.date day) else max.

Definition isEvening (hour : Z) : bool := (18 <=? hour)%Z && (hour <=? 23)%Z.

(** Lines 379-423 of [excelProcessor.ts]. *)
Definition month_peakHour (totalViewersPerHour : Array number) : Z :=
  let maxTotalViewers := Math_max_spread totalViewersPerHour in
  let peakHoursIndices :=
    Array_filter (fun index => negb (index =? -1)%Z)
      (Array_map
         (fun viewers index =>
            if num_seq viewers maxTotalViewers then Z.of_nat index else (-1)%Z)
         totalViewersPerHour) in
  let peakHourIndex :=
    if (0 <? length peakHoursIndices)%nat then
      let eveningPeakHours := List.filter isEvening peakHoursIndices in
      if (0 <? length eveningPeakHours)%nat
      then List.last eveningPeakHours 0%Z
      else List.last peakHoursIndices 0%Z
    else 0%Z in
  if (0 <=? peakHourIndex)%Z && (peakHourIndex <? 24)%Z then peakHourIndex else 0%Z.

Definition addAgeGroup (acc x : AgeGroupData) : AgeGroupData :=
  mkAgeGroupData (num_add (viewers13Plus acc) (viewers13Plus x))
                 (num_add (viewers50Plus acc) (viewers50Plus x))
                 (num_add (viewers65Plus acc) (viewers65Plus x)).

(** [acc[hour].viewers13Plus += x.viewers13Plus; ...]: reading a field of
    [acc[hour]] throws a [TypeError] when that slot is [undefined]. *)
Definition ageAccumulate (acc : Array AgeGroupData) (hour : nat) (x : AgeGroupData)
    : result (Array AgeGroupData) :=
  match Array_get acc hour with
  | Some cur => Ok (Array_set acc hour (addAgeGroup cur x))
  | None => Throw TypeError
  end.

(** The body of [day.ageGroups.forEach((hourData, hourIndex) => ...)]:
    the totals first, then the running sums of the averages. *)
Definition month_ageStep (st : result (Array AgeGroupData * Array AgeGroupData))
    (hourData : AgeGroupData) (hourIndex : nat)
    : result (Array AgeGroupData * Array AgeGroupData) :=
  '(total, average) ← st;
  total ← ageAccumulate total hourIndex hourData;
  average ← ageAccumulate average hourIndex hourData;
  Ok (total, average).

Definition roundAgeGroup (x : AgeGroupData) (n : nat) : AgeGroupData :=
  mkAgeGroupData (Math_round (num_div (viewers13Plus x) (num_of_nat n)))
                 (Math_round (num_div (viewers50Plus x) (num_of_nat n)))
                 (Math_round (num_div (viewers65Plus x) (num_of_nat n))).

(** [for (hour < 24) { average[hour].viewers13Plus = Math.round(... / n); ... }].
    The array holds its 24 initial objects, so no slot read here is
    [undefined]. *)
Definition roundAgeAverages (average : Array AgeGroupData) (n : nat)
    : Array AgeGroupData :=
  fold_left
    (fun avg hour =>
       match Array_get avg hour with
       | Some x => Array_set avg hour (roundAgeGroup x n)
       | None => avg
       end)
    (seq 0 24) average.

Definition month_ageGroups (days : list DailyData.t)
    : result (Array AgeGroupData * Array AgeGroupData) :=
  '(total, average) ←
    fold_left
      (fun st day =>
         match DailyData.ageGroups day with
         | Some groups => Array_forEach month_ageStep groups st
         | None => st
         end)
      days (Ok (Array_fill 24 zeroAgeGroup, Array_fill 24 zeroAgeGroup));
  Ok (total,
      if (0 <? length days)%nat then roundAgeAverages average (length days)
      else average).

Definition processViewerData (data : grid) (monthYear : string)
    : result ProcessedMonthData.t :=
  let headerRowIndex := findIndex isHeaderRow data in
  if (headerRowIndex =? -1)%Z
  then Throw (Error "Could not find header row in Excel file") else
  let dataStartRow := (headerRowIndex + 1)%Z in
  match data !! Z.to_nat headerRowIndex with
  | Some (Some headers) =>
      let cols := resolveColumns headers in
      let daysMap :=
        fold_left (processRow cols) (drop (Z.to_nat dataStartRow) data) [] in
      let days :=
        Array_sort compareDates
          (List.filter (fun day => num_gt (DailyData.totalViewers day) (Num 0))
             (Map_values daysMap)) in
      let hours := month_hourly days in
      let peakDay :=
        if (0 <? length days)%nat
        then fold_left peakDayStep days (Num 0, "") else (Num 0, "Geen data") in
      let validPeakHour := month_peakHour (h_total hours) in
      let totalViewers :=
        fold_left (fun sum day => num_add sum (DailyData.totalViewers day)) days (Num 0) in
      '(totalAgeGroups, averageAgeGroups) ← month_ageGroups days;
      Ok (ProcessedMonthData.mk monthYear days (h_average hours) (h_max hours)
            (h_total hours) (Some averageAgeGroups) (Some totalAgeGroups)
            (snd peakDay) validPeakHour totalViewers)
  | _ => Throw (Error "Header row is invalid or empty")
  end.

(** *** [dataAggregator.ts] *)

(** The body of [day.hourlyViewers.forEach((viewers, hour) => ...)] *)
Definition agg_hourStep (st : hourly) (viewers : number) (hour : nat) : hourly :=
  let total := Array_add (h_total st) hour viewers in
  let average := Array_add (h_average st) hour viewers in
  let max :=
    Array_set (h_max st) hour
      (Math_max (num_of_undef (Array_get (h_max st) hour)) viewers) in
  mkHourly average max total.

Definition agg_hourly (allDays : list DailyData.t) : hourly :=
  let st :=
    fold_left
      (fun st day => Array_forEach agg_hourStep (DailyData.hourlyViewers day) st)
      allDays hourly0 in
  let average :=
    if (0 <? length allDays)%nat then roundAverages (h_average st) (length allDays)
    else h_average st in
  mkHourly average (h_max st) (h_total st).

(** Lines 80-119 of [dataAggregator.ts]. *)
Definition agg_peakHour (totalViewersPerHour : Array number) : Z :=
  let maxTotalViewers := Math_max_spread totalViewersPerHour in
  let peakHoursIndices :=
    Array_filter (fun index => negb (index =? -1)%Z)
      (Array_map
         (fun viewers index =>
            if num_seq viewers maxTotalViewers then Z.of_nat index else (-1)%Z)
         totalViewersPerHour) in
  let peakHourIndex :=
    if (0 <? length peakHoursIndices)%nat then
      let eveningPeakHours := List.filter isEvening peakHoursIndices in
      if (0 <? length eveningPeakHours)%nat
      then List.last eveningPeakHours 0%Z
      else List.last peakHoursIndices 0%Z
    else 0%Z in
  let validPeakHour :=
    if (0 <=? peakHourIndex)%Z && (peakHourIndex <? 24)%Z then peakHourIndex else 0%Z in
  validPeakHour.

(** What the loop over the input months accumulates for the age groups. *)
Record ageState : Type := mkAgeState {
  hasAgeData : bool;
  s_totalAgeGroups : Array AgeGroupData;
  s_averageAgeGroups : Array AgeGroupData
}.

Definition scaleAgeGroup (x : AgeGroupData) (weight : number) : AgeGroupData :=
  mkAgeGroupData (num_mul (viewers13Plus x) weight)
                 (num_mul (viewers50Plus x) weight)
                 (num_mul (viewers65Plus x) weight).

(** The body of [monthsData.forEach(monthData => ...)] of lines 162-186. *)
Definition agg_ageStep (st : result ageState) (monthData : ProcessedMonthData.t)
    : result ageState :=
  st ← st;
  st ←
    match ProcessedMonthData.totalAgeGroups monthData with
    | Some groups =>
        total ←
          Array_forEach
            (fun acc hourData hour => acc ← acc; ageAccumulate acc hour hourData)
            groups (Ok (s_totalAgeGroups st));
        Ok (mkAgeState true total (s_averageAgeGroups st))
    | None => Ok st
    end;
  match ProcessedMonthData.averageAgeGroups monthData with
  | Some groups =>
      let weight := num_of_nat (length (ProcessedMonthData.days monthData)) in
      average ←
        Array_forEach
          (fun acc hourData hour =>
             acc ← acc; ageAccumulate acc hour (scaleAgeGroup hourData weight))
          groups (Ok (s_averageAgeGroups st));
      Ok (mkAgeState true (s_totalAgeGroups st) average)
  | None => Ok st
  end.

Definition agg_ageGroups (monthsData : list ProcessedMonthData.t) (dayCount : nat)
    : result ageState :=
  st ← fold_left agg_ageStep monthsData
         (Ok (mkAgeState false (Array_fill 24 zeroAgeGroup) (Array_fill 24 zeroAgeGroup)));
  Ok (if hasAgeData st && (0 <? dayCount)%nat
      then mkAgeState (hasAgeData st) (s_totalAgeGroups st)
             (roundAgeAverages (s_averageAgeGroups st) dayCount)
      else st).

(** [monthsData] is [None] when the argument is missing. *)
Definition aggregateMonthsData (monthsData : option (list ProcessedMonthData.t))
    : result ProcessedMonthData.t :=
  match monthsData with
  | None | Some [] => Throw (Error "No data provided for aggregation")
  | Some [only] => Ok only
  | Some ((first :: _) as monthsData) =>
      let allDaysMap :=
        fold_left
          (fun allDaysMap monthData =>
             fold_left (fun allDaysMap day => Map_set allDaysMap (DailyData.date day) day)
               (ProcessedMonthData.days monthData) allDaysMap)
          monthsData [] in
      let allDays := Array_sort compareDates (Map_values allDaysMap) in
      let hours := agg_hourly allDays in
      let peakDay := fold_left peakDayStep allDays (Num 0, "") in
      let validPeakHour := agg_peakHour (h_total hours) in
      let totalViewers :=
        fold_left (fun sum day => num_add sum (DailyData.totalViewers day))
          allDays (Num 0) in
      let firstMonthYear := ProcessedMonthData.monthYear first in
      let lastMonthYear := ProcessedMonthData.monthYear (List.last monthsData first) in
      let timespan :=
        if (1 <? length monthsData)%nat
        then firstMonthYear +:+ " - " +:+ lastMonthYear else firstMonthYear in
      ages ← agg_ageGroups monthsData (length allDays);
      Ok (ProcessedMonthData.mk ("Samenvatting (" +:+ timespan +:+ ")") allDays
            (h_average hours) (h_max hours) (h_total hours)
            (if hasAgeData ages then Some (s_averageAgeGroups ages) else None)
            (if hasAgeData ages then Some (s_totalAgeGroups ages) else None)
            (snd peakDay) validPeakHour totalViewers)
  end.

(** *** [csvProcessor.ts]: end-time back-fill *)

Definition set_endTime (p : ProgramData.t) (endTime : string) : ProgramData.t :=
  ProgramData.mk (ProgramData.id p) (ProgramData.title p) (ProgramData.startTime p)
    (Some endTime) (ProgramData.duration p) (ProgramData.day p)
    (ProgramData.dayOfWeek p) (ProgramData.category p) (ProgramData.isRepeat p)
    (ProgramData.notes p) (ProgramData.sequence p) (ProgramData.originalTime p)
    (ProgramData.timePoint p) (ProgramData.week p).

Definition set_duration (p : ProgramData.t) (duration : number) : ProgramData.t :=
  ProgramData.mk (ProgramData.id p) (ProgramData.title p) (ProgramData.startTime p)
    (ProgramData.endTime p) (Some duration) (ProgramData.day p)
    (ProgramData.dayOfWeek p) (ProgramData.category p) (ProgramData.isRepeat p)
    (ProgramData.notes p) (ProgramData.sequence p) (ProgramData.originalTime p)
    (ProgramData.timePoint p) (ProgramData.week p).

Definition set_sequence_notes (p : ProgramData.t) (sequence : number) (notes : string)
    : ProgramData.t :=
  ProgramData.mk (ProgramData.id p) (ProgramData.title p) (ProgramData.startTime p)
    (ProgramData.endTime p) (ProgramData.duration p) (ProgramData.day p)
    (ProgramData.dayOfWeek p) (ProgramData.category p) (ProgramData.isRepeat p)
    (Some notes) (Some sequence) (ProgramData.originalTime p)
    (ProgramData.timePoint p) (ProgramData.week p).

(** [x || 0] for an optional number *)
Definition num_or_zero (x : option number) : number :=
  match x with
  | Some n => if num_truthy n then n else Num 0
  | None => Num 0
  end.

(** Truthiness of an optional number and of an optional string *)
Definition opt_num_truthy (x : option number) : bool :=
  match x with Some n => num_truthy n | None => false end.

Definition opt_string_truthy (x : option string) : bool :=
  match x with Some s => negb (String.eqb s "") | None => false end.

(** [a === b] for optional numbers: [undefined === undefined] holds *)
Definition opt_num_seq (a b : option number) : bool :=
  match a, b with
  | None, None => true
  | Some x, Some y => num_seq x y
  | _, _ => false
  end.

(** [const [hour, minute] = time.split(':').map(Number)] *)
Definition splitTime (time : string) : option number * option number :=
  let parts := Number_of_string <$> String_split ":" time in
  (parts !! 0%nat, parts !! 1%nat).

Definition formatTime (hour minute : number) : string :=
  String_padStart 2 "0" (Number_toString hour) +:+ ":" +:+
  String_padStart 2 "0" (Number_toString minute).

(** The key [`${week}-${time}`] of a program's slot *)
Definition slotKey (p : ProgramData.t) : string :=
  Number_toString (num_or_zero (ProgramData.week p)) +:+ "-" +:+ ProgramData.startTime p.

(** [weekTimeSlotMap]: the groups hold the programs themselves in the
    source; here a program is named by its position in [programs]. *)
Definition groupBySlot (programs : list ProgramData.t) : Map (list nat) :=
  fold_left
    (fun weekTimeSlotMap '(i, program) =>
       let key := slotKey program in
       let weekTimeSlotMap :=
         if Map_has weekTimeSlotMap key then weekTimeSlotMap
         else Map_set weekTimeSlotMap key [] in
       match Map_get weekTimeSlotMap key with
       | Some group => Map_set weekTimeSlotMap key (group ++ [i])
       | None => weekTimeSlotMap
       end)
    (imap (fun i p => (i, p)) programs) [].

(** The body of [timePrograms.forEach((program, index) => ...)] *)
Definition numberProgram (count : nat) (index : nat) (program : ProgramData.t)
    : ProgramData.t :=
  let notes := default "" (ProgramData.notes program) in
  let notes := if String.eqb notes "" then notes else notes +:+ ", " in
  let notes :=
    notes +:+ "Multiple programs (" +:+ Number_toString (num_of_nat (index + 1))
    +:+ "/" +:+ Number_toString (num_of_nat count) +:+ ")" in
  set_sequence_notes program (num_of_nat (index + 1)) notes.

Definition assignSequences (programs : list ProgramData.t) : list ProgramData.t :=
  fold_left
    (fun programs '(_, timePrograms) =>
       if (1 <? length timePrograms)%nat then
         fold_left
           (fun programs '(index, pos) =>
              alter (numberProgram (length timePrograms) index) pos programs)
           (imap (fun index pos => (index, pos)) timePrograms) programs
       else programs)
    (groupBySlot programs) programs.

Definition comparePrograms (a b : ProgramData.t) : number :=
  let weekA := num_or_zero (ProgramData.week a) in
  let weekB := num_or_zero (ProgramData.week b) in
  if negb (num_seq weekA weekB) then num_sub weekA weekB else
  let timeComparison :=
    String_localeCompare (ProgramData.startTime a) (ProgramData.startTime b) in
  if negb (num_seq timeComparison (Num 0)) then timeComparison else
  num_sub (num_or_zero (ProgramData.sequence a)) (num_or_zero (ProgramData.sequence b)).

(** The test of line 814: the current program is followed by the next
    program of its own slot. *)
Definition sameSlotSibling (currentProgram nextProgram : ProgramData.t) : bool :=
  opt_num_truthy (ProgramData.sequence currentProgram)
  && String.eqb (ProgramData.startTime currentProgram) (ProgramData.startTime nextProgram)
  && match ProgramData.sequence currentProgram, ProgramData.sequence nextProgram with
     | Some s, Some s' => num_seq (num_add s (Num 1)) s'
     | _, _ => false
     end
  && opt_num_seq (ProgramData.week currentProgram) (ProgramData.week nextProgram).

(** Lines 819-833: the default duration of a same-slot sibling. *)
Definition siblingDefault (currentProgram : ProgramData.t) : ProgramData.t :=
  let duration := Num 15 in
  let '(startHour, startMinute) := splitTime (ProgramData.startTime currentProgram) in
  let endMinute := num_add (num_of_undef startMinute) duration in
  let endHour := num_of_undef startHour in
  let '(endHour, endMinute) :=
    if num_ge endMinute (Num 60)
    then (num_rem (num_add endHour (Math_floor (num_div endMinute (Num 60)))) (Num 24),
          num_rem endMinute (Num 60))
    else (endHour, endMinute) in
  set_endTime (set_duration currentProgram duration) (formatTime endHour endMinute).

(** Lines 836-851: the program ends when the next one starts. *)
Definition endAtNext (currentProgram nextProgram : ProgramData.t) : ProgramData.t :=
  let endTime := ProgramData.startTime nextProgram in
  let currentProgram := set_endTime currentProgram endTime in
  if negb (opt_num_truthy (ProgramData.duration currentProgram))
     && negb (String.eqb (ProgramData.startTime currentProgram) "")
     && negb (String.eqb endTime "")
  then
    let '(startHour, startMinute) := splitTime (ProgramData.startTime currentProgram) in
    let '(endHour, endMinute) := splitTime endTime in
    let durationMinutes :=
      num_add
        (num_mul (num_sub (num_of_undef endHour) (num_of_undef startHour)) (Num 60))
        (num_sub (num_of_undef endMinute) (num_of_undef startMinute)) in
    let durationMinutes :=
      if num_lt durationMinutes (Num 0)
      then num_add durationMinutes (Num (24 * 60)) else durationMinutes in
    set_duration currentProgram durationMinutes
  else currentProgram.

(** One turn of [for (let i = 0; i < programs.length - 1; i++)] *)
Definition backfillStep (programs : list ProgramData.t) (i : nat) : list ProgramData.t :=
  match programs !! i, programs !! S i with
  | Some currentProgram, Some nextProgram =>
      if sameSlotSibling currentProgram nextProgram then
        if negb (opt_num_truthy (ProgramData.duration currentProgram))
        then <[i := siblingDefault currentProgram]> programs
        else programs
      else <[i := endAtNext currentProgram nextProgram]> programs
  | _, _ => programs
  end.

(** Lines 856-876: the last program of the day.  [startMinute.toString()]
    in the default branch throws a [TypeError] when the start time has no
    part after a colon. *)
Definition finishLast (lastProgram : ProgramData.t) : result ProgramData.t :=
  let hasDuration := opt_num_truthy (ProgramData.duration lastProgram) in
  let hasEndTime := opt_string_truthy (ProgramData.endTime lastProgram) in
  if hasDuration && negb hasEndTime then
    let '(startHour, startMinute) := splitTime (ProgramData.startTime lastProgram) in
    let endMinute :=
      num_add (num_of_undef startMinute) (num_of_undef (ProgramData.duration lastProgram)) in
    let endHour :=
      num_add (num_of_undef startHour) (Math_floor (num_div endMinute (Num 60))) in
    let endMinute := num_rem endMinute (Num 60) in
    let endHour := num_rem endHour (Num 24) in
    Ok (set_endTime lastProgram (formatTime endHour endMinute))
  else if negb hasDuration && negb hasEndTime then
    let lastProgram := set_duration lastProgram (Num 60) in
    let '(startHour, startMinute) := splitTime (ProgramData.startTime lastProgram) in
    let endHour := num_rem (num_add (num_of_undef startHour) (Num 1)) (Num 24) in
    match startMinute with
    | Some startMinute =>
        Ok (set_endTime lastProgram (formatTime endHour startMinute))
    | None => Throw TypeError
    end
  else Ok lastProgram.

(** The callback of [data.days.forEach((programs, date) => ...)] *)
Definition calculateEndTimes_day (programs : list ProgramData.t)
    : result (list ProgramData.t) :=
  let programs := assignSequences programs in
  let programs := Array_sort comparePrograms programs in
  let programs := fold_left backfillStep (seq 0 (length programs - 1)) programs in
  match List.last (Some <$> programs) None with
  | Some lastProgram =>
      lastProgram ← finishLast lastProgram;
      Ok (<[(length programs - 1)%nat := lastProgram]> programs)
  | None => Ok programs
  end.

(** The program lists are mutated in place; the map keeps its keys and
    their order.  The first exception ends the loop. *)
Definition calculateEndTimes (data : ScheduleData.t) : result ScheduleData.t :=
  days ←
    fold_left
      (fun done '(date, programs) =>
         done ← done;
         programs ← calculateEndTimes_day programs;
         Ok (done ++ [(date, programs)]))
      (ScheduleData.days data) (Ok []);
  Ok (ScheduleData.mk (ScheduleData.weekNumber data) (ScheduleData.year data) days
        (ScheduleData.programs data) (ScheduleData.weeks data)).

(** *** [storage.ts]: persistence of the schedule

    [localStorage] maps keys to texts; a text is represented by the JSON
    document it spells, so [JSON.stringify] is the construction of that
    document. *)

Definition VIEWER_DATA_KEY : string := "kijkcijfers_data".
Definition PROGRAM_DATA_KEY : string := "programmering_data".

Definition localStorage_setItem (localStorage : Storage) (key : string) (text : json)
    : result Storage :=
  if localStorage_accepts localStorage key text
  then Ok (Map_set localStorage key text)
  else Throw (Error "QuotaExceededError").

(** [JSON.stringify] writes [null] for [NaN] and leaves out the
    properties that are [undefined]. *)
Definition json_of_number (n : number) : json :=
  match n with
  | Num q => JNumber q
  | NaN => JNull
  end.

Definition member {A} (key : string) (f : A -> json) (x : option A)
    : option (string * json) :=
  (fun v => (key, f v)) <$> x.

Definition program_to_json (p : ProgramData.t) : json :=
  JObject
    (omap id
       [ member "id" JString (ProgramData.id p);
         Some ("title", JString (ProgramData.title p));
         Some ("startTime", JString (ProgramData.startTime p));
         member "endTime" JString (ProgramData.endTime p);
         member "duration" json_of_number (ProgramData.duration p);
         member "day" JString (ProgramData.day p);
         member "dayOfWeek" JString (ProgramData.dayOfWeek p);
         member "category" JString (ProgramData.category p);
         member "isRepeat" JBool (ProgramData.isRepeat p);
         member "notes" JString (ProgramData.notes p);
         member "sequence" json_of_number (ProgramData.sequence p);
         member "originalTime" JString (ProgramData.originalTime p);
         member "timePoint" JString (ProgramData.timePoint p);
         member "week" json_of_number (ProgramData.week p) ]).

(** The object [days.entries().reduce((obj, [key, value]) => { obj[key] = value; ... }, {})]
    of [saveProgramData]. *)
Definition daysObject (days : Map (list ProgramData.t)) : Object (list ProgramData.t) :=
  fold_left (fun obj kv => Object_set obj (fst kv) (snd kv)) days [].

(** The object [serializable] of [saveProgramData], as [JSON.stringify]
    writes it. *)
Definition serializable (data : ScheduleData.t) : json :=
  JObject
    [ ("weekNumber", json_of_number (ScheduleData.weekNumber data));
      ("year", json_of_number (ScheduleData.year data));
      ("days",
       JObject
         (List.map (fun kv => (fst kv, JArray (List.map program_to_json (snd kv))))
            (daysObject (ScheduleData.days data)))) ].

(** An exception of [setItem] is caught and logged; the storage is then
    left as it was. *)
Definition saveProgramData (data : ScheduleData.t) (localStorage : Storage) : Storage :=
  match localStorage_setItem localStorage PROGRAM_DATA_KEY (serializable data) with
  | Ok localStorage => localStorage
  | Throw _ => localStorage
  end.

(** The parsed values are used at the types the source casts them to.  A
    stored document of another shape, which only a foreign writer can have
    left under the key, is read field by field, with [undefined] for every
    field that does not fit. *)
Definition json_string (o : option json) : option string :=
  match o with Some (JString s) => Some s | _ => None end.

Definition json_number (o : option json) : option number :=
  match o with Some (JNumber q) => Some (Num q) | _ => None end.

Definition json_bool (o : option json) : option bool :=
  match o with Some (JBool b) => Some b | _ => None end.

Definition program_of_json (j : json) : ProgramData.t :=
  ProgramData.mk
    (json_string (json_get j "id"))
    (default "" (json_string (json_get j "title")))
    (default "" (json_string (json_get j "startTime")))
    (json_string (json_get j "endTime"))
    (json_number (json_get j "duration"))
    (json_string (json_get j "day"))
    (json_string (json_get j "dayOfWeek"))
    (json_string (json_get j "category"))
    (json_bool (json_get j "isRepeat"))
    (json_string (json_get j "notes"))
    (json_number (json_get j "sequence"))
    (json_string (json_get j "originalTime"))
    (json_string (json_get j "timePoint"))
    (json_number (json_get j "week")).

Definition programs_of_json (j : json) : list ProgramData.t :=
  match j with
  | JArray items => program_of_json <$> items
  | _ => []
  end.

(** [Object.entries(value)]; [undefined] and [null] make it throw. *)
Definition Object_entries (value : option json) : result (list (string * json)) :=
  match value with
  | None | Some JNull => Throw TypeError
  | Some (JObject members) => Ok members
  | Some (JArray items) => Ok (imap (fun i item => (pretty i, item)) items)
  | Some (JString s) =>
      Ok (imap (fun i c => (pretty i, JString (String c EmptyString)))
            (list_ascii_of_string s))
  | Some _ => Ok []
  end.

(** Every exception is caught and answered by [null], here [None]. *)
Definition loadProgramData (localStorage : Storage) : option ScheduleData.t :=
  match Map_get localStorage PROGRAM_DATA_KEY with
  | None => None
  | Some serializedData =>
      match JSON_parse serializedData with
      | JNull => None
      | parsed =>
          match Object_entries (json_get parsed "days") with
          | Throw _ => None
          | Ok entries =>
              let days :=
                fold_left
                  (fun days kv => Map_set days (fst kv) (programs_of_json (snd kv)))
                  entries [] in
              Some (ScheduleData.mk
                      (default NaN (json_number (json_get parsed "weekNumber")))
                      (default NaN (json_number (json_get parsed "year")))
                      days None None)
          end
      end
  end.

End Pipeline.

(** ** A reference host

    The built-ins of an engine that runs in UTC, restricted to what the
    examples below exercise: [Number] reads the empty string and decimal
    digit strings, [toString] prints [NaN] and the integers as JavaScript
    does (a fraction, which no example prints, is shown as a quotient),
    [localeCompare] compares code units, [sort] is the stable insertion
    sort and the storage has no quota. *)

Definition ref_Number_of_string (s : string) : number :=
  if String.eqb s "" then Num 0
  else if all_digits s then num_of_Z (parseInt s) else NaN.

Definition ref_Number_toString (n : number) : string :=
  match n with
  | NaN => "NaN"
  | Num q =>
      let r := Qred q in
      if (Z.pos (Qden r) =? 1)%Z then pretty (Qnum r)
      else pretty (Qnum r) +:+ "/" +:+ pretty (Z.pos (Qden r))
  end.

(** The day number (days since 1 January 1970) of a civil date, and back. *)
Definition days_from_civil (y m d : Z) : Z :=
  let y' := if (m <=? 2)%Z then (y - 1)%Z else y in
  let era := (y' / 400)%Z in
  let yoe := (y' - era * 400)%Z in
  let doy := ((153 * (m + (if (2 <? m)%Z then -3 else 9)) + 2) / 5 + d - 1)%Z in
  let doe := (yoe * 365 + yoe / 4 - yoe / 100 + doy)%Z in
  (era * 146097 + doe - 719468)%Z.

Definition civil_from_days (z : Z) : Z * Z * Z :=
  let z := (z + 719468)%Z in
  let era := (z / 146097)%Z in
  let doe := (z - era * 146097)%Z in
  let yoe := ((doe - doe / 1460 + doe / 36524 - doe / 146096) / 365)%Z in
  let doy := (doe - (365 * yoe + yoe / 4 - yoe / 100))%Z in
  let mp := ((5 * doy + 2) / 153)%Z in
  let d := (doy - (153 * mp + 2) / 5 + 1)%Z in
  let m := if (mp <? 10)%Z then (mp + 3)%Z else (mp - 9)%Z in
  let y := (yoe + era * 400 + (if (m <=? 2)%Z then 1 else 0))%Z in
  (y, m, d).

Definition ref_civil (ms : number) : option (Z * Z * Z) :=
  match ms with
  | Num q => Some (civil_from_days (Qfloor (q / 86400000)))
  | NaN => None
  end.

Definition ref_Date_getDate (ms : number) : number :=
  match ref_civil ms with Some (_, _, d) => num_of_Z d | None => NaN end.

Definition ref_Date_getMonth (ms : number) : number :=
  match ref_civil ms with Some (_, m, _) => num_of_Z (m - 1) | None => NaN end.

Definition ref_Date_getFullYear (ms : number) : number :=
  match ref_civil ms with Some (y, _, _) => num_of_Z y | None => NaN end.

Definition ref_Date_getTime (year month day : number) : number :=
  match year, month, day with
  | Num y, Num m, Num d =>
      let y := Qtrunc y in
      let m := Qtrunc m in
      let d := Qtrunc d in
      let y := if (0 <=? y)%Z && (y <=? 99)%Z then (1900 + y)%Z else y in
      num_of_Z ((days_from_civil (y + m / 12) (m mod 12 + 1) 1 + d - 1) * 86400000)
  | _, _, _ => NaN
  end.

Definition ref_localeCompare (a b : string) : number :=
  match String.compare a b with
  | Lt => Num (-1)
  | Eq => Num 0
  | Gt => Num 1
  end.

Fixpoint ref_insert {A} (cmp : A -> A -> number) (x : A) (l : list A) : list A :=
  match l with
  | [] => [x]
  | y :: rest =>
      if num_gt (cmp x y) (Num 0) then y :: ref_insert cmp x rest else x :: y :: rest
  end.

Definition ref_sort (A : Type) (cmp : A -> A -> number) (l : list A) : list A :=
  fold_right (ref_insert cmp) [] l.

(** ** Vocabulary of the specification *)

(** The sum of a list of numbers. *)
Definition Sum (l : list number) : number := foldr num_add (Num 0) l.












(** The age-group arrays of a summary fit the 24 hours of the data model. *)
Definition agesFit (s : ProcessedMonthData.t) : Prop :=
  (forall groups, ProcessedMonthData.totalAgeGroups s = Some groups ->
     (length groups <= 24)%nat)
  /\ (forall groups, ProcessedMonthData.averageAgeGroups s = Some groups ->
        (length groups <= 24)%nat).

Section ScheduleVocabulary.
Context {host : Host}.



(** What the loop over the neighbours leaves in the place of [current]
    when [next] follows it. *)
Definition backfilled (current next : ProgramData.t) : ProgramData.t :=
  if sameSlotSibling current next then
    if negb (opt_num_truthy (ProgramData.duration current))
    then siblingDefault current else current
  else endAtNext current next.

End ScheduleVocabulary.

(** The start time of a program has a part after a colon, as every time
    of the form [HH:MM] has. *)
Definition hasMinutes (p : ProgramData.t) : Prop :=
  String_includes (ProgramData.startTime p) ":" = true.



(** ** Vocabulary of the proofs *)

Section ProofVocabulary.
Context {host : Host}.


(** The days the row loop leaves behind, before they are sorted. *)
Definition keptDays (headers : row) (rows : grid) : list DailyData.t :=
  List.filter (fun day => num_gt (DailyData.totalViewers day) (Num 0))
    (Map_values (fold_left (processRow (resolveColumns headers)) rows [])).


(** The union of the days of the input summaries, keyed by date: a later
    day replaces an earlier one of the same date. *)
Definition unionDays (monthsData : list ProcessedMonthData.t) : Map DailyData.t :=
  fold_left
    (fun allDaysMap monthData =>
       fold_left (fun allDaysMap day => Map_set allDaysMap (DailyData.date day) day)
         (ProcessedMonthData.days monthData) allDaysMap)
    monthsData [].

(** All of the first 24 slots are filled. *)
Definition full24 {A} (acc : Array A) : Prop :=
  forall h, (h < 24)%nat -> is_Some (Array_get acc h).

(** The age groups of a day fit the 24 hours. *)
Definition agesFitDay (day : DailyData.t) : Prop :=
  forall groups, DailyData.ageGroups day = Some groups -> (length groups <= 24)%nat.

(** The age groups of a day built by the row loop: absent, or 24 entries. *)
Definition ages24 (day : DailyData.t) : Prop :=
  forall groups, DailyData.ageGroups day = Some groups -> length groups = 24%nat.

(** The day [date] of the map holds [viewers] and [percent] in slot [h]. *)
Definition slot (daysMap : Map DailyData.t) (date : string) (h : nat)
    (viewers percent : number) : Prop :=
  exists day, Map_get daysMap date = Some day
    /\ Array_get (DailyData.hourlyViewers day) h = Some viewers
    /\ Array_get (DailyData.hourlyPercentages day) h = Some percent.

Definition keyedByDate (daysMap : Map DailyData.t) : Prop :=
  NoDup (Map_keys daysMap) /\ forall kv, kv ∈ daysMap -> DailyData.date kv.2 = kv.1.




End ProofVocabulary.

(** ** Inputs of the examples *)

(** A report with a title line, the header row and four data rows: two
    rows for the same day and hour, a row of the hour 26 and a row whose
    date is an Excel serial number. *)
Definition example_headers : row :=
  [CString "Datum"; CString "Dag"; CString "Tijdvak"; CString "Kdh%"; CString "TOTAL";
   CString "Dagcijfers"].

Definition example_earlier : option row :=
  Some [CString "01-11-2024"; CString "vr"; CString "20:00-20:59"; CNumber (Num 0);
        CNumber (Num (5 # 2)); CNumber (Num 1000)].

Definition example_later : option row :=
  Some [CString "01-11-2024"; CString "vr"; CString "20:00-20:59"; CNumber (Num 0);
        CNumber (Num (1 # 10)); CNumber (Num 1000)].

Definition example_rest : grid :=
  [ Some [CString "02-11-2024"; CString "za"; CString "26-00"; CNumber (Num 0);
          CNumber (Num (1 # 2)); CNumber (Num 500)];
    Some [CNumber (Num 45597); CString "za"; CString "11:00"; CNumber (Num 0);
          CNumber (Num (1 # 2)); CNumber (Num 300)] ].

Definition example_grid : grid :=
  [Some [CString "rapport"]] ++ Some example_headers
    :: [] ++ example_earlier :: [] ++ example_later :: example_rest.


Definition december_grid : grid :=
  [ Some example_headers;
    Some [CString "01-12-2024"; CString "zo"; CString "21:00-21:59"; CNumber (Num 0);
          CNumber (Num (1 # 5)); CNumber (Num 1000)] ].

(** Three programs of one day, and a schedule that holds them. *)
Definition example_program (startTime : string) : ProgramData.t :=
  ProgramData.mk None "Journaal" startTime None None None None None None None None None
    None None.

Definition example_programs : list ProgramData.t :=
  [example_program "20:00"; example_program "20:30"; example_program "21:15"].

Definition example_schedule : ScheduleData.t :=
  ScheduleData.mk (Num 44) (Num 2024)
    [("02-11-2024", example_programs); ("01-11-2024", [example_program "19:00"])]
    None None.


(** Two summaries of a single day each, with the viewers of the day in
    one evening hour. *)
Definition november_viewers (h : nat) : number :=
  if (h =? 20)%nat then Num 100 else Num 0.

Definition december_viewers (h : nat) : number :=
  if (h =? 21)%nat then Num 205 else Num 0.

Definition example_day (date : string) (viewers : nat -> number) : DailyData.t :=
  DailyData.mk date None (viewers 20%nat)
    ((fun h => Some (viewers h)) <$> seq 0 24) (Array_fill 24 (Num 0)) None None.

Definition november_day : DailyData.t := example_day "01-11-2024" november_viewers.
Definition december_day : DailyData.t := example_day "01-12-2024" december_viewers.

Definition example_period (label : string) (day : DailyData.t) : ProcessedMonthData.t :=
  ProcessedMonthData.mk label [day] (DailyData.hourlyViewers day)
    (DailyData.hourlyViewers day) (DailyData.hourlyViewers day) None None
    (DailyData.date day) 20 (DailyData.totalViewers day).

Definition november : ProcessedMonthData.t := example_period "November 2024" november_day.
Definition december : ProcessedMonthData.t := example_period "December 2024" december_day.

(** A row whose time slot is not one of the recognised shapes. *)
Definition unreadable_row : option row :=
  Some [CString "01-11-2024"; CString "vr"; CString "avond"; CNumber (Num 0);
        CNumber (Num (1 # 2)); CNumber (Num 1000)].

(** ** Further functions of the sources *)

Section FurtherFunctions.
Context {host : Host}.

(** *** [storage.ts]: the viewer data *)

(** [JSON.stringify] of an array writes [null] for a hole. *)
Definition json_of_array {A} (f : A -> json) (arr : Array A) : json :=
  JArray (List.map (fun slot => match slot with Some v => f v | None => JNull end) arr).

Definition ageGroup_to_json (g : AgeGroupData) : json :=
  JObject
    [ ("viewers13Plus", json_of_number (viewers13Plus g));
      ("viewers50Plus", json_of_number (viewers50Plus g));
      ("viewers65Plus", json_of_number (viewers65Plus g)) ].

(** The properties are written in the order in which the objects get
    them: the order of the object literals of [processViewerData], with
    [ageGroups] and [programs] added afterwards. *)
Definition day_to_json (day : DailyData.t) : json :=
  JObject
    (omap id
       [ Some ("date", JString (DailyData.date day));
         member "dayOfWeek" JString (DailyData.dayOfWeek day);
         Some ("totalViewers", json_of_number (DailyData.totalViewers day));
         Some ("hourlyViewers", json_of_array json_of_number (DailyData.hourlyViewers day));
         Some ("hourlyPercentages",
               json_of_array json_of_number (DailyData.hourlyPercentages day));
         member "ageGroups" (json_of_array ageGroup_to_json) (DailyData.ageGroups day);
         member "programs" (fun programs => JArray (List.map program_to_json programs))
           (DailyData.programs day) ]).

Definition month_to_json (month : ProcessedMonthData.t) : json :=
  JObject
    (omap id
       [ Some ("monthYear", JString (ProcessedMonthData.monthYear month));
         Some ("days", JArray (List.map day_to_json (ProcessedMonthData.days month)));
         Some ("averageHourlyViewers",
               json_of_array json_of_number (ProcessedMonthData.averageHourlyViewers month));
         Some ("maxViewersPerHour",
               json_of_array json_of_number (ProcessedMonthData.maxViewersPerHour month));
         Some ("totalViewersPerHour",
               json_of_array json_of_number (ProcessedMonthData.totalViewersPerHour month));
         member "averageAgeGroups" (json_of_array ageGroup_to_json)
           (ProcessedMonthData.averageAgeGroups month);
         member "totalAgeGroups" (json_of_array ageGroup_to_json)
           (ProcessedMonthData.totalAgeGroups month);
         Some ("peakDay", JString (ProcessedMonthData.peakDay month));
         Some ("peakHour", JNumber (inject_Z (ProcessedMonthData.peakHour month)));
         Some ("totalViewers", json_of_number (ProcessedMonthData.totalViewers month)) ]).

(** Lines 10-18.  An exception of [setItem] is caught and logged. *)
Definition saveProcessedData (data : list ProcessedMonthData.t) (localStorage : Storage)
    : Storage :=
  match localStorage_setItem localStorage VIEWER_DATA_KEY
          (JArray (List.map month_to_json data)) with
  | Ok localStorage => localStorage
  | Throw _ => localStorage
  end.

(** Lines 23-37.  The parsed value is returned as it is; for the value
    [null] the read of [data.length] throws, and the exception is answered
    by the empty array. *)
Definition loadProcessedData (localStorage : Storage) : json :=
  match Map_get localStorage VIEWER_DATA_KEY with
  | None => JArray []
  | Some serializedData =>
      match JSON_parse serializedData with
      | JNull => JArray []
      | data => data
      end
  end.

(** [localStorage.removeItem(key)] *)
Fixpoint localStorage_removeItem (localStorage : Storage) (key : string) : Storage :=
  match localStorage with
  | [] => []
  | (k, text) :: rest =>
      if String.eqb k key then localStorage_removeItem rest key
      else (k, text) :: localStorage_removeItem rest key
  end.

(** Lines 42-50. *)
Definition clearProcessedData (localStorage : Storage) : Storage :=
  localStorage_removeItem (localStorage_removeItem localStorage VIEWER_DATA_KEY)
    PROGRAM_DATA_KEY.

(** *** [csvProcessor.ts]: the cells of a line

    A string is a sequence of code units below 256 here.  Among these,
    the white space that [trim] removes and that [\s] matches is TAB, LF,
    VT, FF, CR, the space and the no-break space. *)
Definition is_whitespace (c : ascii) : bool :=
  let n := nat_of_ascii c in
  ((9 <=? n)%nat && (n <=? 13)%nat) || (n =? 32)%nat || (n =? 160)%nat.

Fixpoint String_trimStart (s : string) : string :=
  match s with
  | String c rest => if is_whitespace c then String_trimStart rest else s
  | EmptyString => EmptyString
  end.

Fixpoint String_trimEnd (s : string) : string :=
  match s with
  | String c rest =>
      match String_trimEnd rest with
      | EmptyString => if is_whitespace c then EmptyString else String c EmptyString
      | rest => String c rest
      end
  | EmptyString => EmptyString
  end.

(** [s.trim()] *)
Definition String_trim (s : string) : string := String_trimEnd (String_trimStart s).

(** The double quote. *)
Definition quote : ascii := "034"%char.

(** Lines 567-589: the loop over the characters of [line], from the
    character at hand on. *)
Fixpoint parseCsvRow_from (line : string) (cell : string) (inQuotes : bool)
    (result : list string) : list string :=
  match line with
  | String char rest =>
      if Ascii.eqb char quote then parseCsvRow_from rest cell (negb inQuotes) result
      else if Ascii.eqb char "," && negb inQuotes
      then parseCsvRow_from rest EmptyString inQuotes (result ++ [String_trim cell])
      else parseCsvRow_from rest (cell +:+ String char EmptyString) inQuotes result
  | EmptyString => result ++ [String_trim cell]
  end.

Definition parseCsvRow (line : string) : list string :=
  parseCsvRow_from line EmptyString false [].

(** *** [csvProcessor.ts]: times

    [parseInt(s, 10)]: leading white space and a sign are passed over,
    the decimal digits that follow are read, and without a digit the
    result is [NaN]. *)
Definition parseInt10 (s : string) : number :=
  let s := String_trimStart s in
  let '(negative, s) :=
    match s with
    | String "-" rest => (true, rest)
    | String "+" rest => (false, rest)
    | _ => (false, s)
    end in
  match s with
  | String c _ =>
      if is_digit c
      then num_of_Z (if negative : bool then - parseInt s else parseInt s)
      else NaN
  | EmptyString => NaN
  end.

(** [let hoursNum = parseInt(hours, 10); if (hoursNum >= 24) hoursNum = hoursNum % 24] *)
Definition wrapHours (hours : string) : number :=
  let hoursNum := parseInt10 hours in
  if num_ge hoursNum (Num 24) then num_rem hoursNum (Num 24) else hoursNum.

(** Lines 603-649.  [minutes.padStart] throws a [TypeError] on a missing
    second part. *)
Definition normalizeTimeFormat (timeStr : string) : result string :=
  if String.eqb timeStr "" then Ok "" else
  if String_includes timeStr "," then
    let parts := String_split "," timeStr in
    let hoursNum := wrapHours (default "" (parts !! 0%nat)) in
    match parts !! 1%nat with
    | Some minutes =>
        Ok (String_padStart 2 "0" (Number_toString hoursNum) +:+ ":" +:+
            String_padStart 2 "0" minutes)
    | None => Throw TypeError
    end
  else if String_includes timeStr "." then
    let parts := String_split "." timeStr in
    let hoursNum := wrapHours (default "" (parts !! 0%nat)) in
    let minutes :=
      match parts !! 1%nat with
      | Some minutes => if String.eqb minutes "" then "00" else minutes
      | None => "00"
      end in
    Ok (String_padStart 2 "0" (Number_toString hoursNum) +:+ ":" +:+
        String_padStart 2 "0" minutes)
  else if String_includes timeStr ":" then
    let parts := String_split ":" timeStr in
    let hoursNum := wrapHours (default "" (parts !! 0%nat)) in
    match parts !! 1%nat with
    | Some minutes =>
        Ok (String_padStart 2 "0" (Number_toString hoursNum) +:+ ":" +:+
            String_padStart 2 "0" minutes)
    | None => Throw TypeError
    end
  else
    match Number_of_string timeStr with
    | Num _ =>
        Ok (String_padStart 2 "0" (Number_toString (wrapHours timeStr)) +:+ ":00")
    | NaN => Ok timeStr
    end.

(** *** [csvProcessor.ts]: program titles *)

Fixpoint all_whitespace (s : string) : bool :=
  match s with
  | String c rest => is_whitespace c && all_whitespace rest
  | EmptyString => true
  end.

(** [\d+\)\s*] in full; [seen] tells that a digit has been read. *)
Fixpoint re_digitsClose (s : string) (seen : bool) : bool :=
  match s with
  | String c rest =>
      if is_digit c then re_digitsClose rest true
      else Ascii.eqb c ")" && seen && all_whitespace rest
  | EmptyString => false
  end.

(** [\s*\(\d+\)\s*] in full. *)
Definition re_duration (s : string) : bool :=
  match String_trimStart s with
  | String "(" rest => re_digitsClose rest false
  | _ => false
  end.

(** [title.replace(/\s*\(\d+\)\s*$/, '')]: the match reaches the end of
    the title, so what stays is the part before the first place from which
    the rest of the title matches. *)
Fixpoint removeDuration (title : string) : string :=
  if re_duration title then EmptyString
  else
    match title with
    | String c rest => String c (removeDuration rest)
    | EmptyString => EmptyString
    end.

(** Lines 594-597. *)
Definition cleanProgramTitle (title : string) : string :=
  String_trim (removeDuration title).

(** *** [excelProcessor.ts]: the month of a file name

    [toLowerCase] on the code units below 256: the letters A to Z and the
    accented capitals from 192 to 222, the multiplication sign 215
    apart, move up by 32. *)
Definition toLowerCase_char (c : ascii) : ascii :=
  let n := nat_of_ascii c in
  if ((65 <=? n)%nat && (n <=? 90)%nat)
     || ((192 <=? n)%nat && (n <=? 222)%nat && negb (n =? 215)%nat)
  then ascii_of_nat (n + 32) else c.

Fixpoint String_toLowerCase (s : string) : string :=
  match s with
  | String c rest => String (toLowerCase_char c) (String_toLowerCase rest)
  | EmptyString => EmptyString
  end.

Fixpoint String_drop (n : nat) (s : string) : string :=
  match n, s with
  | S n', String _ rest => String_drop n' rest
  | _, _ => s
  end.

(** [s.replace(search, replacement)] for strings: the first occurrence
    is replaced. *)
Fixpoint String_replace (s search replacement : string) : string :=
  if String.prefix search s
  then replacement +:+ String_drop (String.length search) s
  else
    match s with
    | String c rest => String c (String_replace rest search replacement)
    | EmptyString => EmptyString
    end.

(** [s.match(/\d{4}/)]: the first four digits in a row. *)
Fixpoint re_fourDigits (s : string) : option string :=
  match s with
  | String a rest =>
      match rest with
      | String b (String c (String d _)) =>
          if is_digit a && is_digit b && is_digit c && is_digit d
          then Some (String a (String b (String c (String d EmptyString))))
          else re_fourDigits rest
      | _ => None
      end
  | EmptyString => None
  end.

(** The entries of [monthNames], in the order of the object literal. *)
Definition monthNames : list (string * string) :=
  [ ("jan", "Januari"); ("feb", "Februari"); ("maart", "Maart"); ("march", "Maart");
    ("april", "April"); ("mei", "Mei"); ("may", "Mei"); ("juni", "Juni");
    ("june", "Juni"); ("juli", "Juli"); ("july", "Juli"); ("augustus", "Augustus");
    ("august", "Augustus"); ("september", "September"); ("oktober", "Oktober");
    ("october", "Oktober"); ("november", "November"); ("december", "December");
    ("dec", "December") ].

(** [cleanName] of [extractMonthYearFromFilename] *)
Definition cleanName (filename : string) : string :=
  String_replace
    (String_replace (String_replace (String_toLowerCase filename) "kopie van " "")
       "kijkcijfers " "")
    "berekening " "".

(** The loop over the entries, up to its [break]. *)
Fixpoint firstMonth (cleanName : string) (entries : list (string * string))
    : option string :=
  match entries with
  | (shortName, fullName) :: entries =>
      if String_includes cleanName (String_toLowerCase shortName)
      then
        let year := default "" (re_fourDigits cleanName) in
        Some (fullName +:+ " " +:+ year)
      else firstMonth cleanName entries
  | [] => None
  end.

(** Lines 493-534. *)
Definition extractMonthYearFromFilename (filename : string) : string :=
  default "Unknown Month" (firstMonth (cleanName filename) monthNames).

(** *** [csvProcessor.ts]: dates

    The patterns of [formatDateString] hold no [-] but between their
    groups, so a string matches one of them exactly when its parts between
    the dashes are the groups. *)
Definition is_letter (c : ascii) : bool :=
  let n := nat_of_ascii c in
  ((65 <=? n)%nat && (n <=? 90)%nat) || ((97 <=? n)%nat && (n <=? 122)%nat).

(** [\d{1,2}] in full *)
Definition re_oneOrTwoDigits (s : string) : bool :=
  (1 <=? String.length s)%nat && (String.length s <=? 2)%nat && all_digits s.

(** [/^\d{1,2}-\d{1,2}-\d{4}$/], with the parts that [split('-')] gives *)
Definition re_dayMonthYear (s : string) : option (string * string * string) :=
  match String_split "-" s with
  | [day; month; yearPart] =>
      if re_oneOrTwoDigits day && re_oneOrTwoDigits month
         && (String.length yearPart =? 4)%nat && all_digits yearPart
      then Some (day, month, yearPart) else None
  | _ => None
  end.

(** [/^\d{1,2}-\d{1,2}$/], with the parts that [split('-')] gives *)
Definition re_dayMonth (s : string) : option (string * string) :=
  match String_split "-" s with
  | [day; month] =>
      if re_oneOrTwoDigits day && re_oneOrTwoDigits month then Some (day, month) else None
  | _ => None
  end.

(** [/^(\d{1,2})-([A-Za-z]{3,})$/]: the two groups *)
Definition re_dayMonthName (s : string) : option (string * string) :=
  match String_split "-" s with
  | [day; monthName] =>
      if re_oneOrTwoDigits day && (3 <=? String.length monthName)%nat
         && forallb is_letter (list_ascii_of_string monthName)
      then Some (day, monthName) else None
  | _ => None
  end.

(** [monthMap]; its keys are three small letters, and so is every key
    that is looked up. *)
Definition monthMap : list (string * string) :=
  [ ("jan", "01"); ("feb", "02"); ("mrt", "03"); ("mar", "03"); ("apr", "04");
    ("mei", "05"); ("may", "05"); ("jun", "06"); ("jul", "07"); ("aug", "08");
    ("sep", "09"); ("okt", "10"); ("oct", "10"); ("nov", "11"); ("dec", "12") ].

(** Lines 654-697. *)
Definition formatDateString (dateStr : string) (year : number) : string :=
  if String.eqb dateStr "" then "" else
  let dateStr := String_trim dateStr in
  match re_dayMonthYear dateStr with
  | Some (day, month, yearPart) =>
      String_padStart 2 "0" day +:+ "-" +:+ String_padStart 2 "0" month +:+ "-" +:+ yearPart
  | None =>
  match re_dayMonth dateStr with
  | Some (day, month) =>
      String_padStart 2 "0" day +:+ "-" +:+ String_padStart 2 "0" month +:+ "-" +:+
      Number_toString year
  | None =>
  match re_dayMonthName dateStr with
  | Some (day, monthName) =>
      let day := String_padStart 2 "0" day in
      let monthName := String_toLowerCase monthName in
      let monthNumber :=
        default "01" (Map_get monthMap (String.substring 0 3 monthName)) in
      day +:+ "-" +:+ monthNumber +:+ "-" +:+ Number_toString year
  | None =>
      if re_oneOrTwoDigits dateStr
      then String_padStart 2 "0" dateStr +:+ "-01-" +:+ Number_toString year
      else "01-01-" +:+ Number_toString year
  end end end.

End FurtherFunctions.

(** ** Vocabulary of the further properties *)

Section FurtherVocabulary.
Context {host : Host}.

(** What every day of a month summary satisfies: it has a date and a
    positive day total, its first 24 hourly slots are filled, and it has
    24 age groups. *)
Definition soundDay (day : DailyData.t) : Prop :=
  DailyData.date day <> ""
  /\ num_gt (DailyData.totalViewers day) (Num 0) = true
  /\ full24 (DailyData.hourlyViewers day)
  /\ full24 (DailyData.hourlyPercentages day)
  /\ exists groups, DailyData.ageGroups day = Some groups /\ length groups = 24%nat.

(** What the row loop keeps true of every day it has written. *)
Definition writtenDay (day : DailyData.t) : Prop :=
  DailyData.date day <> ""
  /\ full24 (DailyData.hourlyViewers day)
  /\ full24 (DailyData.hourlyPercentages day)
  /\ exists groups, DailyData.ageGroups day = Some groups /\ length groups = 24%nat.

(** The running maxima of one slot over the days. *)
Definition maxStep (acc : Array number) (day : DailyData.t) : Array number :=
  Array_forEach
    (fun acc v k => Array_set acc k (Math_max (num_of_undef (Array_get acc k)) v))
    (DailyData.hourlyViewers day) acc.

(** The largest of the start value and the numbers the days hold for the
    hour [h]; a day without the slot is passed over. *)
Definition maxOf (h : nat) (days : list DailyData.t) (start : number) : number :=
  fold_left
    (fun m day =>
       match Array_get (DailyData.hourlyViewers day) h with
       | Some v => Math_max m v
       | None => m
       end)
    days start.



(** The days of the input summaries, in the order of the inputs. *)
Definition allDays (monthsData : list ProcessedMonthData.t) : list DailyData.t :=
  concat (ProcessedMonthData.days <$> monthsData).

(** [day] is the last day of its date in [days]. *)
Definition lastOfItsDate (day : DailyData.t) (days : list DailyData.t) : Prop :=
  exists before after,
    days = before ++ day :: after
    /\ Forall (fun later => DailyData.date later <> DailyData.date day) after.

(** A program without the fields that the back-fill writes: its end
    time, duration, sequence and notes. *)
Definition untouched (p : ProgramData.t) : ProgramData.t :=
  ProgramData.mk (ProgramData.id p) (ProgramData.title p) (ProgramData.startTime p)
    None None (ProgramData.day p) (ProgramData.dayOfWeek p) (ProgramData.category p)
    (ProgramData.isRepeat p) None None (ProgramData.originalTime p)
    (ProgramData.timePoint p) (ProgramData.week p).

(** The characters of a string. *)
Definition chars (s : string) : list ascii := list_ascii_of_string s.

(** A cell written between double quotes. *)
Definition quoted (cell : string) : string :=
  String quote (cell +:+ String quote EmptyString).

(** A string without one of the three separators of a time. *)
Definition plainPart (s : string) : Prop :=
  Forall (fun c => c <> ","%char /\ c <> "."%char /\ c <> ":"%char) (chars s).

(** The time the three branches of [normalizeTimeFormat] write. *)
Definition normalTime (hours minutes : string) : string :=
  String_padStart 2 "0" (Number_toString (wrapHours hours)) +:+ ":" +:+
  String_padStart 2 "0" minutes.

(** A year as [extractMonthYearFromFilename] finds it in a name: four
    digits that stand in the name. *)
Definition yearOf (name year : string) : Prop :=
  String.length year = 4%nat /\ all_digits year = true
  /\ String_includes name year = true.

(** The programs among [programs] that share the slot (week and start
    time) of [p]. *)
Definition slotMates (p : ProgramData.t) (programs : list ProgramData.t)
    : list ProgramData.t :=
  List.filter (fun q => String.eqb (slotKey q) (slotKey p)) programs.

(** The positions, counted from [k], of the programs of a list whose slot
    has the key [key]. *)
Fixpoint positions (key : string) (k : nat) (programs : list ProgramData.t) : list nat :=
  match programs with
  | [] => []
  | q :: programs =>
      if String.eqb (slotKey q) key then k :: positions key (S k) programs
      else positions key (S k) programs
  end.

(** One turn of the loop that groups the programs by slot. *)
Definition groupStep (weekTimeSlotMap : Map (list nat)) (place : nat * ProgramData.t)
    : Map (list nat) :=
  let '(i, program) := place in
  let key := slotKey program in
  let weekTimeSlotMap :=
    if Map_has weekTimeSlotMap key then weekTimeSlotMap
    else Map_set weekTimeSlotMap key [] in
  match Map_get weekTimeSlotMap key with
  | Some group => Map_set weekTimeSlotMap key (group ++ [i])
  | None => weekTimeSlotMap
  end.

End FurtherVocabulary.

(** * Properties *)

(** ** Numbers *)

Lemma Qplus_comm_L (x y : Q) : (x + y = y + x)%Q.
Proof.
  destruct x as [a b], y as [c d]. unfold Qplus; simpl.
  f_equal; [lia | apply Pos.mul_comm].
Qed.

Lemma Qplus_assoc_L (x y z : Q) : (x + (y + z) = (x + y) + z)%Q.
Proof.
  destruct x as [a b], y as [c d], z as [e f]. unfold Qplus; simpl.
  f_equal; [|apply Pos.mul_assoc].
  rewrite !Pos2Z.inj_mul. ring.
Qed.

Lemma Qplus_0_l_L (x : Q) : (0 + x = x)%Q.
Proof. destruct x as [a b]. unfold Qplus; simpl. by rewrite Z.mul_1_r. Qed.

Lemma Qplus_0_r_L (x : Q) : (x + 0 = x)%Q.
Proof. by rewrite Qplus_comm_L, Qplus_0_l_L. Qed.

Lemma num_add_comm (a b : number) : num_add a b = num_add b a.
Proof. destruct a, b; simpl; try done. by rewrite Qplus_comm_L. Qed.

Lemma num_add_assoc (a b c : number) :
  num_add a (num_add b c) = num_add (num_add a b) c.
Proof. destruct a, b, c; simpl; try done. by rewrite Qplus_assoc_L. Qed.

Lemma num_add_0_l (a : number) : num_add (Num 0) a = a.
Proof. destruct a; simpl; [done|]. by rewrite Qplus_0_l_L. Qed.

Lemma num_add_0_r (a : number) : num_add a (Num 0) = a.
Proof. by rewrite num_add_comm, num_add_0_l. Qed.

Lemma ref_insert_Permutation {A} (cmp : A -> A -> number) (x : A) (l : list A) :
  Permutation (ref_insert cmp x l) (x :: l).
Proof.
  induction l as [|y rest IH]; simpl; [done|].
  destruct (num_gt (cmp x y) (Num 0)); [|done].
  rewrite IH. apply perm_swap.
Qed.

Lemma ref_sort_Permutation (A : Type) (cmp : A -> A -> number) (l : list A) :
  Permutation (ref_sort A cmp l) l.
Proof.
  induction l as [|x rest IH]; simpl; [done|].
  rewrite ref_insert_Permutation. by constructor.
Qed.

Definition reference_host : Host := {|
  Number_of_string := ref_Number_of_string;
  Number_toString := ref_Number_toString;
  Date_getDate := ref_Date_getDate;
  Date_getMonth := ref_Date_getMonth;
  Date_getFullYear := ref_Date_getFullYear;
  Date_getTime := ref_Date_getTime;
  String_localeCompare := ref_localeCompare;
  Array_sort := ref_sort;
  Array_sort_Permutation := ref_sort_Permutation;
  localStorage_accepts := fun _ _ _ => true
|}.

(** ** Arrays *)

Lemma Array_get_Some {A} (arr : Array A) (i : nat) (v : A) :
  Array_get arr i = Some v <-> arr !! i = Some (Some v).
Proof.
  unfold Array_get. destruct (arr !! i) as [[x|]|]; simpl; split; congruence.
Qed.

Lemma Array_get_set {A} (arr : Array A) (i j : nat) (v : A) :
  Array_get (Array_set arr i v) j
  = if decide (i = j) then Some v else Array_get arr j.
Proof.
  unfold Array_get, Array_set. destruct (decide (i < length arr)%nat) as [Hi|Hi].
  - destruct (decide (i = j)) as [->|Hne].
    + by rewrite list_lookup_insert_eq.
    + by rewrite list_lookup_insert_ne.
  - destruct (decide (i = j)) as [<-|Hne].
    + rewrite lookup_app_r by lia.
      rewrite lookup_app_r by (rewrite length_replicate; lia).
      rewrite length_replicate. by replace (i - length arr - (i - length arr))%nat with 0%nat by lia.
    + destruct (decide (j < length arr)%nat) as [Hj|Hj].
      * by rewrite lookup_app_l.
      * rewrite lookup_app_r by lia.
        rewrite (lookup_ge_None_2 arr j) by lia. simpl.
        destruct (decide (j - length arr < i - length arr)%nat) as [Hlt|Hge].
        -- rewrite lookup_app_l by (rewrite length_replicate; lia).
           by rewrite lookup_replicate_2.
        -- rewrite lookup_app_r by (rewrite length_replicate; lia).
           rewrite length_replicate.
           destruct (j - length arr - (i - length arr))%nat as [|k] eqn:Hk; [lia|done].
Qed.

Lemma Array_get_set_eq {A} (arr : Array A) (i : nat) (v : A) :
  Array_get (Array_set arr i v) i = Some v.
Proof. rewrite Array_get_set. by rewrite decide_True. Qed.

Lemma Array_get_set_ne {A} (arr : Array A) (i j : nat) (v : A) :
  i <> j -> Array_get (Array_set arr i v) j = Array_get arr j.
Proof. intros. rewrite Array_get_set. by rewrite decide_False. Qed.

Lemma length_Array_set {A} (arr : Array A) (i : nat) (v : A) :
  length (Array_set arr i v) = (length arr `max` S i)%nat.
Proof.
  unfold Array_set. case_decide.
  - rewrite length_insert. lia.
  - rewrite !length_app, length_replicate. simpl. lia.
Qed.

Lemma Array_get_fill {A} (n i : nat) (v : A) :
  Array_get (Array_fill n v) i = if decide (i < n)%nat then Some v else None.
Proof.
  unfold Array_get, Array_fill. case_decide.
  - by rewrite lookup_replicate_2.
  - by rewrite lookup_ge_None_2 by (rewrite length_replicate; lia).
Qed.

Lemma Array_get_cons_S {A} (x : option A) (arr : Array A) (i : nat) :
  Array_get (x :: arr) (S i) = Array_get arr i.
Proof. done. Qed.

(** A [forEach] whose callback only touches the slot of its own index. *)
Lemma Array_forEach_from_get {A B} (f : option B -> A -> B) (arr : Array A)
    (i j : nat) (acc : Array B) :
  Array_get
    (Array_forEach_from (fun acc v k => Array_set acc k (f (Array_get acc k) v)) i arr acc)
    j
  = match (if decide (i <= j)%nat then Array_get arr (j - i) else None) with
    | Some v => Some (f (Array_get acc j) v)
    | None => Array_get acc j
    end.
Proof.
  revert i acc. induction arr as [|x rest IH]; intros i acc; simpl.
  - by case_decide.
  - rewrite IH. destruct (decide (i <= j)%nat) as [Hij|Hij].
    + destruct (decide (S i <= j)%nat) as [Hlt|Hlt].
      * replace (j - i)%nat with (S (j - S i)) by lia. rewrite Array_get_cons_S.
        destruct x as [v|]; [|done].
        rewrite Array_get_set_ne by lia. done.
      * assert (j = i) as -> by lia. rewrite Nat.sub_diag.
        destruct x as [v|]; simpl; [|done]. by rewrite Array_get_set_eq.
    + destruct (decide (S i <= j)%nat); [lia|].
      destruct x as [v|]; [|done]. by rewrite Array_get_set_ne by lia.
Qed.

Lemma Array_forEach_get {A B} (f : option B -> A -> B) (arr : Array A)
    (j : nat) (acc : Array B) :
  Array_get
    (Array_forEach (fun acc v k => Array_set acc k (f (Array_get acc k) v)) arr acc) j
  = match Array_get arr j with
    | Some v => Some (f (Array_get acc j) v)
    | None => Array_get acc j
    end.
Proof.
  unfold Array_forEach. rewrite Array_forEach_from_get.
  destruct (decide (0 <= j)%nat); [|lia]. by rewrite Nat.sub_0_r.
Qed.



(** ** Sums *)

Lemma fold_left_add_Sum {A} (f : A -> number) (l : list A) (x : number) :
  fold_left (fun acc a => num_add acc (f a)) l x = num_add x (Sum (f <$> l)).
Proof.
  revert x. induction l as [|a l IH]; intros x; simpl.
  - by rewrite num_add_0_r.
  - rewrite IH. by rewrite num_add_assoc.
Qed.


Section PipelineProperties.
Context {host : Host}.

(** ** The hourly loops *)



Lemma month_hourStep_max (arr : Array number) (i : nat) (st : hourly) :
  h_max (Array_forEach_from month_hourStep i arr st)
  = Array_forEach_from
      (fun acc v k => Array_set acc k (Math_max (num_of_undef (Array_get acc k)) v))
      i arr (h_max st).
Proof.
  revert i st. induction arr as [|x rest IH]; intros i st; simpl; [done|].
  rewrite IH. by destruct x.
Qed.






Lemma hourly0_get (j : nat) :
  (j < 24)%nat -> Array_get (Array_fill 24 (Num 0)) j = Some (Num 0).
Proof. intros. rewrite Array_get_fill. by destruct (decide (j < 24)%nat). Qed.




Lemma agg_hourly_eq : agg_hourly = month_hourly.
Proof. reflexivity. Qed.


Lemma totalViewers_Sum (days : list DailyData.t) :
  fold_left (fun sum day => num_add sum (DailyData.totalViewers day)) days (Num 0)
  = Sum (DailyData.totalViewers <$> days).
Proof. rewrite (fold_left_add_Sum DailyData.totalViewers). apply num_add_0_l. Qed.

(** ** What [processViewerData] returns *)

Lemma findIndex_from_spec {A} (p : A -> bool) (l : list A) (i : Z) :
  (0 <= i)%Z ->
  (findIndex_from p i l = (-1)%Z /\ Forall (fun x => p x = false) l)
  \/ exists n x, findIndex_from p i l = (i + Z.of_nat n)%Z
       /\ l !! n = Some x /\ p x = true
       /\ forall m y, (m < n)%nat -> l !! m = Some y -> p y = false.
Proof.
  revert i. induction l as [|x l IH]; intros i Hi; simpl.
  - left. by split.
  - destruct (p x) eqn:Hx.
    + right. exists 0%nat, x. repeat split; [lia|done..|]. intros; lia.
    + destruct (IH (i + 1)%Z) as [[-> Hall]|(n & y & -> & Hn & Hy & Hbefore)]; [lia|..].
      * left. split; [done|]. by constructor.
      * right. exists (S n), y. repeat split; [lia|done..|].
        intros [|m] z Hm Hz; simpl in Hz; [by injection Hz as <-|].
        apply (Hbefore m); [lia|done].
Qed.

Lemma findIndex_spec {A} (p : A -> bool) (l : list A) :
  (findIndex p l = (-1)%Z /\ Forall (fun x => p x = false) l)
  \/ exists n x, findIndex p l = Z.of_nat n
       /\ l !! n = Some x /\ p x = true
       /\ forall m y, (m < n)%nat -> l !! m = Some y -> p y = false.
Proof. apply (findIndex_from_spec p l 0). lia. Qed.

Lemma processViewerData_Ok (data : grid) (monthYear : string) (out : ProcessedMonthData.t) :
  processViewerData data monthYear = Ok out ->
  exists (index : nat) (headers : row),
    findIndex isHeaderRow data = Z.of_nat index
    /\ data !! index = Some (Some headers)
    /\ ProcessedMonthData.days out
       = Array_sort compareDates (keptDays headers (drop (S index) data))
    /\ ProcessedMonthData.monthYear out = monthYear
    /\ ProcessedMonthData.averageHourlyViewers out
       = h_average (month_hourly (ProcessedMonthData.days out))
    /\ ProcessedMonthData.maxViewersPerHour out
       = h_max (month_hourly (ProcessedMonthData.days out))
    /\ ProcessedMonthData.totalViewersPerHour out
       = h_total (month_hourly (ProcessedMonthData.days out))
    /\ ProcessedMonthData.peakHour out
       = month_peakHour (ProcessedMonthData.totalViewersPerHour out)
    /\ ProcessedMonthData.totalViewers out
       = Sum (DailyData.totalViewers <$> ProcessedMonthData.days out).
Proof.
  unfold processViewerData. intros H.
  destruct (findIndex isHeaderRow data =? -1)%Z eqn:Hidx; [done|].
  apply Z.eqb_neq in Hidx.
  destruct (findIndex_spec isHeaderRow data) as [[? _]|(n & r & Hn & Hr & Hp & _)];
    [done|].
  rewrite Hn in *. rewrite Nat2Z.id in *.
  rewrite Hr in H. destruct r as [headers|]; [|done].
  destruct (month_ageGroups _) as [[total average]|] eqn:Hage; [|done].
  cbn [mbind result_bind] in H. injection H as <-.
  exists n, headers.
  cbn [ProcessedMonthData.days ProcessedMonthData.monthYear
       ProcessedMonthData.averageHourlyViewers ProcessedMonthData.maxViewersPerHour
       ProcessedMonthData.totalViewersPerHour ProcessedMonthData.peakHour
       ProcessedMonthData.totalViewers].
  replace (Z.to_nat (Z.of_nat n + 1)) with (S n) by lia.
  split_and!; try reflexivity; try assumption. apply totalViewers_Sum.
Qed.

(** ** Peak-hour selection *)










(** ** Maps *)

Lemma Map_get_set {V} (m : Map V) (k k' : string) (v : V) :
  Map_get (Map_set m k v) k' = if String.eqb k k' then Some v else Map_get m k'.
Proof.
  induction m as [|[k0 v0] m IH]; simpl.
  - done.
  - destruct (String.eqb_spec k0 k) as [->|Hk0]; simpl.
    + by destruct (String.eqb k k').
    + rewrite IH. destruct (String.eqb_spec k0 k') as [->|Hk0']; [|done].
      by destruct (String.eqb_spec k k').
Qed.

Lemma Map_get_set_eq {V} (m : Map V) (k : string) (v : V) :
  Map_get (Map_set m k v) k = Some v.
Proof. by rewrite Map_get_set, String.eqb_refl. Qed.


Lemma elem_of_Map_set {V} (m : Map V) (k : string) (v : V) (kv : string * V) :
  kv ∈ Map_set m k v -> kv = (k, v) \/ kv ∈ m.
Proof.
  induction m as [|[k0 v0] m IH]; simpl.
  - intros ->%list_elem_of_singleton. by left.
  - destruct (String.eqb k0 k) eqn:Hk0.
    + apply String.eqb_eq in Hk0 as ->.
      intros [->|H]%elem_of_cons; [by left|right; by right].
    + intros [->|H]%elem_of_cons; [right; by left|].
      destruct (IH H) as [->|?]; [by left|right; by right].
Qed.

Lemma Map_get_elem_of {V} (m : Map V) (k : string) (v : V) :
  Map_get m k = Some v -> (k, v) ∈ m.
Proof.
  induction m as [|[k0 v0] m IH]; simpl; [done|].
  destruct (String.eqb k0 k) eqn:Hk0.
  - apply String.eqb_eq in Hk0 as ->. intros [= ->]. by left.
  - intros H. right. by apply IH.
Qed.

Lemma Map_keys_set {V} (m : Map V) (k : string) (v : V) :
  Map_keys (Map_set m k v)
  = if Map_has m k then Map_keys m else Map_keys m ++ [k].
Proof.
  unfold Map_keys, Map_has. induction m as [|[k0 v0] m IH]; csimpl; [done|].
  destruct (String.eqb k0 k) eqn:Hk0; csimpl; [done|].
  rewrite IH. by destruct (Map_get m k).
Qed.

Lemma Map_get_None_keys {V} (m : Map V) (k : string) :
  Map_get m k = None <-> k ∉ Map_keys m.
Proof.
  unfold Map_keys. induction m as [|[k0 v0] m IH]; csimpl.
  - split; [intros _ ?%elem_of_nil; done|done].
  - rewrite not_elem_of_cons. destruct (String.eqb_spec k0 k) as [->|Hk0].
    + split; [done|]. by intros [? _].
    + rewrite IH. split; [|by intros [_ ?]].
      intros ?. split; [|done]. by intros ->.
Qed.

Lemma NoDup_Map_set {V} (m : Map V) (k : string) (v : V) :
  NoDup (Map_keys m) -> NoDup (Map_keys (Map_set m k v)).
Proof.
  intros Hnd. rewrite Map_keys_set. unfold Map_has.
  destruct (Map_get m k) eqn:Hk; [done|].
  apply NoDup_app. split; [done|]. split; [|apply NoDup_singleton].
  intros x Hx ->%list_elem_of_singleton. by apply Map_get_None_keys in Hk.
Qed.

(** ** What [aggregateMonthsData] returns *)

Lemma aggregateMonthsData_Ok (first second : ProcessedMonthData.t)
    (rest : list ProcessedMonthData.t) (out : ProcessedMonthData.t) :
  aggregateMonthsData (Some (first :: second :: rest)) = Ok out ->
  ProcessedMonthData.days out
  = Array_sort compareDates (Map_values (unionDays (first :: second :: rest)))
  /\ ProcessedMonthData.monthYear out
     = "Samenvatting (" +:+
       (ProcessedMonthData.monthYear first +:+ " - " +:+
        ProcessedMonthData.monthYear (List.last (second :: rest) first)) +:+ ")"
  /\ ProcessedMonthData.averageHourlyViewers out
     = h_average (agg_hourly (ProcessedMonthData.days out))
  /\ ProcessedMonthData.maxViewersPerHour out
     = h_max (agg_hourly (ProcessedMonthData.days out))
  /\ ProcessedMonthData.totalViewersPerHour out
     = h_total (agg_hourly (ProcessedMonthData.days out))
  /\ ProcessedMonthData.peakHour out
     = agg_peakHour (ProcessedMonthData.totalViewersPerHour out)
  /\ ProcessedMonthData.totalViewers out
     = Sum (DailyData.totalViewers <$> ProcessedMonthData.days out).
Proof.
  unfold aggregateMonthsData. intros H.
  destruct (agg_ageGroups _ _) as [ages|] eqn:Hages; [|done].
  cbn [mbind result_bind] in H. injection H as <-.
  cbn [ProcessedMonthData.days ProcessedMonthData.monthYear
       ProcessedMonthData.averageHourlyViewers ProcessedMonthData.maxViewersPerHour
       ProcessedMonthData.totalViewersPerHour ProcessedMonthData.peakHour
       ProcessedMonthData.totalViewers].
  split_and!; try reflexivity; try assumption. apply totalViewers_Sum.
Qed.

(** ** The totals of a summary *)




(** ** The age-group loops do not throw *)

Lemma full24_fill {A} (v : A) : full24 (Array_fill 24 v).
Proof.
  intros h Hh. rewrite Array_get_fill. by destruct (decide (h < 24)%nat).
Qed.

Lemma Array_get_Some_lt {A} (arr : Array A) (i : nat) (v : A) :
  Array_get arr i = Some v -> (i < length arr)%nat.
Proof. intros H%Array_get_Some. by eapply lookup_lt_Some. Qed.

Lemma ageAccumulate_full (acc : Array AgeGroupData) (h : nat) (x : AgeGroupData) :
  full24 acc -> (h < 24)%nat ->
  exists acc', ageAccumulate acc h x = Ok acc' /\ full24 acc'.
Proof.
  intros Hfull Hh. unfold ageAccumulate.
  destruct (Hfull h Hh) as [cur ->]. eexists. split; [done|].
  intros j Hj. rewrite Array_get_set. destruct (decide (h = j)); [done|by apply Hfull].
Qed.

Lemma month_age_forEach (groups : Array AgeGroupData) (i : nat)
    (total average : Array AgeGroupData) :
  full24 total -> full24 average -> (i + length groups <= 24)%nat ->
  exists total' average',
    Array_forEach_from month_ageStep i groups (Ok (total, average))
    = Ok (total', average')
    /\ full24 total' /\ full24 average'.
Proof.
  revert i total average.
  induction groups as [|x groups IH]; intros i total average Ht Ha Hlen;
    cbn [Array_forEach_from].
  - by exists total, average.
  - cbn [length] in Hlen. destruct x as [hourData|]; [|apply IH; [done..|lia]].
    destruct (ageAccumulate_full total i hourData) as (t' & Ht' & Hft); [done|lia|].
    destruct (ageAccumulate_full average i hourData) as (a' & Ha' & Hfa); [done|lia|].
    assert (month_ageStep (Ok (total, average)) hourData i = Ok (t', a')) as ->.
    { unfold month_ageStep. cbn. rewrite Ht'. cbn. by rewrite Ha'. }
    apply IH; [done..|lia].
Qed.

Lemma month_ageGroups_returns (days : list DailyData.t) :
  Forall agesFitDay days -> exists r, month_ageGroups days = Ok r.
Proof.
  intros Hdays. unfold month_ageGroups.
  assert (forall total average, full24 total -> full24 average ->
    exists total' average',
      fold_left
        (fun st day =>
           match DailyData.ageGroups day with
           | Some groups => Array_forEach month_ageStep groups st
           | None => st
           end) days (Ok (total, average)) = Ok (total', average')
      /\ full24 total' /\ full24 average') as Hfold.
  { induction Hdays as [|d days Hd _ IH]; intros total average Ht Ha; simpl.
    - by exists total, average.
    - destruct (DailyData.ageGroups d) as [groups|] eqn:Hg; [|by apply IH].
      destruct (month_age_forEach groups 0 total average) as (t' & a' & Heq & Ht' & Ha');
        [done..|by apply Hd|].
      unfold Array_forEach. rewrite Heq. by apply IH. }
  destruct (Hfold (Array_fill 24 zeroAgeGroup) (Array_fill 24 zeroAgeGroup))
    as (t' & a' & -> & _); [apply full24_fill..|].
  cbn [mbind result_bind]. eexists. reflexivity.
Qed.

(** ** The row loop *)

Lemma length_writeAgeGroups (ageGroups : option (Array AgeGroupData)) (hour : Z)
    (hourlyViewers : number) :
  (forall groups, ageGroups = Some groups -> length groups = 24%nat) ->
  length (writeAgeGroups ageGroups hour hourlyViewers) = 24%nat.
Proof.
  intros Hlen. unfold writeAgeGroups.
  set (groups := match ageGroups with Some g => g | None => _ end).
  assert (length groups = 24%nat) as Hg.
  { subst groups. destruct ageGroups; [by apply Hlen|apply length_replicate]. }
  destruct (Array_get groups (Z.to_nat hour)) eqn:Hslot; [|done].
  destruct (num_gt hourlyViewers (Num 0)); [|done].
  rewrite length_Array_set. apply Array_get_Some_lt in Hslot. lia.
Qed.

Lemma writeRow_ages24 (daysMap : Map DailyData.t) (d : rowData) :
  (forall kv, kv ∈ daysMap -> ages24 kv.2) ->
  forall kv, kv ∈ writeRow daysMap d -> ages24 kv.2.
Proof.
  intros Hinv. unfold writeRow.
  set (daysMap' := if Map_has daysMap (r_dateString d) then daysMap else _).
  assert (forall kv, kv ∈ daysMap' -> ages24 kv.2) as Hinv'.
  { subst daysMap'. destruct (Map_has daysMap (r_dateString d)); [done|].
    intros kv [->|?]%elem_of_Map_set; [|by apply Hinv]. by intros groups. }
  destruct (Map_get daysMap' (r_dateString d)) as [dayData|] eqn:Hget; [|done].
  intros kv [->|?]%elem_of_Map_set; [|by apply Hinv'].
  intros groups [= <-]. apply length_writeAgeGroups.
  apply (Hinv' _ (Map_get_elem_of _ _ _ Hget)).
Qed.

Lemma processRow_ages24 (cols : columns) (daysMap : Map DailyData.t) (r : option row) :
  (forall kv, kv ∈ daysMap -> ages24 kv.2) ->
  forall kv, kv ∈ processRow cols daysMap r -> ages24 kv.2.
Proof.
  intros Hinv. unfold processRow. destruct (readRow cols r); [|done].
  by apply writeRow_ages24.
Qed.

Lemma rows_ages24 (cols : columns) (rows : grid) (daysMap : Map DailyData.t) :
  (forall kv, kv ∈ daysMap -> ages24 kv.2) ->
  forall kv, kv ∈ fold_left (processRow cols) rows daysMap -> ages24 kv.2.
Proof.
  revert daysMap. induction rows as [|r rows IH]; intros daysMap Hinv; [done|].
  simpl. apply IH. by apply processRow_ages24.
Qed.

Lemma keptDays_agesFit (headers : row) (rows : grid) :
  Forall agesFitDay (keptDays headers rows).
Proof.
  apply Forall_forall. intros day Hday%list_elem_of_In%filter_In.
  destruct Hday as [Hday%list_elem_of_In _]. unfold Map_values in Hday.
  apply list_elem_of_fmap in Hday as (kv & -> & Hkv).
  intros groups Hg.
  assert (ages24 kv.2) as H24.
  { apply (rows_ages24 (resolveColumns headers) rows []); [|done].
    by intros ? ?%elem_of_nil. }
  by rewrite (H24 groups Hg).
Qed.

(** A grid with a header row is processed to the end. *)
Lemma processViewerData_returns (data : grid) (monthYear : string) :
  findIndex isHeaderRow data <> (-1)%Z ->
  exists out, processViewerData data monthYear = Ok out.
Proof.
  intros Hidx. unfold processViewerData.
  destruct (findIndex_spec isHeaderRow data) as [[? _]|(n & r & Hn & Hr & Hp & _)];
    [done|].
  rewrite Hn. replace (Z.of_nat n =? -1)%Z with false by (symmetry; apply Z.eqb_neq; lia).
  rewrite Nat2Z.id, Hr. destruct r as [headers|]; [|done].
  replace (Z.to_nat (Z.of_nat n + 1)) with (S n) by lia.
  fold (keptDays headers (drop (S n) data)).
  destruct (month_ageGroups_returns
    (Array_sort compareDates (keptDays headers (drop (S n) data)))) as [[t a] ->].
  - rewrite Array_sort_Permutation. apply keptDays_agesFit.
  - cbn [mbind result_bind]. eexists. reflexivity.
Qed.

(** ** The totals of well-formed days are 24 numbers *)








(** ** No surviving day *)

Lemma Array_sort_nil {A} (cmp : A -> A -> number) : Array_sort cmp [] = [].
Proof. apply Permutation_nil. symmetry. apply Array_sort_Permutation. Qed.

Lemma month_peakHour_no_days : month_peakHour (h_total (month_hourly [])) = 23%Z.
Proof. vm_compute. reflexivity. Qed.

Lemma no_days_summary (data : grid) (monthYear : string) (out : ProcessedMonthData.t) :
  processViewerData data monthYear = Ok out ->
  ProcessedMonthData.days out = [] ->
  ProcessedMonthData.totalViewers out = Num 0
  /\ ProcessedMonthData.peakHour out = 23%Z.
Proof.
  intros (index & headers & _ & _ & _ & _ & _ & _ & Htotal & Hpeak & Hsum)%processViewerData_Ok
    Hdays.
  rewrite Hpeak, Htotal, Hsum, Hdays. split; [done|apply month_peakHour_no_days].
Qed.

(** A grid that holds the header row and nothing else is processed, on
    every engine, to a summary without days, with a grand total of 0 and
    the peak hour 23. *)
Lemma header_only_grid (monthYear : string) :
  exists out,
    processViewerData [Some [CString "Datum"; CString "Dag"; CString "Tijdvak"]] monthYear
    = Ok out
    /\ ProcessedMonthData.days out = []
    /\ ProcessedMonthData.totalViewers out = Num 0
    /\ ProcessedMonthData.peakHour out = 23%Z.
Proof.
  destruct (processViewerData_returns
    [Some [CString "Datum"; CString "Dag"; CString "Tijdvak"]] monthYear) as [out Hout];
    [done|].
  exists out. split; [done|].
  assert (ProcessedMonthData.days out = []) as Hdays.
  { apply processViewerData_Ok in Hout as (index & headers & Hidx & Hrow & -> & _).
    destruct index as [|[|?]]; try done. apply Array_sort_nil. }
  split; [done|]. by eapply no_days_summary.
Qed.

(** C5. A grid with a header row is processed to a summary, and when no
    day survives, the summary has a grand total of 0 but the peak hour 23,
    not 0: the 24 cumulative totals are all 0, so every hour is tied and
    the latest evening hour is selected; the default 0 of the code is
    never reached. *)
Theorem empty_data_defaults (data : grid) (monthYear : string) :
  findIndex isHeaderRow data <> (-1)%Z ->
  exists out,
    processViewerData data monthYear = Ok out
    /\ (ProcessedMonthData.days out = [] ->
        ProcessedMonthData.totalViewers out = Num 0
        /\ ProcessedMonthData.peakHour out = 23%Z).
Proof.
  intros [out Hout]%(processViewerData_returns data monthYear).
  exists out. split; [done|]. by apply (no_days_summary data monthYear).
Qed.

(** ** The hour of a row that is not skipped *)

Lemma digit_value_range (c : ascii) :
  is_digit c = true -> (0 <= digit_value c <= 9)%Z.
Proof.
  unfold is_digit, digit_value. intros [H1 H2]%andb_true_iff.
  apply Nat.leb_le in H1, H2. lia.
Qed.

Lemma parseInt_from_nonneg (s : string) (acc : Z) :
  (0 <= acc)%Z -> (0 <= parseInt_from acc s)%Z.
Proof.
  revert acc. induction s as [|c s IH]; intros acc Hacc; simpl; [done|].
  destruct (is_digit c) eqn:Hc; [|done].
  apply IH. pose proof (digit_value_range c Hc). lia.
Qed.

Lemma parseInt_nonneg (s : string) : (0 <= parseInt s)%Z.
Proof. by apply parseInt_from_nonneg. Qed.



(** ** Last write per hour wins *)





(** ** The map of the days is keyed by their dates *)

Lemma writeRow_keyedByDate (daysMap : Map DailyData.t) (d : rowData) :
  keyedByDate daysMap -> keyedByDate (writeRow daysMap d).
Proof.
  intros [Hnd Hkeys]. unfold writeRow.
  set (daysMap' := if Map_has daysMap (r_dateString d) then daysMap else _).
  assert (keyedByDate daysMap') as [Hnd' Hkeys'].
  { subst daysMap'. destruct (Map_has daysMap (r_dateString d)); [done|]. split.
    - by apply NoDup_Map_set.
    - intros kv [->|?]%elem_of_Map_set; [done|by apply Hkeys]. }
  destruct (Map_get daysMap' (r_dateString d)) as [dayData|] eqn:Hget; [|done].
  split; [by apply NoDup_Map_set|].
  intros kv [->|?]%elem_of_Map_set; [|by apply Hkeys'].
  apply (Hkeys' _ (Map_get_elem_of _ _ _ Hget)).
Qed.

Lemma rows_keyedByDate (cols : columns) (rows : grid) (daysMap : Map DailyData.t) :
  keyedByDate daysMap -> keyedByDate (fold_left (processRow cols) rows daysMap).
Proof.
  revert daysMap. induction rows as [|r rows IH]; intros daysMap Hinv; [done|].
  simpl. apply IH. unfold processRow. destruct (readRow cols r); [|done].
  by apply writeRow_keyedByDate.
Qed.

Lemma Map_get_of_elem {V} (m : Map V) (k : string) (v : V) :
  NoDup (Map_keys m) -> (k, v) ∈ m -> Map_get m k = Some v.
Proof.
  unfold Map_keys. induction m as [|[k0 v0] m IH]; csimpl; intros Hnd Hin.
  - by apply elem_of_nil in Hin.
  - apply NoDup_cons in Hnd as [Hk0 Hnd].
    apply elem_of_cons in Hin as [[= -> ->]|Hin]; [by rewrite String.eqb_refl|].
    destruct (String.eqb_spec k0 k) as [->|Hne]; [|by apply IH].
    destruct Hk0. apply list_elem_of_fmap. by exists (k, v).
Qed.

Lemma keyedByDate_get (daysMap : Map DailyData.t) (day : DailyData.t) :
  keyedByDate daysMap -> day ∈ Map_values daysMap ->
  Map_get daysMap (DailyData.date day) = Some day.
Proof.
  intros [Hnd Hkeys] (kv & -> & Hkv)%list_elem_of_fmap.
  apply Map_get_of_elem; [done|]. rewrite (Hkeys _ Hkv). by destruct kv.
Qed.

Lemma findIndex_header (before : grid) (headers : row) (rows : grid) :
  Forall (fun r => isHeaderRow r = false) before ->
  isHeaderRow (Some headers) = true ->
  findIndex isHeaderRow (before ++ Some headers :: rows) = Z.of_nat (length before).
Proof.
  intros Hbefore Hheader. unfold findIndex.
  assert (forall i, findIndex_from isHeaderRow i (before ++ Some headers :: rows)
                    = (i + Z.of_nat (length before))%Z) as Hgen.
  { induction Hbefore as [|r before Hr _ IH]; intros i; cbn [app findIndex_from length].
    - rewrite Hheader. lia.
    - rewrite Hr, IH. lia. }
  apply Hgen.
Qed.


(** ** The age-group loop of the multi-period aggregation *)

Lemma agg_age_forEach (f : AgeGroupData -> AgeGroupData) (groups : Array AgeGroupData)
    (i : nat) (acc : Array AgeGroupData) :
  full24 acc -> (i + length groups <= 24)%nat ->
  exists acc',
    Array_forEach_from
      (fun acc hourData hour => acc ← acc; ageAccumulate acc hour (f hourData))
      i groups (Ok acc) = Ok acc'
    /\ full24 acc'.
Proof.
  revert i acc.
  induction groups as [|x groups IH]; intros i acc Hfull Hlen; cbn [Array_forEach_from].
  - by exists acc.
  - cbn [length] in Hlen. destruct x as [hourData|]; [|apply IH; [done|lia]].
    destruct (ageAccumulate_full acc i (f hourData)) as (acc' & Hacc & Hfull');
      [done|lia|].
    cbn [mbind result_bind]. rewrite Hacc. apply IH; [done|lia].
Qed.

Lemma agg_ageStep_returns (st : ageState) (monthData : ProcessedMonthData.t) :
  full24 (s_totalAgeGroups st) -> full24 (s_averageAgeGroups st) ->
  agesFit monthData ->
  exists st', agg_ageStep (Ok st) monthData = Ok st'
    /\ full24 (s_totalAgeGroups st') /\ full24 (s_averageAgeGroups st').
Proof.
  intros Ht Ha [Hfit_t Hfit_a]. unfold agg_ageStep. cbn [mbind result_bind].
  assert (exists st1,
    match ProcessedMonthData.totalAgeGroups monthData with
    | Some groups =>
        total ← Array_forEach
                  (fun acc hourData hour => acc ← acc; ageAccumulate acc hour hourData)
                  groups (Ok (s_totalAgeGroups st));
        Ok (mkAgeState true total (s_averageAgeGroups st))
    | None => Ok st
    end = Ok st1
    /\ full24 (s_totalAgeGroups st1) /\ full24 (s_averageAgeGroups st1))
    as (st1 & -> & Ht1 & Ha1).
  { destruct (ProcessedMonthData.totalAgeGroups monthData) as [groups|] eqn:Hg;
      [|by exists st].
    destruct (agg_age_forEach (fun x => x) groups 0 (s_totalAgeGroups st))
      as (total & Htotal & Hfull); [done|by apply Hfit_t|].
    unfold Array_forEach. rewrite Htotal. cbn [mbind result_bind]. by eexists. }
  cbn [mbind result_bind].
  destruct (ProcessedMonthData.averageAgeGroups monthData) as [groups|] eqn:Hg;
    [|by exists st1].
  destruct (agg_age_forEach
    (fun x => scaleAgeGroup x
                (num_of_nat (length (ProcessedMonthData.days monthData))))
    groups 0 (s_averageAgeGroups st1)) as (average & Haverage & Hfull);
    [done|by apply Hfit_a|].
  unfold Array_forEach. rewrite Haverage. cbn [mbind result_bind]. by eexists.
Qed.

Lemma agg_ageGroups_returns (monthsData : list ProcessedMonthData.t) (dayCount : nat) :
  Forall agesFit monthsData -> exists st, agg_ageGroups monthsData dayCount = Ok st.
Proof.
  intros Hfit. unfold agg_ageGroups.
  assert (forall st, full24 (s_totalAgeGroups st) -> full24 (s_averageAgeGroups st) ->
    exists st', fold_left agg_ageStep monthsData (Ok st) = Ok st') as Hfold.
  { induction Hfit as [|m monthsData Hm _ IH]; intros st Ht Ha; cbn [fold_left].
    - by exists st.
    - destruct (agg_ageStep_returns st m Ht Ha Hm) as (st' & -> & Ht' & Ha').
      by apply IH. }
  destruct (Hfold (mkAgeState false (Array_fill 24 zeroAgeGroup)
                     (Array_fill 24 zeroAgeGroup))) as [st' ->];
    [apply full24_fill..|].
  cbn [mbind result_bind]. by eexists.
Qed.

(** Given two or more summaries whose age groups fit, a summary is
    returned. *)
Lemma aggregateMonthsData_returns (first second : ProcessedMonthData.t)
    (rest : list ProcessedMonthData.t) :
  Forall agesFit (first :: second :: rest) ->
  exists out, aggregateMonthsData (Some (first :: second :: rest)) = Ok out.
Proof.
  intros Hfit. unfold aggregateMonthsData.
  destruct (agg_ageGroups_returns (first :: second :: rest)
    (length (Array_sort compareDates (Map_values (unionDays (first :: second :: rest)))))
    Hfit) as [st Hst].
  unfold unionDays in Hst. rewrite Hst. cbn [mbind result_bind]. by eexists.
Qed.

(** The age-group loop throws nothing but a [TypeError]. *)
Lemma agg_age_forEach_throw (f : AgeGroupData -> AgeGroupData)
    (groups : Array AgeGroupData) (i : nat) (st : result (Array AgeGroupData)) (e : exn) :
  Array_forEach_from
    (fun acc hourData hour => acc ← acc; ageAccumulate acc hour (f hourData))
    i groups st = Throw e ->
  st = Throw e \/ e = TypeError.
Proof.
  revert i st. induction groups as [|x groups IH]; intros i st; cbn [Array_forEach_from].
  - by left.
  - destruct x as [hourData|]; [|apply IH]. intros [H|H]%IH; [|by right].
    destruct st as [acc|e']; [|by left]. cbn [mbind result_bind] in H.
    unfold ageAccumulate in H. destruct (Array_get acc i); [done|].
    injection H as <-. by right.
Qed.

Lemma agg_ageStep_throw (st : result ageState) (monthData : ProcessedMonthData.t)
    (e : exn) :
  agg_ageStep st monthData = Throw e -> st = Throw e \/ e = TypeError.
Proof.
  unfold agg_ageStep. destruct st as [st|e']; [|by left].
  cbn [mbind result_bind]. intros H. right.
  destruct (ProcessedMonthData.totalAgeGroups monthData) as [groups|].
  - unfold Array_forEach in H.
    destruct (Array_forEach_from _ 0 groups (Ok (s_totalAgeGroups st))) as [total|e1]
      eqn:Ht.
    + cbn [mbind result_bind] in H.
      destruct (ProcessedMonthData.averageAgeGroups monthData) as [groups'|]; [|done].
      destruct (Array_forEach_from _ 0 groups' _) as [average|e2] eqn:Ha; [done|].
      cbn [mbind result_bind] in H. injection H as <-.
      by apply (agg_age_forEach_throw (fun x => scaleAgeGroup x _)) in Ha as [?|?].
    + cbn [mbind result_bind] in H. injection H as <-.
      by apply (agg_age_forEach_throw (fun x => x)) in Ht as [?|?].
  - cbn [mbind result_bind] in H.
    destruct (ProcessedMonthData.averageAgeGroups monthData) as [groups'|]; [|done].
    unfold Array_forEach in H.
    destruct (Array_forEach_from _ 0 groups' _) as [average|e2] eqn:Ha; [done|].
    cbn [mbind result_bind] in H. injection H as <-.
    by apply (agg_age_forEach_throw (fun x => scaleAgeGroup x _)) in Ha as [?|?].
Qed.

Lemma agg_ageGroups_throw (monthsData : list ProcessedMonthData.t) (dayCount : nat)
    (e : exn) :
  agg_ageGroups monthsData dayCount = Throw e -> e = TypeError.
Proof.
  unfold agg_ageGroups.
  assert (forall st, fold_left agg_ageStep monthsData st = Throw e ->
                     st = Throw e \/ e = TypeError) as Hfold.
  { induction monthsData as [|m monthsData IH]; intros st; cbn [fold_left]; [by left|].
    intros [H|H]%IH; [|by right]. by apply agg_ageStep_throw in H. }
  destruct (fold_left agg_ageStep monthsData _) as [st|e'] eqn:Hst; [done|].
  cbn [mbind result_bind]. intros [= ->]. by apply Hfold in Hst as [?|?].
Qed.

(** C10. Without data the multi-period aggregation throws the error "No
    data provided for aggregation": the argument is missing, or it is the
    empty list.  No other input makes it throw this error. *)
Theorem aggregate_without_data :
  aggregateMonthsData None = Throw (Error "No data provided for aggregation")
  /\ aggregateMonthsData (Some []) = Throw (Error "No data provided for aggregation")
  /\ forall monthsData e,
       aggregateMonthsData monthsData = Throw e ->
       e = Error "No data provided for aggregation" ->
       monthsData = None \/ monthsData = Some [].
Proof.
  split_and!; [done..|]. intros [[|first [|second rest]]|] e H He; auto; [done|].
  exfalso. unfold aggregateMonthsData in H.
  destruct (agg_ageGroups _ _) as [st|e'] eqn:Hages; [done|].
  cbn [mbind result_bind] in H. injection H as <-.
  apply agg_ageGroups_throw in Hages. by subst.
Qed.

(** C9 (as amended). Given a single summary the aggregation returns that
    summary itself.  Given two or more it labels the result
    "Samenvatting (<first label> - <last label>)"; and it does return a
    result whenever the age-group arrays of the inputs have at most 24
    entries. *)
Theorem combined_label :
  (forall only, aggregateMonthsData (Some [only]) = Ok only)
  /\ (forall first second rest out,
        aggregateMonthsData (Some (first :: second :: rest)) = Ok out ->
        ProcessedMonthData.monthYear out
        = "Samenvatting (" +:+
          (ProcessedMonthData.monthYear first +:+ " - " +:+
           ProcessedMonthData.monthYear (List.last (second :: rest) first)) +:+ ")")
  /\ (forall first second rest,
        Forall agesFit (first :: second :: rest) ->
        exists out, aggregateMonthsData (Some (first :: second :: rest)) = Ok out).
Proof.
  split_and!.
  - done.
  - by intros first second rest out (_ & -> & _)%aggregateMonthsData_Ok.
  - apply aggregateMonthsData_returns.
Qed.

(** ** Two periods of one day each *)



(** ** The time-slot parser *)

#[local] Arguments is_digit : simpl never.
#[local] Arguments digit_value : simpl never.










(** ** End-time back-fill *)

Lemma backfillStep_backfilled (programs : list ProgramData.t) (i : nat)
    (current next : ProgramData.t) :
  programs !! i = Some current -> programs !! S i = Some next ->
  backfillStep programs i = <[i := backfilled current next]> programs.
Proof.
  intros Hc Hn. unfold backfillStep, backfilled. rewrite Hc, Hn.
  destruct (sameSlotSibling current next); [|done].
  destruct (negb (opt_num_truthy (ProgramData.duration current))); [done|].
  by rewrite list_insert_id.
Qed.

(** The loop over the neighbours, prefix by prefix. *)
Lemma backfill_loop (programs : list ProgramData.t) (n : nat) :
  (n <= length programs - 1)%nat ->
  length (fold_left backfillStep (seq 0 n) programs) = length programs
  /\ forall i,
       fold_left backfillStep (seq 0 n) programs !! i
       = if decide (i < n)%nat
         then match programs !! i, programs !! S i with
              | Some current, Some next => Some (backfilled current next)
              | _, _ => None
              end
         else programs !! i.
Proof.
  induction n as [|n IH]; intros Hn.
  - split; [done|]. intros i. by destruct (decide (i < 0)%nat); [lia|].
  - destruct IH as [Hlen Hget]; [lia|].
    rewrite seq_S, fold_left_app. cbn [fold_left Nat.add].
    set (r := fold_left backfillStep (seq 0 n) programs) in *.
    destruct (lookup_lt_is_Some_2 programs n) as [current Hc]; [lia|].
    destruct (lookup_lt_is_Some_2 programs (S n)) as [next Hnx]; [lia|].
    assert (r !! n = Some current) as Hrc.
    { rewrite Hget. by destruct (decide (n < n)%nat); [lia|]. }
    assert (r !! S n = Some next) as Hrn.
    { rewrite Hget. by destruct (decide (S n < n)%nat); [lia|]. }
    rewrite (backfillStep_backfilled r n current next Hrc Hrn).
    split; [by rewrite length_insert|]. intros i.
    destruct (decide (i = n)) as [->|Hne].
    + rewrite list_lookup_insert_eq by (rewrite Hlen; lia).
      destruct (decide (n < S n)%nat); [|lia]. by rewrite Hc, Hnx.
    + rewrite list_lookup_insert_ne by done. rewrite Hget.
      destruct (decide (i < n)%nat), (decide (i < S n)%nat); try lia; done.
Qed.

Lemma last_Some_lookup {A} (l : list A) (x : A) :
  List.last (Some <$> l) None = Some x <-> l <> [] /\ l !! (length l - 1)%nat = Some x.
Proof.
  induction l as [|y [|z l] IH]; [by split; [|intros [? _]]|..].
  - cbn. split; [intros [= ->]; by split|by intros [_ [= ->]]].
  - change (List.last (Some <$> y :: z :: l) None)
      with (List.last (Some <$> z :: l) None).
    rewrite IH. cbn [length]. replace (S (S (length l)) - 1)%nat
      with (S (S (length l) - 1)) by lia.
    cbn [lookup list_lookup]. split; intros [_ H]; by split.
Qed.


Lemma backfilled_startTime (current next : ProgramData.t) :
  ProgramData.startTime (backfilled current next) = ProgramData.startTime current.
Proof.
  unfold backfilled, siblingDefault, endAtNext.
  destruct (sameSlotSibling current next).
  - destruct (negb _); [|done].
    destruct (splitTime _) as [startHour startMinute]. by destruct (num_ge _ _).
  - cbn [set_endTime ProgramData.duration ProgramData.startTime].
    destruct (_ && _); [|done].
    destruct (splitTime (ProgramData.startTime current)) as [startHour startMinute].
    by destruct (splitTime (ProgramData.startTime next)) as [endHour endMinute].
Qed.



(** What [calculateEndTimes] makes of the programs of one day. *)
Lemma calculateEndTimes_day_Ok (programs result : list ProgramData.t) :
  calculateEndTimes_day programs = Ok result ->
  exists sorted,
    sorted = Array_sort comparePrograms (assignSequences programs)
    /\ length result = length sorted
    /\ forall i current,
         sorted !! i = Some current ->
         match sorted !! S i with
         | Some next => result !! i = Some (backfilled current next)
         | None => exists r, finishLast current = Ok r /\ result !! i = Some r
         end.
Proof.
  unfold calculateEndTimes_day.
  set (sorted := Array_sort comparePrograms (assignSequences programs)).
  destruct (backfill_loop sorted (length sorted - 1)) as [Hlen Hget]; [done|].
  set (looped := fold_left backfillStep (seq 0 (length sorted - 1)) sorted) in *.
  intros H. exists sorted. split; [done|].
  destruct (List.last (Some <$> looped) None) as [lastProgram|] eqn:Hlast.
  - apply last_Some_lookup in Hlast as [Hne Hlast].
    destruct (finishLast lastProgram) as [r|] eqn:Hfinish; [|done].
    cbn [mbind result_bind] in H. injection H as <-.
    split; [by rewrite length_insert|]. intros i current Hi.
    pose proof (lookup_lt_Some _ _ _ Hi) as Hlt.
    destruct (sorted !! S i) as [next|] eqn:Hnext.
    + pose proof (lookup_lt_Some _ _ _ Hnext).
      rewrite list_lookup_insert_ne by lia. rewrite Hget.
      destruct (decide (i < length sorted - 1)%nat); [|lia]. by rewrite Hi, Hnext.
    + apply lookup_ge_None in Hnext.
      assert (i = length looped - 1)%nat as -> by lia.
      rewrite Hget in Hlast. rewrite Hlen in Hlast.
      destruct (decide (length sorted - 1 < length sorted - 1)%nat); [lia|].
      rewrite Hlen in Hi. assert (lastProgram = current) as -> by congruence.
      exists r. split; [done|]. rewrite list_lookup_insert_eq; [done|lia].
  - assert (looped = []) as Hnil.
    { destruct looped as [|x l]; [done|]. exfalso.
      assert (is_Some (List.last (Some <$> x :: l) None)) as [? Hsome].
      { destruct (lookup_lt_is_Some_2 (x :: l) (length (x :: l) - 1)) as [y Hy];
          [simpl; lia|].
        exists y. apply last_Some_lookup. by split. }
      congruence. }
    injection H as <-. split; [done|]. intros i current Hi.
    apply lookup_lt_Some in Hi. rewrite <- Hlen, Hnil in Hi. simpl in Hi. lia.
Qed.


(** ** The back-fill never throws on times of the form [HH:MM] *)

Lemma String_split_from_nonempty (sep : ascii) (cur s : string) :
  String_split_from sep cur s <> [].
Proof.
  revert cur. induction s as [|c s IH]; intros cur; simpl; [done|].
  destruct (Ascii.eqb c sep); [done|apply IH].
Qed.

Lemma String_split_from_includes (sep : ascii) (cur s : string) :
  String_includes s (String sep EmptyString) = true ->
  exists first second rest, String_split_from sep cur s = first :: second :: rest.
Proof.
  revert cur. induction s as [|c s IH]; intros cur; simpl; [done|].
  destruct (ascii_dec sep c) as [<-|Hne].
  - intros _. rewrite Ascii.eqb_refl.
    destruct (String_split_from sep "" s) as [|second rest] eqn:Hrest.
    + by apply String_split_from_nonempty in Hrest.
    + by exists cur, second, rest.
  - simpl. intros Hs. destruct (Ascii.eqb_spec c sep) as [->|_]; [done|]. by apply IH.
Qed.

Lemma finishLast_returns (lastProgram : ProgramData.t) :
  hasMinutes lastProgram -> exists r, finishLast lastProgram = Ok r.
Proof.
  intros Hm. unfold finishLast.
  destruct (_ && _).
  { destruct (splitTime _). by eexists. }
  destruct (_ && _); [|by eexists].
  cbn [set_duration ProgramData.startTime]. unfold splitTime, String_split.
  destruct (String_split_from_includes ":" "" (ProgramData.startTime lastProgram) Hm)
    as (first & second & rest & ->).
  cbn. by eexists.
Qed.

Lemma numberProgram_startTime (count index : nat) (program : ProgramData.t) :
  ProgramData.startTime (numberProgram count index program)
  = ProgramData.startTime program.
Proof. done. Qed.

Lemma assignSequences_hasMinutes (programs : list ProgramData.t) :
  Forall hasMinutes programs -> Forall hasMinutes (assignSequences programs).
Proof.
  unfold assignSequences. generalize (groupBySlot programs) as groups.
  intros groups. revert programs.
  induction groups as [|[key timePrograms] groups IH]; intros programs Hall; [done|].
  cbn [fold_left]. apply IH.
  destruct (1 <? length timePrograms)%nat; [|done].
  generalize (length timePrograms) as count.
  generalize (imap (fun index pos : nat => (index, pos)) timePrograms) as places.
  intros places count. revert programs Hall.
  induction places as [|[index pos] places IHp]; intros programs Hall; [done|].
  cbn [fold_left]. apply IHp. apply Forall_alter; [done|].
  by intros p _ Hp.
Qed.

Lemma calculateEndTimes_day_returns (programs : list ProgramData.t) :
  Forall hasMinutes programs -> exists result, calculateEndTimes_day programs = Ok result.
Proof.
  intros Hall. unfold calculateEndTimes_day.
  set (sorted := Array_sort comparePrograms (assignSequences programs)).
  assert (Forall hasMinutes sorted) as Hsorted.
  { subst sorted. rewrite Array_sort_Permutation. by apply assignSequences_hasMinutes. }
  destruct (backfill_loop sorted (length sorted - 1)) as [Hlen Hget]; [done|].
  set (looped := fold_left backfillStep (seq 0 (length sorted - 1)) sorted) in *.
  destruct (List.last (Some <$> looped) None) as [lastProgram|] eqn:Hlast;
    [|by eexists].
  apply last_Some_lookup in Hlast as [Hne Hlast].
  rewrite Hget, Hlen in Hlast.
  destruct (decide (length sorted - 1 < length sorted - 1)%nat); [lia|].
  destruct (finishLast_returns lastProgram) as [r ->].
  - eapply Forall_lookup_1; done.
  - cbn [mbind result_bind]. by eexists.
Qed.


(** ** Persistence of the schedule *)























(** ** Further properties of [processViewerData] *)

Lemma Forall_Map_set {V} (P : V -> Prop) (m : Map V) (k : string) (v : V) :
  P v -> Forall P (Map_values m) -> Forall P (Map_values (Map_set m k v)).
Proof.
  unfold Map_values. intros Hv. induction m as [|[k0 v0] m IH]; csimpl; intros Hm.
  - by constructor.
  - apply Forall_cons in Hm as [H0 Hm].
    destruct (String.eqb k0 k); csimpl; constructor; auto.
Qed.

Lemma Map_set_set {V} (m : Map V) (k : string) (v w : V) :
  Map_set (Map_set m k v) k w = Map_set m k w.
Proof.
  induction m as [|[k0 v0] m IH]; csimpl.
  - by rewrite String.eqb_refl.
  - destruct (String.eqb k0 k) eqn:Hk; csimpl; rewrite Hk; [done|]. by rewrite IH.
Qed.

Lemma Map_get_values {V} (m : Map V) (k : string) (v : V) :
  Map_get m k = Some v -> v ∈ Map_values m.
Proof.
  intros H%Map_get_elem_of. unfold Map_values. apply list_elem_of_fmap.
  by exists (k, v).
Qed.

(** A property that every written day has is a property of all the days
    the row loop leaves behind. *)
Lemma writeRow_Forall (P : DailyData.t -> Prop) (daysMap : Map DailyData.t) (d : rowData) :
  (forall day,
     day = newDay (r_dateString d) (r_dayOfWeek d) (r_totalDailyViewers d) \/ P day ->
     P (writeHour day d)) ->
  Forall P (Map_values daysMap) -> Forall P (Map_values (writeRow daysMap d)).
Proof.
  intros Hwrite Hall. unfold writeRow.
  destruct (Map_has daysMap (r_dateString d)) eqn:Hhas.
  - destruct (Map_get daysMap (r_dateString d)) as [dayData|] eqn:Hget; [|done].
    apply Forall_Map_set; [|done]. apply Hwrite. right.
    eapply Forall_forall; [exact Hall|]. by eapply Map_get_values.
  - rewrite Map_get_set_eq, Map_set_set.
    apply Forall_Map_set; [|done]. apply Hwrite. by left.
Qed.

Lemma rows_Forall (P : DailyData.t -> Prop) (cols : columns) (rows : grid)
    (daysMap : Map DailyData.t) :
  (forall r d day,
     readRow cols r = Some d ->
     day = newDay (r_dateString d) (r_dayOfWeek d) (r_totalDailyViewers d) \/ P day ->
     P (writeHour day d)) ->
  Forall P (Map_values daysMap) ->
  Forall P (Map_values (fold_left (processRow cols) rows daysMap)).
Proof.
  intros Hwrite. revert daysMap.
  induction rows as [|r rows IH]; intros daysMap Hall; [done|].
  cbn [fold_left]. apply IH. unfold processRow.
  destruct (readRow cols r) as [d|] eqn:Hread; [|done].
  apply writeRow_Forall; [|done]. intros day. by apply (Hwrite r).
Qed.

Lemma readRow_date (cols : columns) (r : option row) (d : rowData) :
  readRow cols r = Some d -> r_dateString d <> "".
Proof.
  unfold readRow. destruct r as [row|]; [|done].
  repeat match goal with
         | |- (if ?c then _ else _) = _ -> _ => destruct c eqn:?; [done|]
         | |- (let _ := _ in _) = _ -> _ => cbv zeta
         end.
  intros [= <-]. cbn [r_dateString].
  match goal with H : String.eqb ?s "" = false |- ?s <> "" =>
    by apply String.eqb_neq in H end.
Qed.

Lemma full24_set {A} (arr : Array A) (i : nat) (v : A) :
  full24 arr -> full24 (Array_set arr i v).
Proof.
  intros Hfull h Hh. rewrite Array_get_set. destruct (decide (i = h)); [done|].
  by apply Hfull.
Qed.

Lemma writeHour_writtenDay (cols : columns) (r : option row) (d : rowData)
    (day : DailyData.t) :
  readRow cols r = Some d ->
  day = newDay (r_dateString d) (r_dayOfWeek d) (r_totalDailyViewers d) \/ writtenDay day ->
  writtenDay (writeHour day d).
Proof.
  intros Hread%readRow_date Hday.
  assert (DailyData.date day <> ""
          /\ full24 (DailyData.hourlyViewers day)
          /\ full24 (DailyData.hourlyPercentages day)
          /\ (forall groups, DailyData.ageGroups day = Some groups ->
                length groups = 24%nat)) as (Hdate & Hv & Hp & Hages).
  { destruct Hday as [->|(? & ? & ? & groups & Hg & Hlen)].
    - cbn [newDay DailyData.date DailyData.hourlyViewers DailyData.hourlyPercentages
           DailyData.ageGroups].
      split_and!; [done|apply full24_fill..|done].
    - split_and!; [done..|]. intros groups' Hg'. congruence. }
  unfold writtenDay, writeHour.
  cbn [DailyData.date DailyData.hourlyViewers DailyData.hourlyPercentages
       DailyData.ageGroups].
  split_and!; [done|by apply full24_set..|].
  eexists. split; [done|]. by apply length_writeAgeGroups.
Qed.

Lemma NoDup_fmap_filter {A B} `{EqDecision B} (f : A -> B) (p : A -> bool) (l : list A) :
  NoDup (f <$> l) -> NoDup (f <$> List.filter p l).
Proof.
  induction l as [|x l IH]; csimpl; [done|].
  intros [Hx Hl]%NoDup_cons. destruct (p x); csimpl; [|by apply IH].
  apply NoDup_cons. split; [|by apply IH].
  intros (y & Hfy & Hy%list_elem_of_In%filter_In)%list_elem_of_fmap.
  apply Hx. apply list_elem_of_fmap. exists y. split; [done|].
  apply list_elem_of_In. by destruct Hy.
Qed.

Lemma keyedByDate_dates (daysMap : Map DailyData.t) :
  keyedByDate daysMap -> DailyData.date <$> Map_values daysMap = Map_keys daysMap.
Proof.
  intros [_ Hdate]. unfold Map_values, Map_keys.
  induction daysMap as [|[k day] m IH]; csimpl; [done|].
  pose proof (Hdate (k, day) ltac:(left)) as Hk. cbn [fst snd] in Hk.
  rewrite Hk. f_equal. apply IH.
  intros kv Hkv. apply Hdate. by right.
Qed.

Lemma processViewerData_days (data : grid) (monthYear : string)
    (out : ProcessedMonthData.t) :
  processViewerData data monthYear = Ok out ->
  NoDup (DailyData.date <$> ProcessedMonthData.days out)
  /\ Forall soundDay (ProcessedMonthData.days out).
Proof.
  intros (index & headers & _ & _ & Hdays & _)%processViewerData_Ok.
  set (rows := drop (S index) data) in *.
  set (daysMap := fold_left (processRow (resolveColumns headers)) rows []).
  assert (ProcessedMonthData.days out ≡ₚ keptDays headers rows) as Hperm
    by (rewrite Hdays; apply Array_sort_Permutation).
  assert (keyedByDate daysMap) as Hkeyed.
  { apply rows_keyedByDate. split; [constructor|]. by intros ? ?%elem_of_nil. }
  assert (Forall writtenDay (Map_values daysMap)) as Hwritten.
  { apply rows_Forall; [|constructor]. intros r d day. apply writeHour_writtenDay. }
  split.
  - rewrite Hperm. unfold keptDays. apply NoDup_fmap_filter.
    fold daysMap. rewrite keyedByDate_dates by done. apply Hkeyed.
  - rewrite Hperm. apply Forall_forall. intros day Hday%list_elem_of_In%filter_In.
    destruct Hday as [Hday%list_elem_of_In Hpositive].
    destruct (proj1 (Forall_forall _ _) Hwritten day Hday) as (? & ? & ? & ?).
    by split_and!.
Qed.

(** X1. The days of a month summary have pairwise distinct dates, and
    each of them has a date, a positive day total, its first 24 hourly
    slots filled and 24 age groups. *)
Theorem kept_days_are_sound (data : grid) (monthYear : string)
    (out : ProcessedMonthData.t) :
  processViewerData data monthYear = Ok out ->
  NoDup (DailyData.date <$> ProcessedMonthData.days out)
  /\ Forall soundDay (ProcessedMonthData.days out).
Proof. apply processViewerData_days. Qed.

(** X2. Whether a grid is processed is decided by its header row alone:
    with a row that starts with "Datum", "Dag", "Tijdvak" the call
    returns a summary, and without one it throws the error of the missing
    header row; it throws nothing else. *)
Theorem header_row_decides (data : grid) (monthYear : string) :
  (Exists (fun r => isHeaderRow r = true) data
   /\ exists out, processViewerData data monthYear = Ok out)
  \/ (Forall (fun r => isHeaderRow r = false) data
      /\ processViewerData data monthYear
         = Throw (Error "Could not find header row in Excel file")).
Proof.
  destruct (findIndex_spec isHeaderRow data) as [[Hidx Hnone]|(n & r & Hn & Hr & Hp & _)].
  - right. split; [done|]. unfold processViewerData. by rewrite Hidx.
  - left. split.
    + apply Exists_exists. exists r. split; [|done].
      by eapply list_elem_of_lookup_2.
    + apply processViewerData_returns. rewrite Hn. lia.
Qed.


Lemma lookup_header (preamble : grid) (headers : row) (rows : grid) :
  (preamble ++ Some headers :: rows) !! length preamble = Some (Some headers).
Proof. by rewrite list_lookup_middle. Qed.

Lemma drop_header (preamble : grid) (headers : row) (rows : grid) :
  drop (S (length preamble)) (preamble ++ Some headers :: rows) = rows.
Proof.
  induction preamble as [|r preamble IH]; [done|]. exact IH.
Qed.

(** The rows below the header matter through the days they leave. *)
Lemma processViewerData_rows (preamble : grid) (headers : row) (rows rows' : grid)
    (monthYear : string) :
  Forall (fun r => isHeaderRow r = false) preamble ->
  isHeaderRow (Some headers) = true ->
  fold_left (processRow (resolveColumns headers)) rows []
  = fold_left (processRow (resolveColumns headers)) rows' [] ->
  processViewerData (preamble ++ Some headers :: rows) monthYear
  = processViewerData (preamble ++ Some headers :: rows') monthYear.
Proof.
  intros Hpreamble Hheader Hrows. unfold processViewerData.
  rewrite !(findIndex_header preamble headers _ Hpreamble Hheader).
  replace (Z.of_nat (length preamble) =? -1)%Z with false
    by (symmetry; apply Z.eqb_neq; lia).
  replace (Z.to_nat (Z.of_nat (length preamble) + 1)) with (S (length preamble)) by lia.
  rewrite Nat2Z.id, !lookup_header, !drop_header, Hrows.
  reflexivity.
Qed.

(** A row without a recognised time slot is skipped. *)
Lemma unrecognised_slot_skipped (cols : columns) (row : row) :
  extractHourFromTimeSlot (cell_toString (row_get row 2)) = NOT_FOUND ->
  readRow cols (Some row) = None.
Proof.
  intros Hslot. unfold readRow. cbv zeta. rewrite Hslot.
  change (NOT_FOUND =? -1)%Z with true. cbv iota.
  repeat match goal with
         | |- (if ?c then _ else _) = _ => destruct c; [done|]
         end.
  done.
Qed.

(** X4. A row that the loop skips leaves no trace: a missing row, a row
    that is too short, a row without a date or without a recognised time
    slot can be taken out of the grid without changing the summary. *)
Theorem skipped_row_leaves_no_trace (preamble : grid) (headers : row)
    (before after : grid) (r : option row) (monthYear : string) :
  Forall (fun r => isHeaderRow r = false) preamble ->
  isHeaderRow (Some headers) = true ->
  readRow (resolveColumns headers) r = None ->
  processViewerData (preamble ++ Some headers :: before ++ r :: after) monthYear
  = processViewerData (preamble ++ Some headers :: before ++ after) monthYear.
Proof.
  intros Hpreamble Hheader Hskip. apply processViewerData_rows; [done..|].
  rewrite !fold_left_app. cbn [fold_left].
  unfold processRow at 2. by rewrite Hskip.
Qed.

(** X5. Rows above the header row are ignored. *)
Theorem preamble_is_ignored (preamble : grid) (headers : row) (rows : grid)
    (monthYear : string) :
  Forall (fun r => isHeaderRow r = false) preamble ->
  isHeaderRow (Some headers) = true ->
  processViewerData (preamble ++ Some headers :: rows) monthYear
  = processViewerData (Some headers :: rows) monthYear.
Proof.
  intros Hpreamble Hheader. unfold processViewerData.
  rewrite (findIndex_header preamble headers rows Hpreamble Hheader).
  pose proof (findIndex_header [] headers rows (List.Forall_nil _) Hheader) as Hfirst.
  cbn [app length] in Hfirst. rewrite Hfirst.
  replace (Z.of_nat (length preamble) =? -1)%Z with false
    by (symmetry; apply Z.eqb_neq; lia).
  replace (Z.to_nat (Z.of_nat (length preamble) + 1)) with (S (length preamble)) by lia.
  rewrite Nat2Z.id, lookup_header, drop_header.
  reflexivity.
Qed.

Lemma processViewerData_peakDay (data : grid) (monthYear : string)
    (out : ProcessedMonthData.t) :
  processViewerData data monthYear = Ok out ->
  ProcessedMonthData.peakDay out
  = snd (if (0 <? length (ProcessedMonthData.days out))%nat
         then fold_left peakDayStep (ProcessedMonthData.days out) (Num 0, "")
         else (Num 0, "Geen data")).
Proof.
  unfold processViewerData. intros H.
  destruct (findIndex isHeaderRow data =? -1)%Z eqn:Hidx; [done|].
  destruct (data !! Z.to_nat (findIndex isHeaderRow data)) as [[headers|]|]; [|done..].
  destruct (month_ageGroups _) as [[total average]|] eqn:Hage; [|done].
  cbn [mbind result_bind] in H. injection H as <-.
  reflexivity.
Qed.

(** The running maximum of the day totals: it is the total of a day seen
    so far, or the start value, and no day seen so far exceeds it. *)
Lemma fold_peakDayStep (days : list DailyData.t) (start : number * string) :
  let best := fold_left peakDayStep days start in
  (best = start \/ exists day, day ∈ days
                     /\ best = (DailyData.totalViewers day, DailyData.date day))
  /\ (forall q, fst start = Num q -> exists q', fst best = Num q' /\ (q <= q')%Q)
  /\ (forall q, fst start = Num q ->
        forall day, day ∈ days -> num_gt (DailyData.totalViewers day) (fst best) = false).
Proof.
  cbv zeta. revert start. induction days as [|day days IH]; intros start.
  - cbn [fold_left]. split_and!; [by left| |by intros ? ? ? ?%elem_of_nil].
    intros q Hq. exists q. split; [done|apply Qle_refl].
  - cbn [fold_left]. destruct (IH (peakDayStep start day)) as (Hbest & Hgrow & Hmax).
    assert (forall q, fst start = Num q ->
              exists q1, fst (peakDayStep start day) = Num q1 /\ (q <= q1)%Q
                /\ num_gt (DailyData.totalViewers day) (Num q1) = false) as Hstep.
    { intros q Hq. unfold peakDayStep. rewrite Hq.
      destruct (DailyData.totalViewers day) as [|t] eqn:Ht; cbn [num_gt].
      - exists q. cbn [fst]. rewrite Hq. split_and!; [done|apply Qle_refl|done].
      - destruct (Qle_bool t q) eqn:Hle; cbn [negb fst].
        + exists q. rewrite Hq, Hle. split_and!; [done|apply Qle_refl|done].
        + exists t. split_and!; [done| |].
          * apply Qlt_le_weak, Qnot_le_lt. intros Hc%Qle_bool_iff. congruence.
          * assert (Qle_bool t t = true) as -> by apply Qle_bool_iff, Qle_refl. done. }
    split_and!.
    + destruct Hbest as [->|(d & Hd & ->)].
      * unfold peakDayStep. destruct (num_gt _ _); [|by left].
        right. exists day. split; [left|done].
      * right. exists d. split; [by right|done].
    + intros q Hq. destruct (Hstep q Hq) as (q1 & Hq1 & Hle & _).
      destruct (Hgrow q1 Hq1) as (q' & Hq' & Hle'). exists q'. split; [done|].
      by eapply Qle_trans.
    + intros q Hq d [->|Hd]%elem_of_cons.
      * destruct (Hstep q Hq) as (q1 & Hq1 & _ & Hday).
        destruct (Hgrow q1 Hq1) as (q' & Hq' & Hle'). rewrite Hq'.
        destruct (DailyData.totalViewers day) as [|t]; [done|].
        cbn [num_gt] in *. apply negb_false_iff, Qle_bool_iff.
        apply negb_false_iff, Qle_bool_iff in Hday. by eapply Qle_trans.
      * destruct (Hstep q Hq) as (q1 & Hq1 & _). by apply (Hmax q1).
Qed.

(** X6. The peak day of a month summary is ["Geen data"] when the summary
    has no days; otherwise it is the date of one of its days, and no day
    of the summary has a larger day total than that day. *)
Theorem peak_day_has_the_largest_total (data : grid) (monthYear : string)
    (out : ProcessedMonthData.t) :
  processViewerData data monthYear = Ok out ->
  (ProcessedMonthData.days out = [] /\ ProcessedMonthData.peakDay out = "Geen data")
  \/ exists peak,
       peak ∈ ProcessedMonthData.days out
       /\ ProcessedMonthData.peakDay out = DailyData.date peak
       /\ forall day, day ∈ ProcessedMonthData.days out ->
            num_gt (DailyData.totalViewers day) (DailyData.totalViewers peak) = false.
Proof.
  intros Hout. pose proof (processViewerData_peakDay _ _ _ Hout) as Hpeak.
  destruct (processViewerData_days _ _ _ Hout) as [_ Hsound].
  destruct (ProcessedMonthData.days out) as [|first days] eqn:Hdays; [by left|].
  right. cbn [length Nat.ltb Nat.leb] in Hpeak.
  destruct (fold_peakDayStep (first :: days) (Num 0, "")) as (Hbest & _ & Hmax).
  destruct Hbest as [Hstart|(peak & Hin & Hbest)].
  - exfalso. apply Forall_cons in Hsound as [(_ & Hpositive & _) _].
    specialize (Hmax 0%Q eq_refl first ltac:(left)).
    rewrite Hstart in Hmax. cbn [fst] in Hmax. congruence.
  - exists peak. split; [done|]. rewrite Hpeak, Hbest. split; [done|].
    intros day Hday. specialize (Hmax 0%Q eq_refl day Hday).
    by rewrite Hbest in Hmax.
Qed.

(** ** The hourly maxima *)

Lemma month_fold_max (days : list DailyData.t) (st : hourly) :
  h_max
    (fold_left (fun st day => Array_forEach month_hourStep (DailyData.hourlyViewers day) st)
       days st)
  = fold_left maxStep days (h_max st).
Proof.
  revert st. induction days as [|d days IH]; intros st; simpl; [done|].
  rewrite IH. unfold maxStep, Array_forEach. by rewrite month_hourStep_max.
Qed.

Lemma fold_maxStep_get (days : list DailyData.t) (acc : Array number) (j : nat)
    (x : number) :
  Array_get acc j = Some x ->
  Array_get (fold_left maxStep days acc) j = Some (maxOf j days x).
Proof.
  unfold maxOf. revert acc x. induction days as [|d days IH]; intros acc x Hx; [done|].
  cbn [fold_left]. apply IH. unfold maxStep.
  rewrite (Array_forEach_get (fun o v => Math_max (num_of_undef o) v)).
  rewrite Hx. by destruct (Array_get (DailyData.hourlyViewers d) j).
Qed.

Lemma month_hourly_max (days : list DailyData.t) (h : nat) :
  (h < 24)%nat ->
  h_max (month_hourly days) !! h = Some (Some (maxOf h days (Num 0))).
Proof.
  intros Hh. apply Array_get_Some. unfold month_hourly. cbn [h_max].
  rewrite month_fold_max. apply fold_maxStep_get. by apply hourly0_get.
Qed.

Lemma Math_max_Num (x y : Q) :
  exists q, Math_max (Num x) (Num y) = Num q
    /\ (x <= q)%Q /\ (y <= q)%Q /\ (q = x \/ q = y).
Proof.
  cbn [Math_max]. destruct (Qle_bool x y) eqn:Hle.
  - exists y. split_and!; [done|by apply Qle_bool_iff|apply Qle_refl|by right].
  - exists x. split_and!; [done|apply Qle_refl| |by left].
    apply Qlt_le_weak, Qnot_le_lt. intros Hc%Qle_bool_iff. congruence.
Qed.

(** Over days that hold a number for the hour, the maximum is a number:
    the start value or the number of one of the days, and no smaller than
    any of them. *)
Lemma maxOf_numbers (h : nat) (days : list DailyData.t) (x : Q) :
  (forall day, day ∈ days ->
     exists v, Array_get (DailyData.hourlyViewers day) h = Some (Num v)) ->
  exists q,
    maxOf h days (Num x) = Num q
    /\ (x <= q)%Q
    /\ (forall day v, day ∈ days ->
          Array_get (DailyData.hourlyViewers day) h = Some (Num v) -> (v <= q)%Q)
    /\ (q = x \/ exists day, day ∈ days
                    /\ Array_get (DailyData.hourlyViewers day) h = Some (Num q)).
Proof.
  unfold maxOf. revert x. induction days as [|d days IH]; intros x Hnum.
  - exists x. split_and!; [done|apply Qle_refl|by intros ? ? ?%elem_of_nil|by left].
  - cbn [fold_left]. destruct (Hnum d ltac:(left)) as [v Hv]. rewrite Hv.
    destruct (Math_max_Num x v) as (m & -> & Hxm & Hvm & Hm).
    destruct (IH m) as (q & Hq & Hmq & Hall & Hattained).
    { intros day Hday. apply Hnum. by right. }
    exists q. split_and!; [done|by eapply Qle_trans| |].
    + intros day w [->|Hday]%elem_of_cons Hw.
      * assert (w = v) as -> by congruence. by eapply Qle_trans.
      * by eapply Hall.
    + destruct Hattained as [->|(day & Hday & Hslot)].
      * destruct Hm as [->| ->]; [by left|]. right. exists d. split; [left|done].
      * right. exists day. split; [by right|done].
Qed.

(** X7. In a summary of either aggregation, for an hour at which every
    day holds a number, the maximum of the hour is a number that no day
    exceeds; it is 0 or the number of one of the days. *)
Theorem hourly_maximum :
  (forall data monthYear out h,
     processViewerData data monthYear = Ok out ->
     (h < 24)%nat ->
     (forall day, day ∈ ProcessedMonthData.days out ->
        exists v, DailyData.hourlyViewers day !! h = Some (Some (Num v))) ->
     exists q,
       ProcessedMonthData.maxViewersPerHour out !! h = Some (Some (Num q))
       /\ (forall day v, day ∈ ProcessedMonthData.days out ->
             DailyData.hourlyViewers day !! h = Some (Some (Num v)) -> (v <= q)%Q)
       /\ (q = 0%Q \/ exists day, day ∈ ProcessedMonthData.days out
                        /\ DailyData.hourlyViewers day !! h = Some (Some (Num q))))
  /\ (forall first second rest out h,
        aggregateMonthsData (Some (first :: second :: rest)) = Ok out ->
        (h < 24)%nat ->
        (forall day, day ∈ ProcessedMonthData.days out ->
           exists v, DailyData.hourlyViewers day !! h = Some (Some (Num v))) ->
        exists q,
          ProcessedMonthData.maxViewersPerHour out !! h = Some (Some (Num q))
          /\ (forall day v, day ∈ ProcessedMonthData.days out ->
                DailyData.hourlyViewers day !! h = Some (Some (Num v)) -> (v <= q)%Q)
          /\ (q = 0%Q \/ exists day, day ∈ ProcessedMonthData.days out
                           /\ DailyData.hourlyViewers day !! h = Some (Some (Num q)))).
Proof.
  assert (forall days h,
            (h < 24)%nat ->
            (forall day, day ∈ days ->
               exists v, DailyData.hourlyViewers day !! h = Some (Some (Num v))) ->
            exists q,
              h_max (month_hourly days) !! h = Some (Some (Num q))
              /\ (forall day v, day ∈ days ->
                    DailyData.hourlyViewers day !! h = Some (Some (Num v)) -> (v <= q)%Q)
              /\ (q = 0%Q \/ exists day, day ∈ days
                               /\ DailyData.hourlyViewers day !! h = Some (Some (Num q))))
    as Hmax.
  { intros days h Hh Hnum. destruct (maxOf_numbers h days 0) as (q & Hq & _ & Hall & Hatt).
    { intros day [v Hv]%Hnum. exists v. by apply Array_get_Some. }
    exists q. rewrite month_hourly_max, Hq by done. split_and!; [done| |].
    - intros day v Hday Hv%Array_get_Some. by eapply Hall.
    - destruct Hatt as [->|(day & Hday & Hslot%Array_get_Some)]; [by left|].
      right. by exists day. }
  split.
  - intros data monthYear out h
      (index & headers & _ & _ & _ & _ & _ & -> & _)%processViewerData_Ok. apply Hmax.
  - intros first second rest out h (_ & _ & _ & -> & _)%aggregateMonthsData_Ok.
    rewrite agg_hourly_eq. apply Hmax.
Qed.

(** ** The simulated age groups *)






(** ** The union of the days in [aggregateMonthsData] *)

Lemma unionDays_allDays (monthsData : list ProcessedMonthData.t) :
  unionDays monthsData
  = fold_left (fun allDaysMap day => Map_set allDaysMap (DailyData.date day) day)
      (allDays monthsData) [].
Proof.
  unfold unionDays, allDays. generalize (@nil (string * DailyData.t)).
  induction monthsData as [|s monthsData IH]; intros acc; [done|].
  cbn [fold_left fmap list_fmap concat]. by rewrite fold_left_app, IH.
Qed.

Lemma keyedByDate_set (daysMap : Map DailyData.t) (day : DailyData.t) :
  keyedByDate daysMap -> keyedByDate (Map_set daysMap (DailyData.date day) day).
Proof.
  intros [Hnd Hkeys]. split; [by apply NoDup_Map_set|].
  intros kv [->|?]%elem_of_Map_set; [done|by apply Hkeys].
Qed.

Lemma keyedByDate_elem (daysMap : Map DailyData.t) (day : DailyData.t) :
  keyedByDate daysMap ->
  day ∈ Map_values daysMap <-> Map_get daysMap (DailyData.date day) = Some day.
Proof.
  intros Hkeyed. split; [by apply keyedByDate_get|apply Map_get_values].
Qed.

Lemma fold_set_keyedByDate (days : list DailyData.t) (daysMap : Map DailyData.t) :
  keyedByDate daysMap ->
  keyedByDate
    (fold_left (fun allDaysMap day => Map_set allDaysMap (DailyData.date day) day)
       days daysMap).
Proof.
  revert daysMap. induction days as [|d days IH]; intros daysMap Hkeyed; [done|].
  cbn [fold_left]. by apply IH, keyedByDate_set.
Qed.

(** The days a map holds after the days of a list have been set one after
    the other: the last day of each date of the list, and the days of the
    map whose date the list does not have. *)
Lemma fold_set_elem (days : list DailyData.t) (daysMap : Map DailyData.t)
    (day : DailyData.t) :
  keyedByDate daysMap ->
  day ∈ Map_values
          (fold_left (fun allDaysMap day => Map_set allDaysMap (DailyData.date day) day)
             days daysMap)
  <-> lastOfItsDate day days
      \/ (day ∈ Map_values daysMap
          /\ Forall (fun later => DailyData.date later <> DailyData.date day) days).
Proof.
  unfold lastOfItsDate. revert daysMap.
  induction days as [|d days IH]; intros daysMap Hkeyed.
  - cbn [fold_left]. split.
    + intros Hday. right. by split.
    + intros [(before & after & Heq & _)|[Hday _]]; [|done].
      by destruct before.
  - cbn [fold_left]. rewrite IH by (by apply keyedByDate_set).
    rewrite (keyedByDate_elem (Map_set _ _ _)) by (by apply keyedByDate_set).
    rewrite Map_get_set, (keyedByDate_elem daysMap) by done.
    split.
    + intros [(before & after & -> & Hafter)|[Hget Hdays]].
      * left. by exists (d :: before), after.
      * destruct (String.eqb_spec (DailyData.date d) (DailyData.date day)) as [Heq|Hne].
        -- injection Hget as ->. left. by exists [], days.
        -- right. split; [done|]. by constructor.
    + intros [(before & after & Heq & Hafter)|[Hget Hdays]].
      * destruct before as [|b before]; cbn [app] in Heq; injection Heq as -> ->.
        -- right. split; [by rewrite String.eqb_refl|done].
        -- left. by exists before, after.
      * apply Forall_cons in Hdays as [Hd Hdays]. right. split; [|done].
        by destruct (String.eqb_spec (DailyData.date d) (DailyData.date day)).
Qed.

Lemma aggregateMonthsData_days (first second : ProcessedMonthData.t)
    (rest : list ProcessedMonthData.t) (out : ProcessedMonthData.t) :
  aggregateMonthsData (Some (first :: second :: rest)) = Ok out ->
  NoDup (DailyData.date <$> ProcessedMonthData.days out)
  /\ forall day,
       day ∈ ProcessedMonthData.days out
       <-> lastOfItsDate day (allDays (first :: second :: rest)).
Proof.
  intros (Hdays & _)%aggregateMonthsData_Ok.
  set (monthsData := first :: second :: rest) in *.
  assert (ProcessedMonthData.days out ≡ₚ Map_values (unionDays monthsData)) as Hperm
    by (rewrite Hdays; apply Array_sort_Permutation).
  assert (keyedByDate (@nil (string * DailyData.t))) as Hnil
    by (split; [constructor|by intros ? ?%elem_of_nil]).
  split.
  - rewrite Hperm, unionDays_allDays.
    rewrite keyedByDate_dates by (by apply fold_set_keyedByDate).
    by apply fold_set_keyedByDate.
  - intros day. rewrite Hperm, unionDays_allDays, fold_set_elem by done.
    split; [|by left]. intros [?|[Hday%elem_of_nil _]]; done.
Qed.

(** X9. The days of a combined summary are the union of the days of the
    inputs by date: exactly the days that are the last of their date in
    the inputs, taken in order; so the dates are pairwise distinct, and of
    two input days with the same date the later one replaces the
    earlier. *)
Theorem combined_days_are_the_union (first second : ProcessedMonthData.t)
    (rest : list ProcessedMonthData.t) (out : ProcessedMonthData.t) :
  aggregateMonthsData (Some (first :: second :: rest)) = Ok out ->
  NoDup (DailyData.date <$> ProcessedMonthData.days out)
  /\ forall day,
       day ∈ ProcessedMonthData.days out
       <-> lastOfItsDate day (allDays (first :: second :: rest)).
Proof. apply aggregateMonthsData_days. Qed.






(** ** What the back-fill leaves alone *)

Lemma backfilled_untouched (current next : ProgramData.t) :
  untouched (backfilled current next) = untouched current
  /\ ProgramData.sequence (backfilled current next) = ProgramData.sequence current
  /\ ProgramData.notes (backfilled current next) = ProgramData.notes current
  /\ (opt_num_truthy (ProgramData.duration current) = true ->
      ProgramData.duration (backfilled current next) = ProgramData.duration current).
Proof.
  unfold backfilled, siblingDefault, endAtNext.
  destruct (sameSlotSibling current next).
  - destruct (opt_num_truthy (ProgramData.duration current)) eqn:Hd; cbn [negb]; [done|].
    destruct (splitTime _) as [startHour startMinute].
    by destruct (num_ge _ _).
  - cbn [set_endTime ProgramData.duration ProgramData.startTime].
    destruct (opt_num_truthy (ProgramData.duration current)) eqn:Hd; cbn [negb andb];
      [done|].
    destruct (_ && _); [|done].
    destruct (splitTime (ProgramData.startTime current)) as [startHour startMinute].
    by destruct (splitTime (ProgramData.startTime next)) as [endHour endMinute].
Qed.

Lemma finishLast_untouched (lastProgram r : ProgramData.t) :
  finishLast lastProgram = Ok r ->
  untouched r = untouched lastProgram
  /\ ProgramData.sequence r = ProgramData.sequence lastProgram
  /\ ProgramData.notes r = ProgramData.notes lastProgram
  /\ (opt_num_truthy (ProgramData.duration lastProgram) = true ->
      ProgramData.duration r = ProgramData.duration lastProgram).
Proof.
  unfold finishLast.
  destruct (opt_num_truthy (ProgramData.duration lastProgram)) eqn:Hd,
    (opt_string_truthy (ProgramData.endTime lastProgram)) eqn:He;
    cbn [andb negb].
  - intros [= <-]. by split_and!.
  - destruct (splitTime (ProgramData.startTime lastProgram)) as [startHour startMinute].
    intros [= <-]. by split_and!.
  - intros [= <-]. by split_and!.
  - cbn [set_duration ProgramData.startTime].
    destruct (splitTime (ProgramData.startTime lastProgram)) as [startHour [startMinute|]];
      [|done].
    intros [= <-]. by split_and!.
Qed.

Lemma fmap_alter_same {A B} (f : A -> B) (g : A -> A) (i : nat) (l : list A) :
  (forall x, f (g x) = f x) -> f <$> alter g i l = f <$> l.
Proof.
  intros Hfg. revert i. induction l as [|x l IH]; intros [|i]; csimpl; [done..| |].
  - by rewrite Hfg.
  - by rewrite IH.
Qed.

Lemma assignSequences_untouched (programs : list ProgramData.t) :
  untouched <$> assignSequences programs = untouched <$> programs.
Proof.
  unfold assignSequences. generalize (groupBySlot programs) as groups.
  intros groups. revert programs.
  induction groups as [|[key timePrograms] groups IH]; intros programs; [done|].
  cbn [fold_left]. rewrite IH.
  destruct (1 <? length timePrograms)%nat; [|done].
  generalize (length timePrograms) as count.
  generalize (imap (fun index pos : nat => (index, pos)) timePrograms) as places.
  intros places count. revert programs.
  induction places as [|[index pos] places IHp]; intros programs; [done|].
  cbn [fold_left]. rewrite IHp. by apply fmap_alter_same.
Qed.

Lemma calculateEndTimes_day_untouched (programs result : list ProgramData.t) :
  calculateEndTimes_day programs = Ok result ->
  let sorted := Array_sort comparePrograms (assignSequences programs) in
  forall i p,
    sorted !! i = Some p ->
    exists r,
      result !! i = Some r
      /\ untouched r = untouched p
      /\ ProgramData.sequence r = ProgramData.sequence p
      /\ ProgramData.notes r = ProgramData.notes p
      /\ (opt_num_truthy (ProgramData.duration p) = true ->
          ProgramData.duration r = ProgramData.duration p).
Proof.
  intros (sorted & -> & Hlen & Hget)%calculateEndTimes_day_Ok. cbv zeta.
  intros i p Hp. specialize (Hget i p Hp).
  destruct (Array_sort comparePrograms (assignSequences programs) !! S i) as [next|].
  - eexists. split; [done|]. apply backfilled_untouched.
  - destruct Hget as (r & Hfinish & Hr). exists r. split; [done|].
    by apply finishLast_untouched.
Qed.

(** X11. The back-fill of a day only annotates: the programs it returns
    are the programs it was given, up to their order and up to their end
    time, duration, sequence and notes; and in the sorted order it neither
    changes the sequence or the notes of a program nor replaces a duration
    that the program has. *)
Theorem backfill_only_annotates (programs result : list ProgramData.t) :
  calculateEndTimes_day programs = Ok result ->
  untouched <$> result ≡ₚ untouched <$> programs
  /\ let sorted := Array_sort comparePrograms (assignSequences programs) in
     forall i p,
       sorted !! i = Some p ->
       exists r,
         result !! i = Some r
         /\ ProgramData.sequence r = ProgramData.sequence p
         /\ ProgramData.notes r = ProgramData.notes p
         /\ (opt_num_truthy (ProgramData.duration p) = true ->
             ProgramData.duration r = ProgramData.duration p).
Proof.
  intros Hresult. pose proof (calculateEndTimes_day_untouched _ _ Hresult) as Hsame.
  apply calculateEndTimes_day_Ok in Hresult as (sorted & -> & Hlen & _).
  cbv zeta in *. split.
  - rewrite <- (assignSequences_untouched programs).
    rewrite <- (Array_sort_Permutation _ comparePrograms (assignSequences programs)).
    assert (untouched <$> result
            = untouched <$> Array_sort comparePrograms (assignSequences programs)) as ->;
      [|done].
    apply list_eq. intros i. rewrite !list_lookup_fmap.
    destruct (Array_sort comparePrograms (assignSequences programs) !! i) as [p|] eqn:Hp.
    + destruct (Hsame i p Hp) as (r & Hr & Hu & _). rewrite Hr. simpl. by rewrite Hu.
    + apply lookup_ge_None in Hp. rewrite <- Hlen in Hp.
      by apply lookup_ge_None in Hp as ->.
  - intros i p Hp. destruct (Hsame i p Hp) as (r & Hr & _ & Hrest). by exists r.
Qed.

(** ** The back-fill of a whole schedule *)

Lemma calculateEndTimes_fold_Throw (days : Map (list ProgramData.t)) (e : exn) :
  fold_left
    (fun done '(date, programs) =>
       done ← done;
       programs ← calculateEndTimes_day programs;
       Ok (done ++ [(date, programs)]))
    days (Throw e)
  = Throw e.
Proof. induction days as [|[date programs] days IH]; [done|]. exact IH. Qed.

Lemma calculateEndTimes_fold (days done : Map (list ProgramData.t)) :
  match
    fold_left
      (fun done '(date, programs) =>
         done ← done;
         programs ← calculateEndTimes_day programs;
         Ok (done ++ [(date, programs)]))
      days (Ok done)
  with
  | Ok out =>
      exists days',
        out = done ++ days'
        /\ Forall2 (fun kv kv' => fst kv' = fst kv /\ calculateEndTimes_day (snd kv) = Ok (snd kv'))
             days days'
  | Throw e => exists kv, kv ∈ days /\ calculateEndTimes_day (snd kv) = Throw e
  end.
Proof.
  revert done. induction days as [|[date programs] days IH]; intros done.
  - cbn [fold_left]. exists []. split; [by rewrite app_nil_r|constructor].
  - cbn [fold_left mbind result_bind].
    destruct (calculateEndTimes_day programs) as [result|e] eqn:Hday;
      cbn [mbind result_bind].
    + specialize (IH (done ++ [(date, result)])).
      destruct (fold_left _ days _) as [out|e].
      * destruct IH as (days' & -> & Hdays). exists ((date, result) :: days').
        split; [by rewrite <- app_assoc|]. by constructor.
      * destruct IH as (kv & Hkv & Hthrow). exists kv. split; [by right|done].
    + rewrite calculateEndTimes_fold_Throw. exists (date, programs). split; [left|done].
Qed.

(** X12. The back-fill of a schedule works day by day: when it returns,
    the week number and the year are unchanged and the days are the days
    it was given, under their keys and in their order, each with the
    programs that the back-fill of a day returns; when it throws, the
    back-fill of one of the days throws that exception; and it returns
    when every start time has its minutes. *)
Theorem schedule_backfill_by_day (data : ScheduleData.t) :
  (forall out,
     calculateEndTimes data = Ok out ->
     ScheduleData.weekNumber out = ScheduleData.weekNumber data
     /\ ScheduleData.year out = ScheduleData.year data
     /\ Forall2
          (fun kv kv' => fst kv' = fst kv /\ calculateEndTimes_day (snd kv) = Ok (snd kv'))
          (ScheduleData.days data) (ScheduleData.days out))
  /\ (forall e,
        calculateEndTimes data = Throw e ->
        exists kv, kv ∈ ScheduleData.days data /\ calculateEndTimes_day (snd kv) = Throw e)
  /\ (Forall (fun kv => Forall hasMinutes (snd kv)) (ScheduleData.days data) ->
      exists out, calculateEndTimes data = Ok out).
Proof.
  unfold calculateEndTimes.
  pose proof (calculateEndTimes_fold (ScheduleData.days data) []) as Hfold.
  destruct (fold_left _ (ScheduleData.days data) (Ok [])) as [days|e];
    cbn [mbind result_bind].
  - destruct Hfold as (days' & -> & Hdays). split_and!; [|done|by eexists].
    intros out [= <-]. by split_and!.
  - destruct Hfold as (kv & Hkv & Hthrow). split_and!; [done| |].
    + intros e' [= <-]. by exists kv.
    + intros Hall. exfalso.
      destruct (calculateEndTimes_day_returns (snd kv)) as [result Hresult]; [|congruence].
      by apply (proj1 (Forall_forall _ _) Hall kv).
Qed.

(** ** The two stores of [storage.ts] *)

Lemma Map_get_removeItem (localStorage : Storage) (key key' : string) :
  Map_get (localStorage_removeItem localStorage key) key'
  = if String.eqb key key' then None else Map_get localStorage key'.
Proof.
  induction localStorage as [|[k text] rest IH]; cbn [localStorage_removeItem Map_get].
  - by destruct (String.eqb key key').
  - destruct (String.eqb k key) eqn:Hk.
    + apply String.eqb_eq in Hk as ->. rewrite IH.
      by destruct (String.eqb key key').
    + cbn [Map_get]. rewrite IH.
      destruct (String.eqb key key') eqn:Hkk; [|done].
      apply String.eqb_eq in Hkk. rewrite <- Hkk. by rewrite Hk.
Qed.

Lemma saveProgramData_get (data : ScheduleData.t) (localStorage : Storage) (key : string) :
  Map_get (saveProgramData data localStorage) key
  = if localStorage_accepts localStorage PROGRAM_DATA_KEY (serializable data)
       && String.eqb PROGRAM_DATA_KEY key
    then Some (serializable data) else Map_get localStorage key.
Proof.
  unfold saveProgramData, localStorage_setItem.
  destruct (localStorage_accepts _ _ _); [|done]. cbn [andb]. apply Map_get_set.
Qed.

Lemma saveProcessedData_get (data : list ProcessedMonthData.t) (localStorage : Storage)
    (key : string) :
  Map_get (saveProcessedData data localStorage) key
  = if localStorage_accepts localStorage VIEWER_DATA_KEY
         (JArray (List.map month_to_json data))
       && String.eqb VIEWER_DATA_KEY key
    then Some (JArray (List.map month_to_json data)) else Map_get localStorage key.
Proof.
  unfold saveProcessedData, localStorage_setItem.
  destruct (localStorage_accepts _ _ _); [|done]. cbn [andb]. apply Map_get_set.
Qed.

(** X13. The two stores are kept apart: saving a schedule does not change
    what is loaded as viewer data, and saving viewer data does not change
    what is loaded as the schedule. *)
Theorem stores_are_kept_apart (schedule : ScheduleData.t)
    (months : list ProcessedMonthData.t) (localStorage : Storage) :
  loadProcessedData (saveProgramData schedule localStorage)
  = loadProcessedData localStorage
  /\ loadProgramData (saveProcessedData months localStorage)
     = loadProgramData localStorage.
Proof.
  unfold loadProcessedData, loadProgramData.
  rewrite saveProgramData_get, saveProcessedData_get.
  replace (String.eqb PROGRAM_DATA_KEY VIEWER_DATA_KEY) with false by done.
  replace (String.eqb VIEWER_DATA_KEY PROGRAM_DATA_KEY) with false by done.
  by rewrite !andb_false_r.
Qed.

(** X14. After the stored data has been cleared, nothing is loaded any
    more: the viewer data is the empty array and the schedule is [null],
    whatever the storage held. *)
Theorem cleared_storage_is_empty (localStorage : Storage) :
  loadProcessedData (clearProcessedData localStorage) = JArray []
  /\ loadProgramData (clearProcessedData localStorage) = None.
Proof.
  unfold loadProcessedData, loadProgramData, clearProcessedData.
  rewrite !Map_get_removeItem.
  replace (String.eqb PROGRAM_DATA_KEY VIEWER_DATA_KEY) with false by done.
  by rewrite !String.eqb_refl.
Qed.

(** X15. What is loaded after a save depends on the saved schedule alone
    when the storage accepts it, and is what was loaded before when the
    storage refuses it: an earlier save is replaced as a whole, and a
    failed save leaves the earlier data in place. *)
Theorem last_accepted_save_is_loaded (schedule : ScheduleData.t) (localStorage : Storage) :
  loadProgramData (saveProgramData schedule localStorage)
  = if localStorage_accepts localStorage PROGRAM_DATA_KEY (serializable schedule)
    then loadProgramData [(PROGRAM_DATA_KEY, serializable schedule)]
    else loadProgramData localStorage.
Proof.
  unfold loadProgramData at 1. rewrite saveProgramData_get, String.eqb_refl, andb_true_r.
  destruct (localStorage_accepts _ _ _); [|done].
  unfold loadProgramData. cbn [Map_get]. by rewrite String.eqb_refl.
Qed.

(** ** The cells of a CSV line *)

Lemma append_cons (c : ascii) (s t : string) : String c s +:+ t = String c (s +:+ t).
Proof. reflexivity. Qed.

Lemma append_nil_l (t : string) : "" +:+ t = t.
Proof. reflexivity. Qed.

Lemma append_nil_r (s : string) : s +:+ "" = s.
Proof. induction s as [|c s IH]; [done|]. by rewrite append_cons, IH. Qed.

Lemma append_assoc (s t u : string) : (s +:+ t) +:+ u = s +:+ (t +:+ u).
Proof. induction s as [|c s IH]; [done|]. by rewrite !append_cons, IH. Qed.

Lemma chars_append (s t : string) : chars (s +:+ t) = chars s ++ chars t.
Proof.
  unfold chars. induction s as [|c s IH]; [done|].
  rewrite append_cons. cbn [list_ascii_of_string app]. by rewrite IH.
Qed.

(** A line without double quotes is split at its commas, and the parts
    are trimmed. *)
Lemma parseCsvRow_from_unquoted (line cell : string) (result : list string) :
  quote ∉ chars line ->
  parseCsvRow_from line cell false result
  = result ++ (String_trim <$> String_split_from "," cell line).
Proof.
  revert cell result. induction line as [|c line IH]; intros cell result Hq; [done|].
  cbn [parseCsvRow_from String_split_from].
  apply not_elem_of_cons in Hq as [Hc Hq].
  destruct (Ascii.eqb_spec c quote) as [->|_]; [done|].
  destruct (Ascii.eqb c ","); cbn [andb negb].
  - rewrite IH by done. csimpl. by rewrite <- app_assoc.
  - by apply IH.
Qed.

(** Inside double quotes every character but the quote joins the cell. *)
Lemma parseCsvRow_from_inside (inner cell rest : string) (result : list string) :
  quote ∉ chars inner ->
  parseCsvRow_from (inner +:+ String quote rest) cell true result
  = parseCsvRow_from rest (cell +:+ inner) false result.
Proof.
  revert cell. induction inner as [|c inner IH]; intros cell Hq.
  - rewrite append_nil_l. cbn [parseCsvRow_from negb]. rewrite Ascii.eqb_refl.
    by rewrite append_nil_r.
  - apply not_elem_of_cons in Hq as [Hc Hq].
    rewrite append_cons. cbn [parseCsvRow_from].
    destruct (Ascii.eqb_spec c quote) as [->|_]; [done|].
    rewrite andb_false_r, IH by done. by rewrite append_assoc.
Qed.

Lemma concat_cons2 (sep first second : string) (rest : list string) :
  String.concat sep (first :: second :: rest)
  = first +:+ sep +:+ String.concat sep (second :: rest).
Proof. reflexivity. Qed.

Lemma parseCsvRow_from_quoted (cells : list string) (cell : string)
    (result : list string) :
  Forall (fun cell => quote ∉ chars cell) (cell :: cells) ->
  parseCsvRow_from (String.concat "," (quoted <$> cell :: cells)) EmptyString false result
  = result ++ (String_trim <$> cell :: cells).
Proof.
  revert cell result. induction cells as [|next cells IH]; intros cell result Hq;
    apply Forall_cons in Hq as [Hcell Hq].
  - cbn [fmap list_fmap String.concat]. unfold quoted.
    cbn [parseCsvRow_from negb]. rewrite Ascii.eqb_refl.
    rewrite parseCsvRow_from_inside by done. by rewrite append_nil_l.
  - rewrite !fmap_cons, concat_cons2. unfold quoted at 1.
    rewrite append_cons. cbn [parseCsvRow_from negb]. rewrite Ascii.eqb_refl.
    rewrite append_assoc, append_cons, append_nil_l.
    rewrite parseCsvRow_from_inside by done.
    rewrite append_cons, !append_nil_l. cbn [parseCsvRow_from].
    replace (Ascii.eqb "," quote) with false by done.
    rewrite Ascii.eqb_refl. cbn [andb negb].
    rewrite <- fmap_cons, IH by done.
    by rewrite <- app_assoc.
Qed.

(** X16. Reading back a line of quoted cells: for cells that hold no
    double quote (commas are allowed), the line of the cells written
    between double quotes and joined by commas is parsed to the trimmed
    cells. *)
Theorem quoted_cells_are_read_back (cell : string) (cells : list string) :
  Forall (fun cell => quote ∉ chars cell) (cell :: cells) ->
  parseCsvRow (String.concat "," (quoted <$> cell :: cells))
  = String_trim <$> cell :: cells.
Proof. intros Hq. unfold parseCsvRow. by rewrite parseCsvRow_from_quoted. Qed.

(** X17. A line without double quotes is split at every comma, and each
    part is trimmed. *)
Theorem unquoted_line_is_split (line : string) :
  quote ∉ chars line ->
  parseCsvRow line = String_trim <$> String_split "," line.
Proof. intros Hq. unfold parseCsvRow. by rewrite parseCsvRow_from_unquoted. Qed.

Lemma String_trimStart_sublist (s : string) :
  chars (String_trimStart s) `sublist_of` chars s.
Proof.
  unfold chars. induction s as [|c s IH]; [done|].
  cbn [String_trimStart]. destruct (is_whitespace c); [|done].
  cbn [list_ascii_of_string]. by apply sublist_cons.
Qed.

Lemma String_trimEnd_sublist (s : string) :
  chars (String_trimEnd s) `sublist_of` chars s.
Proof.
  unfold chars. induction s as [|c s IH]; [done|].
  cbn [String_trimEnd list_ascii_of_string].
  destruct (String_trimEnd s) as [|d rest].
  - destruct (is_whitespace c).
    + apply sublist_nil_l.
    + apply sublist_skip, sublist_nil_l.
  - by apply sublist_skip.
Qed.

Lemma String_trim_sublist (s : string) : chars (String_trim s) `sublist_of` chars s.
Proof.
  unfold String_trim. etrans; [apply String_trimEnd_sublist|apply String_trimStart_sublist].
Qed.

Lemma String_trimEnd_idem (s : string) :
  String_trimEnd (String_trimEnd s) = String_trimEnd s.
Proof.
  induction s as [|c s IH]; [done|]. cbn [String_trimEnd].
  destruct (String_trimEnd s) as [|d rest] eqn:Hrest.
  - destruct (is_whitespace c) eqn:Hc; [done|]. cbn [String_trimEnd]. by rewrite Hc.
  - cbn [String_trimEnd] in *. by rewrite IH.
Qed.

Lemma String_trimStart_head (s : string) :
  match String_trimStart s with
  | String c _ => is_whitespace c = false
  | EmptyString => True
  end.
Proof.
  induction s as [|c s IH]; [done|]. cbn [String_trimStart].
  by destruct (is_whitespace c) eqn:Hc.
Qed.

Lemma String_trimEnd_head (c : ascii) (s : string) :
  is_whitespace c = false -> exists rest, String_trimEnd (String c s) = String c rest.
Proof.
  intros Hc. cbn [String_trimEnd]. destruct (String_trimEnd s); rewrite ?Hc; by eexists.
Qed.

(** [trim] leaves a trimmed string as it is. *)
Lemma String_trim_idem (s : string) : String_trim (String_trim s) = String_trim s.
Proof.
  unfold String_trim. pose proof (String_trimStart_head s) as Hhead.
  destruct (String_trimStart s) as [|c rest]; [done|].
  destruct (String_trimEnd_head c rest Hhead) as [rest' Hrest]. rewrite Hrest.
  cbn [String_trimStart]. rewrite Hhead, <- Hrest. apply String_trimEnd_idem.
Qed.

Lemma parseCsvRow_from_clean (line cell : string) (inQuotes : bool)
    (result : list string) :
  quote ∉ chars cell ->
  Forall (fun cell => String_trim cell = cell /\ quote ∉ chars cell) result ->
  parseCsvRow_from line cell inQuotes result <> []
  /\ Forall (fun cell => String_trim cell = cell /\ quote ∉ chars cell)
       (parseCsvRow_from line cell inQuotes result).
Proof.
  assert (forall cell result,
            quote ∉ chars cell ->
            Forall (fun cell => String_trim cell = cell /\ quote ∉ chars cell) result ->
            Forall (fun cell => String_trim cell = cell /\ quote ∉ chars cell)
              (result ++ [String_trim cell])) as Hpush.
  { intros cell' result' Hq Hall. apply Forall_app. split; [done|].
    constructor; [|constructor]. split; [apply String_trim_idem|].
    intros Hin. apply Hq. eapply elem_of_sublist; [exact Hin|apply String_trim_sublist]. }
  revert cell inQuotes result. induction line as [|c line IH]; intros cell inQuotes result Hq Hall.
  - cbn [parseCsvRow_from]. split; [by destruct result|by apply Hpush].
  - cbn [parseCsvRow_from]. destruct (Ascii.eqb_spec c quote) as [->|Hc]; [by apply IH|].
    destruct (Ascii.eqb c "," && negb inQuotes).
    + apply IH; [by intros ?%elem_of_nil|by apply Hpush].
    + apply IH; [|done]. rewrite chars_append. intros [?|Hin]%elem_of_app; [done|].
      apply elem_of_cons in Hin as [Heq|?%elem_of_nil]; [congruence|done].
Qed.

(** X18. Every line has at least one cell, and the cells of a line are
    clean: each is trimmed, and none holds a double quote. *)
Theorem cells_are_clean (line : string) :
  parseCsvRow line <> []
  /\ Forall (fun cell => String_trim cell = cell /\ quote ∉ chars cell)
       (parseCsvRow line).
Proof. apply parseCsvRow_from_clean; [by intros ?%elem_of_nil|constructor]. Qed.

(** ** Times *)

Lemma String_includes_append (s t : string) (c : ascii) :
  String_includes (s +:+ String c t) (String c EmptyString) = true.
Proof.
  induction s as [|d s IH].
  - rewrite append_nil_l. cbn [String_includes String.prefix].
    destruct (ascii_dec c c); [|done]. by destruct t.
  - rewrite append_cons. cbn [String_includes]. rewrite IH. apply orb_true_r.
Qed.

Lemma String_includes_absent (s : string) (c : ascii) :
  c ∉ chars s -> String_includes s (String c EmptyString) = false.
Proof.
  unfold chars. induction s as [|d s IH]; [done|].
  cbn [list_ascii_of_string]. intros [Hd Hs]%not_elem_of_cons.
  cbn [String_includes String.prefix]. rewrite IH by done.
  destruct (ascii_dec c d); [done|]. done.
Qed.

Lemma String_split_from_append (sep : ascii) (cur s t : string) :
  sep ∉ chars s ->
  String_split_from sep cur (s +:+ String sep t)
  = (cur +:+ s) :: String_split_from sep EmptyString t.
Proof.
  unfold chars. revert cur. induction s as [|d s IH]; intros cur Hs.
  - rewrite append_nil_l, append_nil_r. cbn [String_split_from].
    by rewrite Ascii.eqb_refl.
  - cbn [list_ascii_of_string] in Hs. apply not_elem_of_cons in Hs as [Hd Hs].
    rewrite append_cons. cbn [String_split_from].
    destruct (Ascii.eqb_spec d sep) as [->|_]; [done|].
    rewrite IH by done. by rewrite append_assoc, append_cons, append_nil_l.
Qed.

Lemma String_split_from_absent (sep : ascii) (cur s : string) :
  sep ∉ chars s -> String_split_from sep cur s = [cur +:+ s].
Proof.
  unfold chars. revert cur. induction s as [|d s IH]; intros cur Hs.
  - by rewrite append_nil_r.
  - cbn [list_ascii_of_string] in Hs. apply not_elem_of_cons in Hs as [Hd Hs].
    cbn [String_split_from]. destruct (Ascii.eqb_spec d sep) as [->|_]; [done|].
    rewrite IH by done. by rewrite append_assoc, append_cons, append_nil_l.
Qed.

(** The two parts of a time written with the separator [sep]. *)
Lemma String_split_two (sep : ascii) (hours minutes : string) :
  sep ∉ chars hours -> sep ∉ chars minutes ->
  String_split sep (hours +:+ String sep minutes) = [hours; minutes].
Proof.
  intros Hh Hm. unfold String_split.
  rewrite String_split_from_append, String_split_from_absent by done.
  by rewrite !append_nil_l.
Qed.

Lemma append_not_empty (s t : string) (c : ascii) : s +:+ String c t <> "".
Proof. by destruct s. Qed.

Lemma includes_other (hours minutes : string) (sep c : ascii) :
  c <> sep -> c ∉ chars hours -> c ∉ chars minutes ->
  String_includes (hours +:+ String sep minutes) (String c EmptyString) = false.
Proof.
  intros Hne Hh Hm. apply String_includes_absent.
  rewrite chars_append. unfold chars at 2. cbn [list_ascii_of_string].
  intros [?|Hin]%elem_of_app; [done|].
  by apply elem_of_cons in Hin as [?|?].
Qed.

Lemma plainPart_absent (s : string) :
  plainPart s ->
  (","%char ∉ chars s) /\ ("."%char ∉ chars s) /\ (":"%char ∉ chars s).
Proof.
  intros Hs. split_and!; intros Hin;
    destruct (proj1 (Forall_forall _ _) Hs _ Hin) as (? & ? & ?); done.
Qed.

Lemma separators_alike (hours minutes : string) :
  plainPart hours -> plainPart minutes ->
  normalizeTimeFormat (hours +:+ "," +:+ minutes) = Ok (normalTime hours minutes)
  /\ normalizeTimeFormat (hours +:+ ":" +:+ minutes) = Ok (normalTime hours minutes)
  /\ (minutes <> "" ->
      normalizeTimeFormat (hours +:+ "." +:+ minutes) = Ok (normalTime hours minutes)).
Proof.
  intros (Hhc & Hhd & Hhk)%plainPart_absent (Hmc & Hmd & Hmk)%plainPart_absent.
  rewrite !append_cons, !append_nil_l. unfold normalizeTimeFormat, normalTime.
  split_and!.
  - destruct (String.eqb_spec (hours +:+ String "," minutes) "") as [He|_];
      [by apply append_not_empty in He|].
    rewrite String_includes_append, String_split_two by done. done.
  - destruct (String.eqb_spec (hours +:+ String ":" minutes) "") as [He|_];
      [by apply append_not_empty in He|].
    rewrite (includes_other _ _ ":" ","), (includes_other _ _ ":" ".") by done.
    rewrite String_includes_append, String_split_two by done. done.
  - intros Hminutes.
    destruct (String.eqb_spec (hours +:+ String "." minutes) "") as [He|_];
      [by apply append_not_empty in He|].
    rewrite (includes_other _ _ "." ",") by done.
    rewrite String_includes_append, String_split_two by done.
    cbn [lookup list_lookup default]. by destruct (String.eqb_spec minutes "").
Qed.

(** X19. A time is normalised in the same way whichever of the three
    separators it is written with: for hours and minutes that hold none of
    [,], [.] and [:], the comma form, the colon form and, when there are
    minutes, the dot form all give the wrapped hours and the minutes, each
    padded to two characters, with a colon between them. *)
Theorem separators_are_alike (hours minutes : string) :
  plainPart hours -> plainPart minutes ->
  normalizeTimeFormat (hours +:+ "," +:+ minutes) = Ok (normalTime hours minutes)
  /\ normalizeTimeFormat (hours +:+ ":" +:+ minutes) = Ok (normalTime hours minutes)
  /\ (minutes <> "" ->
      normalizeTimeFormat (hours +:+ "." +:+ minutes) = Ok (normalTime hours minutes)).
Proof. apply separators_alike. Qed.

(** X20. [normalizeTimeFormat] never throws: a time that holds a
    separator has a second part. *)
Theorem normalizeTimeFormat_returns (timeStr : string) :
  exists time, normalizeTimeFormat timeStr = Ok time.
Proof.
  unfold normalizeTimeFormat.
  destruct (String.eqb timeStr ""); [by eexists|].
  destruct (String_includes timeStr ",") eqn:Hcomma.
  { destruct (String_split_from_includes "," "" timeStr Hcomma) as (h & m & rest & Hsplit).
    unfold String_split. rewrite Hsplit. by eexists. }
  destruct (String_includes timeStr "."); [by eexists|].
  destruct (String_includes timeStr ":") eqn:Hcolon.
  { destruct (String_split_from_includes ":" "" timeStr Hcolon) as (h & m & rest & Hsplit).
    unfold String_split. rewrite Hsplit. by eexists. }
  destruct (Number_of_string timeStr); by eexists.
Qed.

Lemma is_digit_not_whitespace (c : ascii) : is_digit c = true -> is_whitespace c = false.
Proof.
  unfold is_digit, is_whitespace. intros [H1 H2]%andb_true_iff.
  apply Nat.leb_le in H1, H2. cbv zeta.
  repeat match goal with
         | |- context [(?a <=? ?b)%nat] => destruct (Nat.leb_spec a b)
         | |- context [(?a =? ?b)%nat] => destruct (Nat.eqb_spec a b)
         end; try done; lia.
Qed.

(** [parseInt] of a string of digits is the number the digits spell. *)
Lemma parseInt10_digits (s : string) :
  s <> "" -> all_digits s = true -> parseInt10 s = num_of_Z (parseInt s).
Proof.
  intros Hne Hdigits. destruct s as [|c s]; [done|].
  unfold all_digits in Hdigits. cbn [list_ascii_of_string forallb] in Hdigits.
  apply andb_true_iff in Hdigits as [Hc _].
  unfold parseInt10. cbn [String_trimStart]. rewrite (is_digit_not_whitespace c Hc).
  assert (c <> "-"%char /\ c <> "+"%char) as [Hminus Hplus]
    by (split; intros ->; done).
  destruct (ascii_dec c "-") as [?|_]; [done|].
  destruct (ascii_dec c "+") as [?|_]; [done|].
  assert (match String c s with
          | String "-" rest => (true, rest)
          | String "+" rest => (false, rest)
          | _ => (false, String c s)
          end = (false, String c s)) as ->.
  { destruct c as [[] [] [] [] [] [] [] []]; done. }
  by rewrite Hc.
Qed.

Lemma num_rem_24 (v : Z) :
  (0 <= v)%Z -> num_rem (num_of_Z v) (Num 24) = num_of_Z (v mod 24).
Proof.
  intros Hv. unfold num_rem, num_of_Z. change (Qeq_bool 24 0) with false. cbv iota.
  f_equal. unfold Qtrunc.
  assert (Qle_bool 0 (inject_Z v / 24) = true) as ->.
  { apply Qle_bool_iff. unfold Qle, Qdiv, Qmult, Qinv, inject_Z. cbn. lia. }
  unfold Qfloor, Qdiv, Qmult, Qinv, inject_Z, Qminus, Qplus, Qopp. cbn [Qnum Qden].
  change (1 * 24)%positive with 24%positive. change (1 * (1 * 1))%positive with 1%positive.
  f_equal. change (Z.pos (1 * 1)) with 1%Z. rewrite !Z.mul_1_r.
  rewrite (Z.mod_eq v 24) by lia. lia.
Qed.

Lemma wrapHours_digits (hours : string) :
  hours <> "" -> all_digits hours = true ->
  wrapHours hours = num_of_Z (parseInt hours mod 24).
Proof.
  intros Hne Hdigits. unfold wrapHours. rewrite parseInt10_digits by done.
  pose proof (parseInt_nonneg hours) as Hv.
  unfold num_ge, num_of_Z at 1.
  destruct (Qle_bool 24 (inject_Z (parseInt hours))) eqn:Hle.
  - by apply num_rem_24.
  - rewrite Z.mod_small; [done|]. split; [done|].
    destruct (Z.lt_ge_cases (parseInt hours) 24) as [?|Hge]; [done|].
    exfalso. assert (Qle_bool 24 (inject_Z (parseInt hours)) = true); [|congruence].
    apply Qle_bool_iff. unfold Qle, inject_Z. cbn. lia.
Qed.

(** X21. Hours from 24 on wrap around: on an engine that prints the
    numbers 0 to 23 in decimal, a time whose hours are a string of digits
    (at most fifteen, which a number holds exactly) is normalised to the
    hours modulo 24 and the minutes, each padded to two characters. *)
Theorem hours_wrap_around (hours minutes : string) :
  (forall h, (0 <= h < 24)%Z -> Number_toString (num_of_Z h) = pretty h) ->
  hours <> "" -> all_digits hours = true -> (String.length hours <= 15)%nat ->
  plainPart minutes ->
  normalizeTimeFormat (hours +:+ ":" +:+ minutes)
  = Ok (String_padStart 2 "0" (pretty (parseInt hours mod 24)%Z) +:+ ":" +:+
        String_padStart 2 "0" minutes).
Proof.
  intros Hprint Hne Hdigits _ Hminutes.
  assert (plainPart hours) as Hhours.
  { pose proof (proj1 (forallb_forall _ _) Hdigits) as Hall.
    apply Forall_forall. intros c Hc%list_elem_of_In%Hall.
    split_and!; by intros ->. }
  destruct (separators_alike hours minutes Hhours Hminutes) as (_ & -> & _).
  unfold normalTime. rewrite wrapHours_digits by done.
  rewrite Hprint; [done|]. apply Z.mod_pos_bound. lia.
Qed.

(** ** Program titles *)

Lemma String_trimEnd_whitespace (s : string) :
  all_whitespace s = true -> String_trimEnd s = "".
Proof.
  induction s as [|c s IH]; [done|]. cbn [all_whitespace String_trimEnd].
  intros [Hc Hs]%andb_true_iff. by rewrite IH, Hc.
Qed.

Lemma String_trimEnd_empty (s : string) :
  String_trimEnd s = "" -> all_whitespace s = true.
Proof.
  induction s as [|c s IH]; [done|]. cbn [all_whitespace String_trimEnd].
  destruct (String_trimEnd s); [|done].
  destruct (is_whitespace c); [|done]. intros _. by apply IH.
Qed.

Lemma String_trimStart_trimEnd (s : string) :
  String_trimStart (String_trimEnd s) = String_trimEnd (String_trimStart s).
Proof.
  induction s as [|c s IH]; [done|]. cbn [String_trimStart].
  destruct (is_whitespace c) eqn:Hc.
  - rewrite <- IH. cbn [String_trimEnd].
    destruct (String_trimEnd s) as [|d rest]; rewrite ?Hc; [done|].
    cbn [String_trimStart]. by rewrite Hc.
  - destruct (String_trimEnd_head c s Hc) as [rest ->].
    cbn [String_trimStart]. by rewrite Hc.
Qed.

Lemma String_trim_trimEnd (s : string) : String_trim (String_trimEnd s) = String_trim s.
Proof.
  unfold String_trim. by rewrite String_trimStart_trimEnd, String_trimEnd_idem.
Qed.

Lemma all_whitespace_append (s t : string) :
  all_whitespace (s +:+ t) = all_whitespace s && all_whitespace t.
Proof.
  induction s as [|c s IH]; [done|]. rewrite append_cons. cbn [all_whitespace].
  by rewrite IH, andb_assoc.
Qed.

Lemma String_trimStart_whitespace (s t : string) :
  all_whitespace s = true -> String_trimStart (s +:+ t) = String_trimStart t.
Proof.
  induction s as [|c s IH]; [done|]. cbn [all_whitespace].
  intros [Hc Hs]%andb_true_iff. rewrite append_cons. cbn [String_trimStart].
  rewrite Hc. by apply IH.
Qed.

Lemma String_trimStart_append (s t : string) :
  all_whitespace s = false ->
  exists c rest, String_trimStart s = String c rest
    /\ String_trimStart (s +:+ t) = String c (rest +:+ t).
Proof.
  induction s as [|c s IH]; [done|]. cbn [all_whitespace].
  rewrite append_cons. cbn [String_trimStart].
  destruct (is_whitespace c); cbn [andb]; [by apply IH|]. intros _. by exists c, s.
Qed.

(** The tail [ (digits)] that titles carry their duration in. *)
Lemma re_digitsClose_digits (digits : string) (seen : bool) :
  all_digits digits = true ->
  re_digitsClose (digits +:+ ")") seen = seen || negb (String.eqb digits "").
Proof.
  unfold all_digits. revert seen. induction digits as [|c digits IH]; intros seen.
  - intros _. rewrite append_nil_l. cbn. by destruct seen.
  - cbn [list_ascii_of_string forallb]. intros [Hc Hd]%andb_true_iff.
    rewrite append_cons. cbn [re_digitsClose]. rewrite Hc, IH by done.
    cbn [String.eqb]. by destruct seen.
Qed.

Lemma re_digitsClose_blocked (s t : string) (seen : bool) :
  re_digitsClose (s +:+ String " " (String "(" t)) seen = false.
Proof.
  revert seen. induction s as [|c s IH]; intros seen.
  - rewrite append_nil_l. cbn [re_digitsClose]. done.
  - rewrite append_cons. cbn [re_digitsClose]. destruct (is_digit c); [apply IH|].
    rewrite all_whitespace_append. cbn [all_whitespace].
    replace (is_whitespace "(") with false by done.
    by rewrite !andb_false_r.
Qed.

Lemma re_duration_tail (s digits : string) :
  digits <> "" -> all_digits digits = true ->
  re_duration (s +:+ String " " (String "(" (digits +:+ ")"))) = all_whitespace s.
Proof.
  intros Hne Hdigits. unfold re_duration.
  destruct (all_whitespace s) eqn:Hs.
  - rewrite String_trimStart_whitespace by done. cbn [String_trimStart].
    replace (is_whitespace " ") with true by done.
    replace (is_whitespace "(") with false by done.
    rewrite re_digitsClose_digits by done. by destruct (String.eqb_spec digits "").
  - destruct (String_trimStart_append s (String " " (String "(" (digits +:+ ")"))) Hs)
      as (c & rest & _ & ->).
    destruct (ascii_dec c "(") as [->|Hc].
    + apply re_digitsClose_blocked.
    + destruct c as [[] [] [] [] [] [] [] []]; done.
Qed.

Lemma removeDuration_tail (title digits : string) :
  digits <> "" -> all_digits digits = true ->
  removeDuration (title +:+ String " " (String "(" (digits +:+ ")")))
  = String_trimEnd title.
Proof.
  intros Hne Hdigits. induction title as [|c title IH].
  - rewrite append_nil_l.
    pose proof (re_duration_tail "" digits Hne Hdigits) as Hre.
    rewrite append_nil_l in Hre. cbn [removeDuration]. by rewrite Hre.
  - pose proof (re_duration_tail (String c title) digits Hne Hdigits) as Hre.
    rewrite append_cons in *. cbn [removeDuration]. rewrite Hre, IH.
    cbn [all_whitespace String_trimEnd].
    destruct (is_whitespace c) eqn:Hc; cbn [andb].
    + destruct (all_whitespace title) eqn:Ht.
      * by rewrite String_trimEnd_whitespace.
      * destruct (String_trimEnd title) eqn:Hend; [|done].
        apply String_trimEnd_empty in Hend. congruence.
    + by destruct (String_trimEnd title).
Qed.

Lemma re_digitsClose_without (s : string) (seen : bool) :
  ")"%char ∉ chars s -> re_digitsClose s seen = false.
Proof.
  unfold chars. revert seen. induction s as [|c s IH]; intros seen; [done|].
  cbn [list_ascii_of_string]. intros [Hc Hs]%not_elem_of_cons.
  cbn [re_digitsClose]. destruct (is_digit c); [by apply IH|].
  by destruct (Ascii.eqb_spec c ")").
Qed.

Lemma removeDuration_without (title : string) :
  ")"%char ∉ chars title -> removeDuration title = title.
Proof.
  unfold chars. induction title as [|c title IH]; [done|].
  cbn [list_ascii_of_string]. intros Hin.
  assert (re_duration (String c title) = false) as Hre.
  { unfold re_duration.
    pose proof (String_trimStart_sublist (String c title)) as Hsub.
    destruct (String_trimStart (String c title)) as [|d rest]; [done|].
    assert (")"%char ∉ chars rest) as Hrest.
    { intros Hr. apply Hin. eapply elem_of_sublist; [|exact Hsub].
      unfold chars. cbn [list_ascii_of_string]. by right. }
    rewrite re_digitsClose_without by done.
    destruct d as [[] [] [] [] [] [] [] []]; done. }
  cbn [removeDuration]. rewrite Hre. f_equal. apply IH.
  intros Hr. apply Hin. by right.
Qed.

(** X22. A duration in parentheses at the end of a title is removed with
    the white space around it: a title followed by a space and a number in
    parentheses is cleaned to the trimmed title; and a title without a
    closing parenthesis is only trimmed. *)
Theorem trailing_duration_is_removed (title digits : string) :
  (digits <> "" -> all_digits digits = true ->
   cleanProgramTitle (title +:+ " (" +:+ digits +:+ ")") = String_trim title)
  /\ ((")"%char ∉ chars title) -> cleanProgramTitle title = String_trim title).
Proof.
  unfold cleanProgramTitle. split.
  - intros Hne Hdigits.
    replace (title +:+ " (" +:+ digits +:+ ")")
      with (title +:+ String " " (String "(" (digits +:+ ")"))) by done.
    rewrite removeDuration_tail by done. apply String_trim_trimEnd.
  - intros Hclose. by rewrite removeDuration_without.
Qed.

(** ** The month of a file name *)

Lemma toLowerCase_char_idem (c : ascii) :
  toLowerCase_char (toLowerCase_char c) = toLowerCase_char c.
Proof. destruct c as [[] [] [] [] [] [] [] []]; vm_compute; reflexivity. Qed.

Lemma String_toLowerCase_idem (s : string) :
  String_toLowerCase (String_toLowerCase s) = String_toLowerCase s.
Proof.
  induction s as [|c s IH]; [done|]. cbn [String_toLowerCase].
  by rewrite toLowerCase_char_idem, IH.
Qed.

Lemma prefix_includes (s sub : string) :
  String.prefix sub s = true -> String_includes s sub = true.
Proof. intros H. destruct s; cbn [String_includes]; by rewrite H. Qed.

Lemma re_fourDigits_Some (s year : string) :
  re_fourDigits s = Some year -> yearOf s year.
Proof.
  unfold yearOf. induction s as [|a s IH]; [done|]. cbn [re_fourDigits].
  destruct s as [|b [|c [|d rest]]]; [done..|].
  destruct (is_digit a && is_digit b && is_digit c && is_digit d) eqn:Hdigits.
  - intros [= <-]. rewrite !andb_true_iff in Hdigits. destruct_and!.
    split_and!; [done| |].
    + unfold all_digits. cbn [list_ascii_of_string forallb]. by rewrite !andb_true_iff.
    + apply prefix_includes. cbn [String.prefix].
      repeat (match goal with |- context [ascii_dec ?x ?x] =>
                destruct (ascii_dec x x); [|done] end).
      by destruct rest.
  - intros Hyear. destruct (IH Hyear) as (? & ? & Hin). split_and!; [done..|].
    cbn [String_includes] in *. rewrite Hin. apply orb_true_r.
Qed.

Lemma firstMonth_Some (name : string) (entries : list (string * string))
    (monthYear : string) :
  firstMonth name entries = Some monthYear ->
  exists shortName fullName year,
    (shortName, fullName) ∈ entries
    /\ String_includes name (String_toLowerCase shortName) = true
    /\ monthYear = fullName +:+ " " +:+ year
    /\ (year = "" \/ yearOf name year).
Proof.
  induction entries as [|[shortName fullName] entries IH]; [done|].
  cbn [firstMonth]. destruct (String_includes name _) eqn:Hin.
  - intros [= <-]. exists shortName, fullName, (default "" (re_fourDigits name)).
    split_and!; [left|done|done|].
    destruct (re_fourDigits name) as [year|] eqn:Hyear; [|by left].
    right. by apply re_fourDigits_Some.
  - intros (s & f & y & Hentry & Hrest)%IH. exists s, f, y. split; [by right|done].
Qed.

Lemma firstMonth_None (name : string) (entries : list (string * string)) :
  firstMonth name entries = None <->
  Forall (fun entry => String_includes name (String_toLowerCase (fst entry)) = false)
    entries.
Proof.
  induction entries as [|[shortName fullName] entries IH]; [by split; [constructor|]|].
  cbn [firstMonth]. destruct (String_includes name _) eqn:Hin.
  - split; [done|]. intros [Hno _]%Forall_cons. cbn [fst] in Hno. congruence.
  - rewrite IH. split; [by constructor|]. by intros [_ ?]%Forall_cons.
Qed.

(** X23. The month of a file name is found without regard to the case of
    the letters; it is "Unknown Month" exactly when the cleaned name holds
    none of the month keys, and otherwise the full Dutch name of a month
    whose key the cleaned name holds, a space, and the first four digits
    in a row of the cleaned name (nothing when there are none). *)
Theorem month_of_a_file_name (filename : string) :
  extractMonthYearFromFilename (String_toLowerCase filename)
  = extractMonthYearFromFilename filename
  /\ ((extractMonthYearFromFilename filename = "Unknown Month"
       /\ Forall (fun entry => String_includes (cleanName filename) (fst entry) = false)
            monthNames)
      \/ exists shortName fullName year,
           (shortName, fullName) ∈ monthNames
           /\ String_includes (cleanName filename) shortName = true
           /\ extractMonthYearFromFilename filename = fullName +:+ " " +:+ year
           /\ (year = "" \/ yearOf (cleanName filename) year)).
Proof.
  split.
  - unfold extractMonthYearFromFilename, cleanName. by rewrite String_toLowerCase_idem.
  - assert (forall entry, entry ∈ monthNames -> String_toLowerCase (fst entry) = fst entry)
      as Hkeys.
    { apply Forall_forall. by repeat constructor. }
    unfold extractMonthYearFromFilename.
    destruct (firstMonth (cleanName filename) monthNames) as [monthYear|] eqn:Hfirst.
    + right. apply firstMonth_Some in Hfirst as (s & f & y & Hentry & Hin & -> & Hyear).
      exists s, f, y. split_and!; [done| |done..].
      pose proof (Hkeys _ Hentry) as Hkey. cbn [fst] in Hkey. by rewrite Hkey in Hin.
    + left. split; [done|]. apply firstMonth_None in Hfirst.
      apply Forall_forall. intros entry Hentry.
      rewrite <- (Hkeys _ Hentry). by apply (proj1 (Forall_forall _ _) Hfirst).
Qed.

(** ** Dates *)

Lemma String_trim_plain (s : string) :
  Forall (fun c => is_whitespace c = false) (chars s) -> String_trim s = s.
Proof.
  unfold chars, String_trim. intros Hs.
  assert (String_trimStart s = s) as ->.
  { destruct s as [|c s]; [done|]. cbn [list_ascii_of_string] in Hs.
    apply Forall_cons in Hs as [Hc _]. cbn [String_trimStart]. by rewrite Hc. }
  induction s as [|c s IH]; [done|]. cbn [list_ascii_of_string] in Hs.
  apply Forall_cons in Hs as [Hc Hs]. cbn [String_trimEnd]. rewrite IH by done.
  destruct s; [by rewrite Hc|done].
Qed.

Lemma all_digits_chars (s : string) :
  all_digits s = true ->
  Forall (fun c => is_whitespace c = false /\ c <> "-"%char) (chars s).
Proof.
  intros Hs. pose proof (proj1 (forallb_forall _ _) Hs) as Hall.
  apply Forall_forall. intros c Hc%list_elem_of_In%Hall.
  split; [by apply is_digit_not_whitespace|by intros ->].
Qed.

Lemma re_oneOrTwoDigits_digits (s : string) :
  re_oneOrTwoDigits s = true -> all_digits s = true.
Proof. unfold re_oneOrTwoDigits. by intros [_ ?]%andb_true_iff. Qed.

Lemma digits_no_dash (s : string) : all_digits s = true -> "-"%char ∉ chars s.
Proof.
  intros Hs%all_digits_chars Hin.
  by destruct (proj1 (Forall_forall _ _) Hs _ Hin).
Qed.

Lemma String_split_three (sep : ascii) (a b c : string) :
  sep ∉ chars a -> sep ∉ chars b -> sep ∉ chars c ->
  String_split sep (a +:+ String sep (b +:+ String sep c)) = [a; b; c].
Proof.
  intros Ha Hb Hc. unfold String_split.
  rewrite !String_split_from_append, String_split_from_absent by done.
  by rewrite !append_nil_l.
Qed.

Lemma String_split_one (sep : ascii) (a : string) :
  sep ∉ chars a -> String_split sep a = [a].
Proof.
  intros Ha. unfold String_split. rewrite String_split_from_absent by done.
  by rewrite append_nil_l.
Qed.

Lemma padStart_oneOrTwoDigits (s : string) :
  re_oneOrTwoDigits s = true ->
  re_oneOrTwoDigits (String_padStart 2 "0" s) = true
  /\ String_padStart 2 "0" (String_padStart 2 "0" s) = String_padStart 2 "0" s.
Proof.
  unfold re_oneOrTwoDigits, all_digits, String_padStart.
  destruct s as [|a [|b [|c s]]]; [done|..|done];
    cbn [String.length Nat.sub String_repeat]; rewrite ?append_cons, ?append_nil_l;
    cbn [String.length Nat.sub String_repeat list_ascii_of_string forallb Nat.leb andb];
    rewrite ?append_cons, ?append_nil_l.
  - destruct (is_digit a); [|done]. intros _. by split.
  - intros H. by split.
Qed.

Lemma dash_date_plain (parts : list string) :
  Forall (fun s => all_digits s = true) parts ->
  Forall (fun c => is_whitespace c = false)
    (chars (String.concat "-" parts)).
Proof.
  induction 1 as [|s parts Hs Hparts IH]; [constructor|].
  assert (Forall (fun c => is_whitespace c = false) (chars s)) as Hplain.
  { eapply Forall_impl; [by apply all_digits_chars|]. by intros c [? _]. }
  destruct parts as [|t parts]; [done|].
  rewrite concat_cons2, !chars_append. apply Forall_app. split; [done|].
  apply Forall_app. split; [by repeat constructor|done].
Qed.

Lemma formatDateString_full (day month yearPart : string) (year : number) :
  re_oneOrTwoDigits day = true -> re_oneOrTwoDigits month = true ->
  String.length yearPart = 4%nat -> all_digits yearPart = true ->
  formatDateString (day +:+ "-" +:+ month +:+ "-" +:+ yearPart) year
  = String_padStart 2 "0" day +:+ "-" +:+ String_padStart 2 "0" month +:+ "-" +:+ yearPart.
Proof.
  intros Hday Hmonth Hlen Hyear.
  pose proof (re_oneOrTwoDigits_digits _ Hday) as Hd.
  pose proof (re_oneOrTwoDigits_digits _ Hmonth) as Hm.
  unfold formatDateString.
  change (day +:+ "-" +:+ month +:+ "-" +:+ yearPart)
    with (String.concat "-" [day; month; yearPart]).
  rewrite String_trim_plain by (apply dash_date_plain; by repeat constructor).
  change (String.concat "-" [day; month; yearPart])
    with (day +:+ String "-" (month +:+ String "-" yearPart)).
  destruct (String.eqb_spec (day +:+ String "-" (month +:+ String "-" yearPart)) "")
    as [He|_]; [by apply append_not_empty in He|].
  unfold re_dayMonthYear.
  rewrite String_split_three by (by apply digits_no_dash).
  by rewrite Hday, Hmonth, Hlen, Hyear.
Qed.

(** X24. Dates in their forms: a date of a day, a month and a year of
    four digits keeps its year, whatever year is given, and gets its day
    and month padded to two digits; such a result is left as it is when
    it is formatted again; a date of a day and a month gets the given
    year; and a day alone becomes that day of January of the given
    year. *)
Theorem dates_in_their_forms (day month yearPart : string) (year : number) :
  re_oneOrTwoDigits day = true -> re_oneOrTwoDigits month = true ->
  String.length yearPart = 4%nat -> all_digits yearPart = true ->
  let full :=
    String_padStart 2 "0" day +:+ "-" +:+ String_padStart 2 "0" month +:+ "-" +:+ yearPart in
  formatDateString (day +:+ "-" +:+ month +:+ "-" +:+ yearPart) year = full
  /\ formatDateString full year = full
  /\ formatDateString (day +:+ "-" +:+ month) year
     = String_padStart 2 "0" day +:+ "-" +:+ String_padStart 2 "0" month +:+ "-" +:+
       Number_toString year
  /\ formatDateString day year
     = String_padStart 2 "0" day +:+ "-01-" +:+ Number_toString year.
Proof.
  intros Hday Hmonth Hlen Hyear. cbv zeta.
  pose proof (re_oneOrTwoDigits_digits _ Hday) as Hd.
  pose proof (re_oneOrTwoDigits_digits _ Hmonth) as Hm.
  destruct (padStart_oneOrTwoDigits day Hday) as [Hpday Hpday'].
  destruct (padStart_oneOrTwoDigits month Hmonth) as [Hpmonth Hpmonth'].
  split_and!.
  - by apply formatDateString_full.
  - rewrite formatDateString_full by done. by rewrite Hpday', Hpmonth'.
  - unfold formatDateString.
    change (day +:+ "-" +:+ month) with (String.concat "-" [day; month]).
    rewrite String_trim_plain by (apply dash_date_plain; by repeat constructor).
    change (String.concat "-" [day; month]) with (day +:+ String "-" month).
    destruct (String.eqb_spec (day +:+ String "-" month) "") as [He|_];
      [by apply append_not_empty in He|].
    unfold re_dayMonthYear, re_dayMonth.
    rewrite String_split_two by (by apply digits_no_dash).
    by rewrite Hday, Hmonth.
  - assert (String_trim day = day) as Htrim
      by (apply (String_trim_plain day), (dash_date_plain [day]); by repeat constructor).
    unfold formatDateString. rewrite Htrim.
    destruct (String.eqb_spec day "") as [->|_]; [done|].
    unfold re_dayMonthYear, re_dayMonth, re_dayMonthName.
    rewrite String_split_one by (by apply digits_no_dash).
    by rewrite Hday.
Qed.

(** ** The sequence numbers of programs that share a slot *)

Lemma positions_length (key : string) (k : nat) (programs : list ProgramData.t) :
  length (positions key k programs)
  = length (List.filter (fun q => String.eqb (slotKey q) key) programs).
Proof.
  revert k. induction programs as [|q programs IH]; intros k; [done|].
  cbn [positions List.filter]. destruct (String.eqb (slotKey q) key); cbn [length];
    by rewrite IH.
Qed.

Lemma positions_bounds (key : string) (k : nat) (programs : list ProgramData.t) (i : nat) :
  i ∈ positions key k programs ->
  (k <= i < k + length programs)%nat
  /\ exists q, programs !! (i - k)%nat = Some q /\ slotKey q = key.
Proof.
  revert k. induction programs as [|q programs IH]; intros k; [by intros ?%elem_of_nil|].
  cbn [positions]. destruct (String.eqb_spec (slotKey q) key) as [Hq|Hq].
  - intros [->|Hin]%elem_of_cons.
    + split; [cbn [length]; lia|]. exists q. by rewrite Nat.sub_diag.
    + destruct (IH (S k) Hin) as [Hb (q' & Hq' & Hk)]. split; [cbn [length]; lia|].
      exists q'. split; [|done]. by replace (i - k)%nat with (S (i - S k)) by lia.
  - intros Hin. destruct (IH (S k) Hin) as [Hb (q' & Hq' & Hk)].
    split; [cbn [length]; lia|].
    exists q'. split; [|done]. by replace (i - k)%nat with (S (i - S k)) by lia.
Qed.

Lemma positions_NoDup (key : string) (k : nat) (programs : list ProgramData.t) :
  NoDup (positions key k programs).
Proof.
  revert k. induction programs as [|q programs IH]; intros k; [constructor|].
  cbn [positions]. destruct (String.eqb (slotKey q) key); [|apply IH].
  apply NoDup_cons. split; [|apply IH]. intros [Hb _]%positions_bounds. lia.
Qed.

(** A program stands in the list of the positions of its slot at the
    index that counts its mates before it. *)
Lemma positions_lookup (k : nat) (programs : list ProgramData.t) (j : nat)
    (p : ProgramData.t) :
  programs !! j = Some p ->
  positions (slotKey p) k programs !! length (slotMates p (take j programs))
  = Some (k + j)%nat.
Proof.
  unfold slotMates. revert k j. induction programs as [|q programs IH]; intros k j; [done|].
  destruct j as [|j]; cbn [lookup list_lookup].
  - intros [= ->]. cbn [positions take List.filter length]. rewrite String.eqb_refl.
    by rewrite Nat.add_0_r.
  - intros Hp. cbn [positions take List.filter].
    destruct (String.eqb (slotKey q) (slotKey p)); cbn [length];
      [change ((?x :: ?l) !! S ?n) with (l !! n)|];
      rewrite (IH (S k) j Hp); f_equal; lia.
Qed.

Lemma groupStep_get (G : Map (list nat)) (i : nat) (p : ProgramData.t) (key : string) :
  Map_get (groupStep G (i, p)) key
  = if String.eqb (slotKey p) key then Some (default [] (Map_get G key) ++ [i])
    else Map_get G key.
Proof.
  unfold groupStep, Map_has.
  destruct (Map_get G (slotKey p)) as [group|] eqn:Hget.
  - rewrite Hget, Map_get_set.
    destruct (String.eqb_spec (slotKey p) key) as [<-|_]; [|done]. by rewrite Hget.
  - rewrite Map_get_set_eq, Map_set_set, Map_get_set.
    destruct (String.eqb_spec (slotKey p) key) as [<-|_]; [|done]. by rewrite Hget.
Qed.

Lemma groupStep_NoDup (G : Map (list nat)) (place : nat * ProgramData.t) :
  NoDup (Map_keys G) -> NoDup (Map_keys (groupStep G place)).
Proof.
  intros HG. destruct place as [i p]. unfold groupStep.
  destruct (Map_has G (slotKey p)).
  - destruct (Map_get G (slotKey p)); [by apply NoDup_Map_set|done].
  - rewrite Map_get_set_eq. by apply NoDup_Map_set, NoDup_Map_set.
Qed.

Lemma groupBySlot_fold (programs : list ProgramData.t) (k : nat) (G : Map (list nat))
    (key : string) :
  NoDup (Map_keys G) ->
  let G' := fold_left groupStep (imap (fun i p => ((k + i)%nat, p)) programs) G in
  NoDup (Map_keys G')
  /\ Map_get G' key
     = match positions key k programs with
       | [] => Map_get G key
       | places => Some (default [] (Map_get G key) ++ places)
       end.
Proof.
  cbv zeta. revert k G. induction programs as [|q programs IH]; intros k G HG; [done|].
  cbn [imap fold_left positions].
  rewrite (imap_ext _ (fun i p => ((S k + i)%nat, p))) by (intros; unfold compose; f_equal; lia).
  destruct (IH (S k) (groupStep G ((k + 0)%nat, q)) (groupStep_NoDup _ _ HG)) as [Hnd Hget].
  split; [done|]. rewrite Hget, groupStep_get, Nat.add_0_r.
  destruct (String.eqb (slotKey q) key).
  - destruct (positions key (S k) programs); [done|].
    cbn [default from_option id]. by rewrite <- app_assoc.
  - done.
Qed.

Lemma groupBySlot_spec (programs : list ProgramData.t) :
  groupBySlot programs = fold_left groupStep (imap (fun i p => (i, p)) programs) [].
Proof. reflexivity. Qed.

Lemma number_group_others (count : nat) (group : list nat) (b : nat)
    (programs : list ProgramData.t) (i : nat) :
  i ∉ group ->
  fold_left
    (fun programs '(index, pos) => alter (numberProgram count index) pos programs)
    (imap (fun index pos => ((b + index)%nat, pos)) group) programs !! i
  = programs !! i.
Proof.
  revert b programs.
  induction group as [|pos group IH]; intros b programs Hi; [done|].
  apply not_elem_of_cons in Hi as [Hne Hi]. cbn [imap fold_left].
  rewrite (imap_ext _ (fun index pos => ((S b + index)%nat, pos)))
    by (intros; unfold compose; f_equal; lia).
  rewrite IH by done. by rewrite list_lookup_alter_ne.
Qed.

Lemma number_group (count : nat) (group : list nat) (b : nat)
    (programs : list ProgramData.t) (i : nat) :
  NoDup group ->
  let numbered :=
    fold_left
      (fun programs '(index, pos) => alter (numberProgram count index) pos programs)
      (imap (fun index pos => ((b + index)%nat, pos)) group) programs in
  (forall index, group !! index = Some i ->
     numbered !! i = numberProgram count (b + index) <$> programs !! i)
  /\ (i ∉ group -> numbered !! i = programs !! i).
Proof.
  cbv zeta. revert b programs.
  induction group as [|pos group IH]; intros b programs Hnd.
  - split; [done|]. done.
  - apply NoDup_cons in Hnd as [Hpos Hnd]. cbn [imap fold_left].
    rewrite (imap_ext _ (fun index pos => ((S b + index)%nat, pos)))
      by (intros; unfold compose; f_equal; lia).
    destruct (IH (S b) (alter (numberProgram count (b + 0)) pos programs) Hnd)
      as [Hin Hout].
    split.
    + intros [|index] Hi.
      * injection Hi as ->. rewrite Hout by done. apply list_lookup_alter_eq.
      * change (group !! index = Some i) in Hi. rewrite (Hin index Hi).
        rewrite list_lookup_alter_ne; [do 2 f_equal; lia|].
        intros ->. apply Hpos. by eapply list_elem_of_lookup_2.
    + intros [Hne Hi]%not_elem_of_cons. rewrite Hout by done.
      by rewrite list_lookup_alter_ne.
Qed.

Lemma number_groups (i : nat) (key : string) (mates : list nat) (index : nat)
    (groups : Map (list nat)) (programs : list ProgramData.t) :
  NoDup (Map_keys groups) -> NoDup mates -> mates !! index = Some i ->
  (forall k group, (k, group) ∈ groups -> k <> key -> i ∉ group) ->
  (forall group, (key, group) ∈ groups -> group = mates) ->
  fold_left
    (fun programs '(_, timePrograms) =>
       if (1 <? length timePrograms)%nat then
         fold_left
           (fun programs '(index, pos) =>
              alter (numberProgram (length timePrograms) index) pos programs)
           (imap (fun index pos => (index, pos)) timePrograms) programs
       else programs)
    groups programs !! i
  = if decide (key ∈ Map_keys groups) then
      if (1 <? length mates)%nat
      then numberProgram (length mates) index <$> programs !! i
      else programs !! i
    else programs !! i.
Proof.
  intros Hkeys Hmates Hindex. revert programs.
  induction groups as [|[k group] groups IH]; intros programs Hothers Hown.
  - cbn [fold_left]. by destruct (decide _) as [?%elem_of_nil|].
  - unfold Map_keys in Hkeys. cbn [fmap list_fmap fst] in Hkeys.
    apply NoDup_cons in Hkeys as [Hk Hkeys]. cbn [fold_left].
    rewrite IH; [|done|intros ? ? ?; apply Hothers; by right|intros ? ?; apply Hown; by right].
    destruct (String.eqb_spec k key) as [->|Hne].
    + rewrite (Hown group ltac:(left)).
      destruct (decide (key ∈ Map_keys groups)) as [?|_]; [done|].
      destruct (decide (key ∈ Map_keys ((key, mates) :: groups))) as [_|Hno];
        [|exfalso; apply Hno; left].
      destruct (1 <? length mates)%nat; [|done].
      by apply (number_group (length mates) mates 0 programs i Hmates).
    + assert (i ∉ group) as Hi by (apply (Hothers k); [left|done]).
      assert ((if (1 <? length group)%nat
               then fold_left
                      (fun programs '(index, pos) =>
                         alter (numberProgram (length group) index) pos programs)
                      (imap (fun index pos => (index, pos)) group) programs
               else programs) !! i = programs !! i) as ->.
      { destruct (1 <? length group)%nat; [|done].
        by apply (number_group_others (length group) group 0 programs i). }
      destruct (decide (key ∈ Map_keys groups)) as [Hin|Hout];
        destruct (decide (key ∈ Map_keys ((k, group) :: groups))) as [Hin'|Hout'];
        try done.
      * exfalso. apply Hout'. by right.
      * exfalso. apply elem_of_cons in Hin' as [?|?]; [by apply Hne|by apply Hout].
Qed.

(** X25 (csvProcessor.ts, calculateEndTimes, lines 766-790).  The programs of
    a day that share their week and start time are numbered in the order in
    which they stand in the day: where [count] programs share the slot of the
    program at place [i] and [before] of them stand before it, the program
    gets the sequence [before + 1] and the note
    "Multiple programs (before+1/count)" when [count] is more than one, and
    is left as it was when it has the slot to itself. *)
Theorem sequence_numbers_follow_the_order (programs : list ProgramData.t) (i : nat)
    (p : ProgramData.t) :
  programs !! i = Some p ->
  let count := length (slotMates p programs) in
  let before := length (slotMates p (take i programs)) in
  assignSequences programs !! i
  = Some (if (1 <? count)%nat then numberProgram count before p else p).
Proof.
  intros Hp count before. unfold assignSequences.
  pose proof (fun key => groupBySlot_fold programs 0 [] key (NoDup_nil_2 : NoDup (Map_keys [])))
    as Hgroups.
  cbv zeta in Hgroups.
  rewrite (imap_ext _ (fun i p => (i, p)) programs) in Hgroups by done.
  rewrite <- groupBySlot_spec in Hgroups.
  set (groups := groupBySlot programs) in *.
  assert (NoDup (Map_keys groups)) as Hkeys by apply (Hgroups ""%string).
  assert (forall key, Map_get groups key
            = match positions key 0 programs with
              | [] => None
              | places => Some places
              end) as Hget.
  { intros key. destruct (Hgroups key) as [_ ->].
    by destruct (positions key 0 programs). }
  clear Hgroups.
  pose proof (positions_lookup 0 programs i p Hp) as Hplace.
  change (0 + i)%nat with i in Hplace. fold before in Hplace.
  set (mates := positions (slotKey p) 0 programs) in *.
  assert (length mates = count) as Hcount by apply positions_length.
  assert (forall key group, (key, group) ∈ groups -> group = positions key 0 programs)
    as Hgroup.
  { intros key group Hin%(Map_get_of_elem _ _ _ Hkeys). rewrite Hget in Hin.
    destruct (positions key 0 programs); [done|]. by injection Hin as <-. }
  rewrite (number_groups i (slotKey p) mates before groups programs Hkeys
             (positions_NoDup _ _ _) Hplace).
  - destruct (decide (slotKey p ∈ Map_keys groups)) as [_|Hno].
    + rewrite Hcount, Hp. by destruct (1 <? count)%nat.
    + exfalso. apply Map_get_None_keys in Hno. rewrite Hget in Hno.
      fold mates in Hno. by destruct mates.
  - intros k group Hin Hne Hi. rewrite (Hgroup k group Hin) in Hi.
    apply positions_bounds in Hi as [_ (q & Hq & Hk)].
    rewrite Nat.sub_0_r, Hp in Hq. injection Hq as <-. by apply Hne.
  - intros group Hin. by apply Hgroup.
Qed.

End PipelineProperties.

(** * Examples on the reference host *)

#[local] Existing Instance reference_host.

(** [run H] evaluates the call of [H : call = Ok out] and replaces [out]
    by the value it returns. *)
Ltac run H := vm_compute in H; injection H as <-.

Ltac returns out H :=
  match goal with
  | |- context [processViewerData ?data ?label] =>
      destruct (processViewerData data label) as [out|] eqn:H;
      [|vm_compute in H; discriminate]
  | |- context [aggregateMonthsData ?data] =>
      destruct (aggregateMonthsData data) as [out|] eqn:H;
      [|vm_compute in H; discriminate]
  | |- context [calculateEndTimes_day ?data] =>
      destruct (calculateEndTimes_day data) as [out|] eqn:H;
      [|vm_compute in H; discriminate]
  end.







(** The report that holds the header row only has no days, and its peak
    hour is 23. *)
Lemma empty_data_defaults_witness :
  exists out,
    processViewerData [Some example_headers] "November 2024" = Ok out
    /\ ProcessedMonthData.days out = []
    /\ ProcessedMonthData.totalViewers out = Num 0
    /\ ProcessedMonthData.peakHour out = 23%Z.
Proof.
  destruct (empty_data_defaults [Some example_headers] "November 2024")
    as (out & Hout & Hdefaults); [vm_compute; discriminate|].
  exists out. split; [exact Hout|].
  assert (ProcessedMonthData.days out = []) as Hdays by (run Hout; reflexivity).
  split; [exact Hdays|exact (Hdefaults Hdays)].
Defined.





(** The label of the two combined summaries. *)
Lemma combined_label_witness :
  exists out,
    aggregateMonthsData (Some [november; december]) = Ok out
    /\ ProcessedMonthData.monthYear out = "Samenvatting (November 2024 - December 2024)".
Proof.
  destruct (proj2 (proj2 combined_label) november december []) as [out Hout].
  - repeat (constructor; [split; intros groups [=]|]). constructor.
  - exists out. split; [exact Hout|].
    exact (proj1 (proj2 combined_label) november december [] out Hout).
Defined.

(** C9, as stated, fails: the label of the two combined summaries is not
    the two labels joined by a dash. *)
Lemma combined_label_is_wrapped :
  exists out,
    aggregateMonthsData (Some [november; december]) = Ok out
    /\ ProcessedMonthData.monthYear out <> "November 2024 - December 2024".
Proof. eexists. split; [by vm_compute|]. by vm_compute. Qed.

(** ** Examples of the further properties *)

Lemma kept_days_are_sound_witness :
  exists out,
    processViewerData example_grid "November 2024" = Ok out
    /\ NoDup (DailyData.date <$> ProcessedMonthData.days out)
    /\ Forall soundDay (ProcessedMonthData.days out).
Proof.
  returns out Hout. exists out. split; [reflexivity|].
  exact (kept_days_are_sound _ _ _ Hout).
Defined.


(** The row with the time slot "avond" can be taken out of the report. *)
Lemma skipped_row_leaves_no_trace_witness :
  processViewerData
    ([Some [CString "rapport"]] ++ Some example_headers
       :: [example_earlier] ++ unreadable_row :: example_later :: example_rest)
    "November 2024"
  = processViewerData
      ([Some [CString "rapport"]] ++ Some example_headers
         :: [example_earlier] ++ example_later :: example_rest)
      "November 2024".
Proof.
  apply skipped_row_leaves_no_trace; [by repeat constructor|reflexivity|reflexivity].
Defined.

Lemma preamble_is_ignored_witness :
  processViewerData
    ([Some [CString "rapport"]] ++ Some example_headers
       :: example_earlier :: example_later :: example_rest)
    "November 2024"
  = processViewerData
      (Some example_headers :: example_earlier :: example_later :: example_rest)
      "November 2024".
Proof. apply preamble_is_ignored; [by repeat constructor|reflexivity]. Defined.

(** The peak day of the example report is 01-11-2024, with 1000 viewers. *)
Lemma peak_day_has_the_largest_total_witness :
  exists out,
    processViewerData example_grid "November 2024" = Ok out
    /\ ProcessedMonthData.peakDay out = "01-11-2024"
    /\ ((ProcessedMonthData.days out = [] /\ ProcessedMonthData.peakDay out = "Geen data")
        \/ exists peak,
             peak ∈ ProcessedMonthData.days out
             /\ ProcessedMonthData.peakDay out = DailyData.date peak
             /\ forall day, day ∈ ProcessedMonthData.days out ->
                  num_gt (DailyData.totalViewers day) (DailyData.totalViewers peak)
                  = false).
Proof.
  returns out Hout. exists out. split; [reflexivity|]. split.
  - run Hout. reflexivity.
  - exact (peak_day_has_the_largest_total _ _ _ Hout).
Defined.

(** The maximum of hour 20 over the two combined days is 100. *)
Lemma hourly_maximum_witness :
  exists out q,
    aggregateMonthsData (Some [november; december]) = Ok out
    /\ ProcessedMonthData.maxViewersPerHour out !! 20%nat = Some (Some (Num q))
    /\ (100 <= q)%Q.
Proof.
  returns out Hout.
  destruct (proj2 hourly_maximum november december [] out 20%nat Hout)
    as (q & Hq & Hall & _); [lia| |].
  - run Hout. intros day Hday.
    apply elem_of_cons in Hday as [->|Hday];
      [|apply elem_of_cons in Hday as [->|Hday]; [|by apply elem_of_nil in Hday]];
      eexists; reflexivity.
  - exists out, q. split; [reflexivity|]. split; [exact Hq|].
    apply (Hall november_day); [run Hout; left|reflexivity].
Defined.


Lemma combined_days_are_the_union_witness :
  exists out,
    aggregateMonthsData (Some [november; december]) = Ok out
    /\ NoDup (DailyData.date <$> ProcessedMonthData.days out)
    /\ december_day ∈ ProcessedMonthData.days out.
Proof.
  returns out Hout. exists out. split; [reflexivity|].
  destruct (combined_days_are_the_union _ _ _ _ Hout) as [Hnd Hdays].
  split; [exact Hnd|]. apply Hdays. exists [november_day], []. split; [reflexivity|constructor].
Defined.


Lemma backfill_only_annotates_witness :
  exists result,
    calculateEndTimes_day example_programs = Ok result
    /\ untouched <$> result ≡ₚ untouched <$> example_programs.
Proof.
  returns ended Hended. exists ended. split; [reflexivity|].
  exact (proj1 (backfill_only_annotates _ _ Hended)).
Defined.

Lemma schedule_backfill_by_day_witness :
  exists out, calculateEndTimes example_schedule = Ok out.
Proof.
  apply (proj2 (proj2 (schedule_backfill_by_day example_schedule))).
  repeat (constructor; [by repeat constructor|]). constructor.
Defined.

(** A line of two quoted cells, the second with a comma in it. *)
Lemma quoted_cells_are_read_back_witness :
  parseCsvRow (String.concat "," (quoted <$> ["20,00"; " Journaal "]))
  = String_trim <$> ["20,00"; " Journaal "].
Proof.
  apply (quoted_cells_are_read_back "20,00" [" Journaal "]).
  repeat (constructor; [by apply (bool_decide_unpack _); vm_compute|]). constructor.
Defined.

Lemma unquoted_line_is_split_witness :
  parseCsvRow "20,00, Journaal ,x" = String_trim <$> String_split "," "20,00, Journaal ,x".
Proof.
  apply (unquoted_line_is_split "20,00, Journaal ,x").
  by apply (bool_decide_unpack _); vm_compute.
Defined.

Lemma plainPart_digits (s : string) : all_digits s = true -> plainPart s.
Proof.
  intros Hs. pose proof (proj1 (forallb_forall _ _) Hs) as Hall.
  apply Forall_forall. intros c Hc%list_elem_of_In%Hall.
  split_and!; by intros ->.
Qed.

(** 25 hours past midnight, written with a comma, a colon or a dot. *)
Lemma separators_are_alike_witness :
  normalTime "25" "15" = "01:15"
  /\ normalizeTimeFormat ("25" +:+ "," +:+ "15") = Ok (normalTime "25" "15")
  /\ normalizeTimeFormat ("25" +:+ ":" +:+ "15") = Ok (normalTime "25" "15")
  /\ ("15" <> "" ->
      normalizeTimeFormat ("25" +:+ "." +:+ "15") = Ok (normalTime "25" "15")).
Proof.
  split; [by vm_compute|].
  apply (separators_are_alike "25" "15"); by apply plainPart_digits.
Defined.

Lemma reference_host_prints_hours (h : Z) :
  (0 <= h < 24)%Z -> ref_Number_toString (num_of_Z h) = pretty h.
Proof.
  intros Hh. destruct h as [|p|p]; [reflexivity| |lia].
  do 5 (try destruct p as [p|p|]); try reflexivity; lia.
Qed.

Lemma hours_wrap_around_witness :
  normalizeTimeFormat ("25" +:+ ":" +:+ "15")
  = Ok (String_padStart 2 "0" (pretty (parseInt "25" mod 24)%Z) +:+ ":" +:+
        String_padStart 2 "0" "15").
Proof.
  apply (hours_wrap_around "25" "15");
    [exact reference_host_prints_hours|done|reflexivity|cbn; lia|by apply plainPart_digits].
Defined.

Lemma trailing_duration_is_removed_witness :
  cleanProgramTitle ("Journaal" +:+ " (" +:+ "25" +:+ ")") = String_trim "Journaal".
Proof.
  apply (proj1 (trailing_duration_is_removed "Journaal" "25")); [done|reflexivity].
Defined.

Lemma dates_in_their_forms_witness :
  formatDateString ("1" +:+ "-" +:+ "2" +:+ "-" +:+ "2024") (Num 1999)
  = String_padStart 2 "0" "1" +:+ "-" +:+ String_padStart 2 "0" "2" +:+ "-" +:+ "2024"
  /\ formatDateString ("1" +:+ "-" +:+ "2") (Num 1999)
     = String_padStart 2 "0" "1" +:+ "-" +:+ String_padStart 2 "0" "2" +:+ "-" +:+
       Number_toString (Num 1999).
Proof.
  destruct (dates_in_their_forms "1" "2" "2024" (Num 1999)) as (Hfull & _ & Hshort & _);
    [reflexivity..|].
  split; [exact Hfull|exact Hshort].
Defined.

Lemma sequence_numbers_follow_the_order_witness :
  let programs :=
    [example_program "20:00"; example_program "20:30"; example_program "20:00"] in
  programs !! 2%nat = Some (example_program "20:00")
  /\ assignSequences programs !! 2%nat
     = Some (numberProgram 2 1 (example_program "20:00")).
Proof.
  intros programs. split; [reflexivity|].
  exact (sequence_numbers_follow_the_order programs 2 _ eq_refl).
Defined.
